(** * Zotero librarian toolkit: a shallow embedding and its properties

  The toolkit ([zotero_librarian/__init__.py]) is a set of Python
  functions over a [pyzotero] client.  This development embeds the
  functions the specification talks about:

  - the identifier validators ([validate_doi], [validate_isbn],
    [validate_issn]), over a small model of [re.match], once on 8-bit
    strings and once on strings of Unicode code points;
  - the paginated reader [_all_items] and the snapshot cache of
    [_get_library_with_children];
  - the read-side analyses [find_duplicates_by_field] and
    [similar_tags];
  - the write-side editors, the merges, the batch operations and the
    two file uploads;
  - further readers and editors of the same file: the lookups by ISBN
    and DOI, the search by title, the counts per type and per tag, the
    tag cloud, the checks for attachments and URLs, and the editors of
    tags, collections, notes, relations and item types.

  Python [str] is modelled as [string] (8-bit characters, read as
  Latin-1 code points) and, where characters beyond Latin-1 matter, as
  a list of code points ([Uni.str]); Python [dict] as an association list in
  insertion order, exceptions as an outcome of a state-and-error monad
  whose state holds the remote backend, the log of requests sent to it
  and the attribute [_library_cache] of the client object. *)

From Stdlib Require Import List String Ascii ZArith QArith Lia Bool Arith.
From Stdlib Require Import Permutation.
Import ListNotations.
Open Scope string_scope.
Open Scope nat_scope.
Set Warnings "-register-all".

(* ===================================================================== *)
(** * Strings *)
(* ===================================================================== *)

Module Str.

Definition code (c : ascii) : nat := nat_of_ascii c.

Definition in_range (lo hi : ascii) (c : ascii) : bool :=
  (code lo <=? code c) && (code c <=? code hi).

(** [\d] on 8-bit strings: the ten ASCII digits (Latin-1 has no other
    character of category Nd). *)
Definition is_digit (c : ascii) : bool := in_range "0" "9" c.

Definition is_char (a : ascii) (c : ascii) : bool := Ascii.eqb a c.

(** [s.replace(c, empty)] for a one-character pattern [c] and the empty string. *)
Fixpoint delete (a : ascii) (s : string) : string :=
  match s with
  | EmptyString => EmptyString
  | String c s' => if Ascii.eqb c a then delete a s' else String c (delete a s')
  end.

Fixpoint forallb (p : ascii -> bool) (s : string) : bool :=
  match s with
  | EmptyString => true
  | String c s' => p c && forallb p s'
  end.

(** [str.lower] on Latin-1: A-Z and the accented capitals
    U+00C0..U+00DE (without the multiplication sign U+00D7) move up by
    32; every other character is kept. *)
Definition lower_char (c : ascii) : ascii :=
  let n := code c in
  if ((65 <=? n) && (n <=? 90)) || ((192 <=? n) && (n <=? 222) && negb (n =? 215))
  then ascii_of_nat (n + 32) else c.

Fixpoint lower (s : string) : string :=
  match s with
  | EmptyString => EmptyString
  | String c s' => String (lower_char c) (lower s')
  end.

Definition upper_char (c : ascii) : ascii :=
  let n := code c in
  if ((97 <=? n) && (n <=? 122)) || ((224 <=? n) && (n <=? 254) && negb (n =? 247))
  then ascii_of_nat (n - 32) else c.

End Str.

(* ===================================================================== *)
(** * Regular expressions and [re.match] *)
(* ===================================================================== *)

Module Re.

(** The fragment of Python's pattern language the validators use:
    character classes, concatenation, bounded and unbounded
    repetition.  Alternation is needed for the derivative. *)
Inductive regex : Type :=
| Void : regex
| Eps : regex
| Cls (p : ascii -> bool) : regex
| Cat (r1 r2 : regex) : regex
| Alt (r1 r2 : regex) : regex
| Star (r : regex) : regex.

Fixpoint nullable (r : regex) : bool :=
  match r with
  | Void => false
  | Eps => true
  | Cls _ => false
  | Cat r1 r2 => nullable r1 && nullable r2
  | Alt r1 r2 => nullable r1 || nullable r2
  | Star _ => true
  end.

Fixpoint deriv (c : ascii) (r : regex) : regex :=
  match r with
  | Void => Void
  | Eps => Void
  | Cls p => if p c then Eps else Void
  | Cat r1 r2 =>
      if nullable r1 then Alt (Cat (deriv c r1) r2) (deriv c r2)
      else Cat (deriv c r1) r2
  | Alt r1 r2 => Alt (deriv c r1) (deriv c r2)
  | Star r1 => Cat (deriv c r1) (Star r1)
  end.

(** [bool(re.match(r, s))]: some prefix of [s] is a word of [r]. *)
Fixpoint re_match (r : regex) (s : string) : bool :=
  nullable r ||
  match s with
  | EmptyString => false
  | String c s' => re_match (deriv c r) s'
  end.

(** The words of a pattern. *)
Inductive Matches : regex -> string -> Prop :=
| Matches_eps : Matches Eps EmptyString
| Matches_cls (p : ascii -> bool) (c : ascii) :
    p c = true -> Matches (Cls p) (String c EmptyString)
| Matches_cat (r1 r2 : regex) (s1 s2 : string) :
    Matches r1 s1 -> Matches r2 s2 -> Matches (Cat r1 r2) (s1 ++ s2)
| Matches_alt_l (r1 r2 : regex) (s : string) : Matches r1 s -> Matches (Alt r1 r2) s
| Matches_alt_r (r1 r2 : regex) (s : string) : Matches r2 s -> Matches (Alt r1 r2) s
| Matches_star_nil (r : regex) : Matches (Star r) EmptyString
| Matches_star_app (r : regex) (s1 s2 : string) :
    Matches r s1 -> Matches (Star r) s2 -> Matches (Star r) (s1 ++ s2).

(** Pattern syntax. *)
Definition lit (a : ascii) : regex := Cls (Str.is_char a).
Definition digit : regex := Cls Str.is_digit.
Definition opt (r : regex) : regex := Alt r Eps.
Definition plus (r : regex) : regex := Cat r (Star r).

(** [r{n}] followed by [k]. *)
Fixpoint times (n : nat) (r k : regex) : regex :=
  match n with
  | O => k
  | S n' => Cat r (times n' r k)
  end.

(** [r{0,n}] followed by [k]. *)
Fixpoint upto (n : nat) (r k : regex) : regex :=
  match n with
  | O => k
  | S n' => Alt (Cat r (upto n' r k)) k
  end.

(** [r{m,n}] followed by [k]. *)
Definition between (m n : nat) (r k : regex) : regex :=
  times m r (upto (n - m) r k).

(** A class under [re.IGNORECASE]: a character matches when it or its
    other-case form is in the class. *)
Definition ignorecase (p : ascii -> bool) : ascii -> bool :=
  fun c => p c || p (Str.lower_char c) || p (Str.upper_char c).

End Re.

(* ===================================================================== *)
(** * Validation *)
(* ===================================================================== *)

(** [[-._;()/:A-Z0-9]] *)
Definition doi_suffix_class (c : ascii) : bool :=
Str.is_char "-" c || Str.is_char "." c || Str.is_char "_" c ||
Str.is_char ";" c || Str.is_char "(" c || Str.is_char ")" c ||
Str.is_char "/" c || Str.is_char ":" c ||
Str.in_range "A" "Z" c || Str.in_range "0" "9" c.

(** [10\.\d{4,9}/[-._;()/:A-Z0-9]+] with [re.IGNORECASE] *)
Definition doi_pattern : Re.regex :=
Re.Cat (Re.lit "1") (Re.Cat (Re.lit "0") (Re.Cat (Re.lit ".")
  (Re.between 4 9 Re.digit
     (Re.Cat (Re.lit "/") (Re.plus (Re.Cls (Re.ignorecase doi_suffix_class))))))).

Definition validate_doi (doi : string) : bool :=
Re.re_match doi_pattern doi.

Definition digit_or_X (c : ascii) : bool := Str.is_digit c || Str.is_char "X" c.

(** [\d{9}[\dX]] *)
Definition isbn10_pattern : Re.regex := Re.times 9 Re.digit (Re.Cls digit_or_X).

(** [\d{13}] *)
Definition isbn13_pattern : Re.regex := Re.times 13 Re.digit Re.Eps.

Definition validate_isbn (isbn : string) : bool :=
let isbn := Str.delete " " (Str.delete "-" isbn) in
if String.length isbn =? 10 then Re.re_match isbn10_pattern isbn
else if String.length isbn =? 13 then Re.re_match isbn13_pattern isbn
else false.

(** [\d{4}-\d{3}[\dX]] *)
Definition issn_pattern : Re.regex :=
Re.times 4 Re.digit (Re.Cat (Re.lit "-") (Re.times 3 Re.digit (Re.Cls digit_or_X))).

Definition validate_issn (issn : string) : bool :=
Re.re_match issn_pattern issn.

(** The specification's reading of ISBN validation, written from its
  words: what is left once hyphens and spaces are deleted. *)
Fixpoint without_hyphens_and_spaces (s : string) : string :=
match s with
| EmptyString => EmptyString
| String c s' =>
    if Ascii.eqb c "-" || Ascii.eqb c " " then without_hyphens_and_spaces s'
    else String c (without_hyphens_and_spaces s')
end.

Definition isbn10_shape (r : string) : Prop :=
exists body last,
  r = body ++ String last EmptyString /\
  String.length body = 9 /\
  Str.forallb Str.is_digit body = true /\
  (Str.is_digit last = true \/ last = "X"%char).

Definition isbn13_shape (r : string) : Prop :=
String.length r = 13 /\ Str.forallb Str.is_digit r = true.

Open Scope list_scope.

(* ===================================================================== *)
(** * Validation over Unicode strings *)
(* ===================================================================== *)

(** A Python [str] is a sequence of Unicode code points, and [re] with a
    [str] pattern reads [\d] as any character of category Nd and
    [re.IGNORECASE] through the lower-case mapping of the interpreter.
    The validators are embedded a second time over code points, for any
    character database; the tables of Unicode 14.0 (CPython 3.11) are
    one.  On strings of Latin-1 characters the two embeddings agree. *)

Module Uni.

Definition str : Type := list N.

Definition cp (c : ascii) : N := N_of_ascii c.

Fixpoint of_string (s : string) : str :=
  match s with
  | EmptyString => []
  | String c s' => cp c :: of_string s'
  end.

(** [s.replace(c, empty)] for a one-character pattern [c] and the empty string. *)
Fixpoint delete (a : N) (s : str) : str :=
  match s with
  | [] => []
  | c :: s' => if N.eqb c a then delete a s' else c :: delete a s'
  end.

(** ** The Unicode database of the interpreter *)

(** What [re] asks of the character database, which differs from one
    version of Unicode to the next. *)
Record Database : Type := mkDatabase {
  (** [Py_UNICODE_ISDECIMAL]: the character is a decimal digit
      (category Nd); this is what [\d] tests. *)
  is_decimal : N -> bool;
  (** [_sre.unicode_tolower]: the simple lower-case mapping. *)
  tolower : N -> N;
  (** [re._casefix._EXTRA_CASES]: for a lower-case character, the
      further characters that are equal to it when case is ignored. *)
  fixes : N -> list N
}.

(** ** The tables of Unicode 14.0 (CPython 3.11) *)

(** The characters of category Nd come in blocks of ten consecutive
    code points, zero to nine; these are the code points of the zeros. *)
Definition decimal_blocks : list N :=
  [48; 1632; 1776; 1984; 2406; 2534; 2662; 2790; 2918; 3046; 3174; 3302; 3430; 3558;
   3664; 3792; 3872; 4160; 4240; 6112; 6160; 6470; 6608; 6784; 6800; 6992; 7088;
   7232; 7248; 42528; 43216; 43264; 43472; 43504; 43600; 44016; 65296; 66720; 68912;
   69734; 69872; 69942; 70096; 70384; 70736; 70864; 71248; 71360; 71472; 71904;
   72016; 72784; 73040; 73120; 92768; 92864; 93008; 120782; 120792; 120802; 120812;
   120822; 123200; 123632; 125264; 130032]%N.

Definition is_decimal_14 (c : N) : bool :=
  existsb (fun zero => (zero <=? c) && (c <? zero + 10))%N decimal_blocks.

(** The lower-case mapping as runs [(first, last, step, image of
    first)]: every [step]-th code point from [first] to [last] is moved
    by the same distance. *)
Definition lowercase_runs : list (N * N * N * N) :=
  [(65, 90, 1, 97); (192, 214, 1, 224); (216, 222, 1, 248); (256, 302, 2, 257);
   (304, 304, 1, 105); (306, 310, 2, 307); (313, 327, 2, 314); (330, 374, 2, 331);
   (376, 376, 1, 255); (377, 381, 2, 378); (385, 385, 1, 595); (386, 388, 2, 387);
   (390, 390, 1, 596); (391, 391, 1, 392); (393, 394, 1, 598); (395, 395, 1, 396);
   (398, 398, 1, 477); (399, 399, 1, 601); (400, 400, 1, 603); (401, 401, 1, 402);
   (403, 403, 1, 608); (404, 404, 1, 611); (406, 406, 1, 617); (407, 407, 1, 616);
   (408, 408, 1, 409); (412, 412, 1, 623); (413, 413, 1, 626); (415, 415, 1, 629);
   (416, 420, 2, 417); (422, 422, 1, 640); (423, 423, 1, 424); (425, 425, 1, 643);
   (428, 428, 1, 429); (430, 430, 1, 648); (431, 431, 1, 432); (433, 434, 1, 650);
   (435, 437, 2, 436); (439, 439, 1, 658); (440, 440, 1, 441); (444, 444, 1, 445);
   (452, 452, 1, 454); (453, 453, 1, 454); (455, 455, 1, 457); (456, 456, 1, 457);
   (458, 458, 1, 460); (459, 475, 2, 460); (478, 494, 2, 479); (497, 497, 1, 499);
   (498, 500, 2, 499); (502, 502, 1, 405); (503, 503, 1, 447); (504, 542, 2, 505);
   (544, 544, 1, 414); (546, 562, 2, 547); (570, 570, 1, 11365); (571, 571, 1, 572);
   (573, 573, 1, 410); (574, 574, 1, 11366); (577, 577, 1, 578); (579, 579, 1, 384);
   (580, 580, 1, 649); (581, 581, 1, 652); (582, 590, 2, 583); (880, 882, 2, 881);
   (886, 886, 1, 887); (895, 895, 1, 1011); (902, 902, 1, 940); (904, 906, 1, 941);
   (908, 908, 1, 972); (910, 911, 1, 973); (913, 929, 1, 945); (931, 939, 1, 963);
   (975, 975, 1, 983); (984, 1006, 2, 985); (1012, 1012, 1, 952); (1015, 1015, 1,
   1016); (1017, 1017, 1, 1010); (1018, 1018, 1, 1019); (1021, 1023, 1, 891); (1024,
   1039, 1, 1104); (1040, 1071, 1, 1072); (1120, 1152, 2, 1121); (1162, 1214, 2,
   1163); (1216, 1216, 1, 1231); (1217, 1229, 2, 1218); (1232, 1326, 2, 1233);
   (1329, 1366, 1, 1377); (4256, 4293, 1, 11520); (4295, 4295, 1, 11559); (4301,
   4301, 1, 11565); (5024, 5103, 1, 43888); (5104, 5109, 1, 5112); (7312, 7354, 1,
   4304); (7357, 7359, 1, 4349); (7680, 7828, 2, 7681); (7838, 7838, 1, 223); (7840,
   7934, 2, 7841); (7944, 7951, 1, 7936); (7960, 7965, 1, 7952); (7976, 7983, 1,
   7968); (7992, 7999, 1, 7984); (8008, 8013, 1, 8000); (8025, 8031, 2, 8017);
   (8040, 8047, 1, 8032); (8072, 8079, 1, 8064); (8088, 8095, 1, 8080); (8104, 8111,
   1, 8096); (8120, 8121, 1, 8112); (8122, 8123, 1, 8048); (8124, 8124, 1, 8115);
   (8136, 8139, 1, 8050); (8140, 8140, 1, 8131); (8152, 8153, 1, 8144); (8154, 8155,
   1, 8054); (8168, 8169, 1, 8160); (8170, 8171, 1, 8058); (8172, 8172, 1, 8165);
   (8184, 8185, 1, 8056); (8186, 8187, 1, 8060); (8188, 8188, 1, 8179); (8486, 8486,
   1, 969); (8490, 8490, 1, 107); (8491, 8491, 1, 229); (8498, 8498, 1, 8526);
   (8544, 8559, 1, 8560); (8579, 8579, 1, 8580); (9398, 9423, 1, 9424); (11264,
   11311, 1, 11312); (11360, 11360, 1, 11361); (11362, 11362, 1, 619); (11363,
   11363, 1, 7549); (11364, 11364, 1, 637); (11367, 11371, 2, 11368); (11373, 11373,
   1, 593); (11374, 11374, 1, 625); (11375, 11375, 1, 592); (11376, 11376, 1, 594);
   (11378, 11378, 1, 11379); (11381, 11381, 1, 11382); (11390, 11391, 1, 575);
   (11392, 11490, 2, 11393); (11499, 11501, 2, 11500); (11506, 11506, 1, 11507);
   (42560, 42604, 2, 42561); (42624, 42650, 2, 42625); (42786, 42798, 2, 42787);
   (42802, 42862, 2, 42803); (42873, 42875, 2, 42874); (42877, 42877, 1, 7545);
   (42878, 42886, 2, 42879); (42891, 42891, 1, 42892); (42893, 42893, 1, 613);
   (42896, 42898, 2, 42897); (42902, 42920, 2, 42903); (42922, 42922, 1, 614);
   (42923, 42923, 1, 604); (42924, 42924, 1, 609); (42925, 42925, 1, 620); (42926,
   42926, 1, 618); (42928, 42928, 1, 670); (42929, 42929, 1, 647); (42930, 42930, 1,
   669); (42931, 42931, 1, 43859); (42932, 42946, 2, 42933); (42948, 42948, 1,
   42900); (42949, 42949, 1, 642); (42950, 42950, 1, 7566); (42951, 42953, 2,
   42952); (42960, 42960, 1, 42961); (42966, 42968, 2, 42967); (42997, 42997, 1,
   42998); (65313, 65338, 1, 65345); (66560, 66599, 1, 66600); (66736, 66771, 1,
   66776); (66928, 66938, 1, 66967); (66940, 66954, 1, 66979); (66956, 66962, 1,
   66995); (66964, 66965, 1, 67003); (68736, 68786, 1, 68800); (71840, 71871, 1,
   71872); (93760, 93791, 1, 93792); (125184, 125217, 1, 125218)]%N.

Definition in_run (c : N) (run : N * N * N * N) : bool :=
  let '(first, last, step, _) := run in
  ((first <=? c) && (c <=? last) && ((c - first) mod step =? 0))%N.

Definition tolower_14 (c : N) : N :=
  match find (in_run c) lowercase_runs with
  | Some (first, _, _, image) => (image + (c - first))%N
  | None => c
  end.

Definition extra_cases : list (N * list N) :=
  [(105, [305]); (115, [383]); (181, [956]); (305, [105]); (383, [115]); (837, [953;
   8126]); (912, [8147]); (944, [8163]); (946, [976]); (949, [1013]); (952, [977]);
   (953, [837; 8126]); (954, [1008]); (956, [181]); (960, [982]); (961, [1009]);
   (962, [963]); (963, [962]); (966, [981]); (976, [946]); (977, [952]); (981,
   [966]); (982, [960]); (1008, [954]); (1009, [961]); (1013, [949]); (1074,
   [7296]); (1076, [7297]); (1086, [7298]); (1089, [7299]); (1090, [7300; 7301]);
   (1098, [7302]); (1123, [7303]); (7296, [1074]); (7297, [1076]); (7298, [1086]);
   (7299, [1089]); (7300, [1090; 7301]); (7301, [1090; 7300]); (7302, [1098]);
   (7303, [1123]); (7304, [42571]); (7777, [7835]); (7835, [7777]); (8126, [837;
   953]); (8147, [912]); (8163, [944]); (42571, [7304]); (64261, [64262]); (64262,
   [64261])]%N.

Definition fixes_14 (lo : N) : list N :=
  match find (fun entry => N.eqb (fst entry) lo) extra_cases with
  | Some (_, others) => others
  | None => []
  end.

Definition unicode_14 : Database := mkDatabase is_decimal_14 tolower_14 fixes_14.

(** ** Character classes under [re.IGNORECASE] *)

(** [n] consecutive code points from [first]. *)
Fixpoint code_points (first : N) (n : nat) : list N :=
  match n with
  | O => []
  | S n' => first :: code_points (N.succ first) n'
  end.

(** A bracketed class is a list of ranges [(first, last)]; a single
    character [c] is the range [(c, c)]. *)
Definition members (class : list (N * N)) : list N :=
  flat_map (fun range => code_points (fst range)
                           (N.to_nat (N.succ (snd range) - fst range))) class.

(** The compiler ([re._compiler._optimize_charset]) lower-cases every
    member of the class and adds the extra cases of the result. *)
Definition charmap (db : Database) (class : list (N * N)) : list N :=
  flat_map (fun i => let lo := tolower db i in lo :: fixes db lo) (members class).

(** For a class with cased members, as the one of the DOI pattern, the
    matcher (opcode [IN_UNI_IGNORE]) lower-cases the character of the
    subject and looks it up. *)
Definition in_ignorecase (db : Database) (class : list (N * N)) (c : N) : bool :=
  existsb (N.eqb (tolower db c)) (charmap db class).

(** ** Patterns *)

Inductive regex : Type :=
| Void : regex
| Eps : regex
| Cls (p : N -> bool) : regex
| Cat (r1 r2 : regex) : regex
| Alt (r1 r2 : regex) : regex
| Star (r : regex) : regex.

Fixpoint nullable (r : regex) : bool :=
  match r with
  | Void => false
  | Eps => true
  | Cls _ => false
  | Cat r1 r2 => nullable r1 && nullable r2
  | Alt r1 r2 => nullable r1 || nullable r2
  | Star _ => true
  end.

Fixpoint deriv (c : N) (r : regex) : regex :=
  match r with
  | Void => Void
  | Eps => Void
  | Cls p => if p c then Eps else Void
  | Cat r1 r2 =>
      if nullable r1 then Alt (Cat (deriv c r1) r2) (deriv c r2)
      else Cat (deriv c r1) r2
  | Alt r1 r2 => Alt (deriv c r1) (deriv c r2)
  | Star r1 => Cat (deriv c r1) (Star r1)
  end.

(** [bool(re.match(r, s))]: some prefix of [s] is a word of [r]. *)
Fixpoint re_match (r : regex) (s : str) : bool :=
  nullable r ||
  match s with
  | [] => false
  | c :: s' => re_match (deriv c r) s'
  end.

Inductive Matches : regex -> str -> Prop :=
| Matches_eps : Matches Eps []
| Matches_cls (p : N -> bool) (c : N) : p c = true -> Matches (Cls p) [c]
| Matches_cat (r1 r2 : regex) (s1 s2 : str) :
    Matches r1 s1 -> Matches r2 s2 -> Matches (Cat r1 r2) (s1 ++ s2)
| Matches_alt_l (r1 r2 : regex) (s : str) : Matches r1 s -> Matches (Alt r1 r2) s
| Matches_alt_r (r1 r2 : regex) (s : str) : Matches r2 s -> Matches (Alt r1 r2) s
| Matches_star_nil (r : regex) : Matches (Star r) []
| Matches_star_app (r : regex) (s1 s2 : str) :
    Matches r s1 -> Matches (Star r) s2 -> Matches (Star r) (s1 ++ s2).

(** A literal character that has no other case; [re.IGNORECASE] leaves
    it alone, as it leaves [\d]. *)
Definition lit (a : ascii) : regex := Cls (N.eqb (cp a)).
Definition plus (r : regex) : regex := Cat r (Star r).

(** [r{n}] followed by [k]. *)
Fixpoint times (n : nat) (r k : regex) : regex :=
  match n with
  | O => k
  | S n' => Cat r (times n' r k)
  end.

(** [r{0,n}] followed by [k]. *)
Fixpoint upto (n : nat) (r k : regex) : regex :=
  match n with
  | O => k
  | S n' => Alt (Cat r (upto n' r k)) k
  end.

(** [r{m,n}] followed by [k]. *)
Definition between (m n : nat) (r k : regex) : regex :=
  times m r (upto (n - m) r k).

(** ** The validators *)

Definition single (a : ascii) : N * N := (cp a, cp a).

(** [[-._;()/:A-Z0-9]] *)
Definition doi_suffix_class : list (N * N) :=
  [single "-"; single "."; single "_"; single ";"; single "("; single ")";
   single "/"; single ":"; (cp "A", cp "Z"); (cp "0", cp "9")].

(** What is left of a string once hyphens and spaces are deleted. *)
Definition without_hyphens_and_spaces (s : str) : str :=
  filter (fun c => negb (N.eqb c (cp "-") || N.eqb c (cp " "))) s.

(** The characters a DOI may hold after the slash: the punctuation of
    the class, the ASCII letters of both cases, the ASCII digits, and
    the four characters outside ASCII that ignoring case makes equal to
    a letter: U+0130 (capital I with dot above), U+0131 (dotless i),
    U+017F (long s) and U+212A (the Kelvin sign). *)
Definition doi_suffix_char (c : N) : bool :=
  (existsb (N.eqb c) (of_string "-._;()/:") ||
   ((65 <=? c) && (c <=? 90)) || ((97 <=? c) && (c <=? 122)) ||
   ((48 <=? c) && (c <=? 57)) ||
   existsb (N.eqb c) [304; 305; 383; 8490])%N.

Section Validators.

(** The database of the interpreter that runs the toolkit. *)
Variable db : Database.

(** [\d] *)
Definition digit : regex := Cls (is_decimal db).

(** [10\.\d{4,9}/[-._;()/:A-Z0-9]+] with [re.IGNORECASE] *)
Definition doi_pattern : regex :=
  Cat (lit "1") (Cat (lit "0") (Cat (lit ".")
    (between 4 9 digit
       (Cat (lit "/") (plus (Cls (in_ignorecase db doi_suffix_class))))))).

Definition validate_doi (doi : str) : bool :=
  re_match doi_pattern doi.

Definition digit_or_X (c : N) : bool := is_decimal db c || N.eqb (cp "X") c.

(** [\d{9}[\dX]] *)
Definition isbn10_pattern : regex := times 9 digit (Cls digit_or_X).

(** [\d{13}] *)
Definition isbn13_pattern : regex := times 13 digit Eps.

Definition validate_isbn (isbn : str) : bool :=
  let isbn := delete (cp " ") (delete (cp "-") isbn) in
  if List.length isbn =? 10 then re_match isbn10_pattern isbn
  else if List.length isbn =? 13 then re_match isbn13_pattern isbn
  else false.

(** [\d{4}-\d{3}[\dX]] *)
Definition issn_pattern : regex :=
  times 4 digit (Cat (lit "-") (times 3 digit (Cls digit_or_X))).

Definition validate_issn (issn : str) : bool :=
  re_match issn_pattern issn.

(** ** The shapes the specification describes *)

(** Nine decimal digits, then a decimal digit or the letter X. *)
Definition isbn10_shape (r : str) : Prop :=
  exists body last,
    r = body ++ [last] /\
    List.length body = 9 /\
    forallb (is_decimal db) body = true /\
    (is_decimal db last = true \/ last = cp "X").

(** Thirteen decimal digits. *)
Definition isbn13_shape (r : str) : Prop :=
  List.length r = 13 /\ forallb (is_decimal db) r = true.

(** Four decimal digits, a hyphen, three decimal digits, a decimal digit
    or the letter X, and anything after that. *)
Definition issn_shape (s : str) : Prop :=
  exists a b c rest,
    s = a ++ cp "-" :: b ++ c :: rest /\
    List.length a = 4 /\ forallb (is_decimal db) a = true /\
    List.length b = 3 /\ forallb (is_decimal db) b = true /\
    (is_decimal db c = true \/ c = cp "X").

(** [10.], four to nine decimal digits, a slash, one character a DOI
    may hold, and anything after that. *)
Definition doi_shape (s : str) : Prop :=
  exists digits c rest,
    s = of_string "10." ++ digits ++ cp "/" :: c :: rest /\
    4 <= List.length digits <= 9 /\
    forallb (is_decimal db) digits = true /\
    doi_suffix_char c = true.

End Validators.

End Uni.

(** A pattern over 8-bit characters and a pattern over code points that
    read every Latin-1 character alike. *)
Inductive same_pattern : Re.regex -> Uni.regex -> Prop :=
| same_void : same_pattern Re.Void Uni.Void
| same_eps : same_pattern Re.Eps Uni.Eps
| same_cls (p : ascii -> bool) (q : N -> bool) :
    (forall c, p c = q (Uni.cp c)) -> same_pattern (Re.Cls p) (Uni.Cls q)
| same_cat (r1 r2 : Re.regex) (u1 u2 : Uni.regex) :
    same_pattern r1 u1 -> same_pattern r2 u2 ->
    same_pattern (Re.Cat r1 r2) (Uni.Cat u1 u2)
| same_alt (r1 r2 : Re.regex) (u1 u2 : Uni.regex) :
    same_pattern r1 u1 -> same_pattern r2 u2 ->
    same_pattern (Re.Alt r1 r2) (Uni.Alt u1 u2)
| same_star (r : Re.regex) (u : Uni.regex) :
    same_pattern r u -> same_pattern (Re.Star r) (Uni.Star u).

(* ===================================================================== *)
(** * Python values *)
(* ===================================================================== *)

(** A [dict] with string keys keeps insertion order: an association list
    whose keys are pairwise different. *)
Fixpoint assoc_get {V : Type} (k : string) (d : list (string * V)) : option V :=
  match d with
  | [] => None
  | (k', v) :: d' => if String.eqb k k' then Some v else assoc_get k d'
  end.

(** [d[k] = v]: overwrite in place, or add at the end. *)
Fixpoint assoc_set {V : Type} (k : string) (v : V) (d : list (string * V)) : list (string * V) :=
  match d with
  | [] => [(k, v)]
  | (k', v') :: d' =>
      if String.eqb k k' then (k', v) :: d' else (k', v') :: assoc_set k v d'
  end.

(** JSON data as the client hands it over (numbers are integers here). *)
Inductive Value : Type :=
| VNone : Value
| VBool (b : bool) : Value
| VInt (z : Z) : Value
| VStr (s : string) : Value
| VList (l : list Value) : Value
| VDict (d : list (string * Value)) : Value.

Definition Dict : Type := list (string * Value).

Definition dict_get (k : string) (d : Dict) : option Value := assoc_get k d.
Definition dict_set (k : string) (v : Value) (d : Dict) : Dict := assoc_set k v d.

(** [d.get(k, default)] *)
Definition dict_get_default (k : string) (default : Value) (d : Dict) : Value :=
  match dict_get k d with
  | Some v => v
  | None => default
  end.

(** [bool(v)] *)
Definition truthy (v : Value) : bool :=
  match v with
  | VNone => false
  | VBool b => b
  | VInt z => negb (z =? 0)%Z
  | VStr s => negb (String.eqb s EmptyString)
  | VList l => match l with [] => false | _ => true end
  | VDict d => match d with [] => false | _ => true end
  end.

(** [hash(v)] is defined: lists and dicts cannot be dictionary keys. *)
Definition hashable (v : Value) : bool :=
  match v with
  | VList _ | VDict _ => false
  | _ => true
  end.

Definition int_of_bool (b : bool) : Z := if b then 1%Z else 0%Z.

(** [a == b]: [True] and [False] compare as 1 and 0, lists position by
    position, dicts key by key whatever the order. *)
Fixpoint value_eqb (a b : Value) : bool :=
  match a, b with
  | VNone, VNone => true
  | VBool x, VBool y => Bool.eqb x y
  | VBool x, VInt y => (int_of_bool x =? y)%Z
  | VInt x, VBool y => (x =? int_of_bool y)%Z
  | VInt x, VInt y => (x =? y)%Z
  | VStr x, VStr y => String.eqb x y
  | VList x, VList y =>
      (fix go (x y : list Value) : bool :=
         match x, y with
         | [], [] => true
         | a' :: x', b' :: y' => value_eqb a' b' && go x' y'
         | _, _ => false
         end) x y
  | VDict x, VDict y =>
      (List.length x =? List.length y) &&
      (fix go (x : list (string * Value)) : bool :=
         match x with
         | [] => true
         | (k, v) :: x' =>
             match assoc_get k y with
             | Some v' => value_eqb v v'
             | None => false
             end && go x'
         end) x
  | _, _ => false
  end.

(** [v in l] *)
Definition value_in (v : Value) (l : list Value) : bool := existsb (value_eqb v) l.

(** An item as [zot.items] and [zot.item] return it: a dict with ["key"],
    ["data"] and, once [_get_library_with_children] has run, ["_children"]. *)
Inductive Item : Type :=
  mkItem { item_key : string; item_data : Dict; item_children : option (list Item) }.

(** [item["data"][k] = v] *)
Definition set_data (k : string) (v : Value) (item : Item) : Item :=
  mkItem (item_key item) (dict_set k v (item_data item)) (item_children item).

(** [item["_children"] = l] *)
Definition set_children (l : list Item) (item : Item) : Item :=
  mkItem (item_key item) (item_data item) (Some l).

(** [item.get("_children", [])] *)
Definition get_children (item : Item) : list Item :=
  match item_children item with
  | Some l => l
  | None => []
  end.

(* ===================================================================== *)
(** * Exceptions, the client and the monad *)
(* ===================================================================== *)

Inductive ExnClass : Type :=
| HTTPError | KeyError | TypeError | AttributeError | ImportError | OSError | OtherException.

(** An instance of [Exception]; [exn_str] is [str(e)]. *)
Record Exn : Type := mkExn { exn_class : ExnClass; exn_str : string }.

(** What a call into a library gives back. *)
Inductive Response (A : Type) : Type :=
| Returns (a : A) : Response A
| Raises (e : Exn) : Response A.
Arguments Returns {A} a.
Arguments Raises {A} e.

(** What running a function of the toolkit gives back; [OutOfFuel] is
    the loop of [_all_items] still running when the fuel is spent. *)
Inductive Outcome (A : Type) : Type :=
| Ok (a : A) : Outcome A
| Raised (e : Exn) : Outcome A
| OutOfFuel : Outcome A.
Arguments Ok {A} a.
Arguments Raised {A} e.
Arguments OutOfFuel {A}.

Definition outcome_of {A : Type} (r : Response A) : Outcome A :=
  match r with
  | Returns a => Ok a
  | Raises e => Raised e
  end.

(** The requests that reach the reference manager. *)
Inductive Request : Type :=
| ReqItems (start limit : nat) (itemType : option string)
| ReqItem (key : string)
| ReqUpdateItem (item : Item)
| ReqDeleteItem (key : string)
| ReqCollectionItems (key : string)
| ReqDeleteCollection (key : string)
| ReqCreateItems (payload : list Dict)
| ReqPostFile (url : string) (headers : list (string * Value)) (content : string)
| ReqZupload (attachment_key : Value) (path : string).

(** The [pyzotero] client and [httpx], over a backend state [B]: each
    method is one round trip that answers or raises and may change the
    backend. *)
Record Zotero (B : Type) : Type := mkZotero {
  zot_items : nat -> nat -> option string -> B -> Response (list Item) * B;
  zot_item : string -> B -> Response Item * B;
  zot_update_item : Item -> B -> Response Value * B;
  zot_delete_item : string -> B -> Response Value * B;
  zot_collection_items : string -> B -> Response (list Item) * B;
  zot_delete_collection : string -> B -> Response Value * B;
  zot_create_items : list Dict -> B -> Response Value * B;
  httpx_post : string -> list (string * Value) -> string -> B -> Response nat * B;
  zupload_upload_file : Value -> string -> B -> Response unit * B
}.
Arguments zot_items {B}.
Arguments zot_item {B}.
Arguments zot_update_item {B}.
Arguments zot_delete_item {B}.
Arguments zot_collection_items {B}.
Arguments zot_delete_collection {B}.
Arguments zot_create_items {B}.
Arguments httpx_post {B}.
Arguments zupload_upload_file {B}.

(** The local file system and the interpreter, as far as the uploads
    look at them. *)
Record Env : Type := mkEnv {
  path_exists : string -> bool;
  path_suffix : string -> string;
  path_name : string -> string;
  read_file : string -> Response string;
  getmtime_ms : string -> Response Z;
  md5_hexdigest : string -> string;
  guess_type : string -> option string;
  import_zupload : Response unit;
  repr_list : list string -> string
}.

(** The state a call runs in: the backend, the requests sent so far and
    the attribute [_library_cache] of the client object ([None] while
    [hasattr] is false). *)
Record World (B : Type) : Type := mkWorld {
  backend : B;
  log : list Request;
  library_cache : option (list Item)
}.
Arguments mkWorld {B}.
Arguments backend {B}.
Arguments log {B}.
Arguments library_cache {B}.

Definition M (B A : Type) : Type := World B -> Outcome A * World B.

Definition ret {B A : Type} (a : A) : M B A := fun w => (Ok a, w).

Definition raise {B A : Type} (e : Exn) : M B A := fun w => (Raised e, w).

Definition out_of_fuel {B A : Type} : M B A := fun w => (OutOfFuel, w).

Definition bind {B A C : Type} (m : M B A) (k : A -> M B C) : M B C :=
  fun w =>
    match m w with
    | (Ok a, w') => k a w'
    | (Raised e, w') => (Raised e, w')
    | (OutOfFuel, w') => (OutOfFuel, w')
    end.

Notation "x <- m ;; k" := (bind m (fun x => k))
  (at level 61, m at next level, right associativity).
Notation "m ;;; k" := (bind m (fun _ => k))
  (at level 61, right associativity).

(** [try: m  except Exception as e: handler e] *)
Definition try_except {B A : Type} (m : M B A) (handler : Exn -> M B A) : M B A :=
  fun w =>
    match m w with
    | (Raised e, w') => handler e w'
    | r => r
    end.

(** A value computed locally that may raise. *)
Definition lift {B A : Type} (r : Response A) : M B A :=
  match r with
  | Returns a => ret a
  | Raises e => raise e
  end.

(** One round trip: the request is logged, the backend answers. *)
Definition call {B A : Type} (req : Request) (f : B -> Response A * B) : M B A :=
  fun w =>
    let (r, b') := f (backend w) in
    let w' := mkWorld b' (log w ++ [req]) (library_cache w) in
    match r with
    | Returns a => (Ok a, w')
    | Raises e => (Raised e, w')
    end.

(** [for x in xs: acc = body x acc] *)
Fixpoint for_each {B A S : Type} (body : A -> S -> M B S) (xs : list A) (acc : S) : M B S :=
  match xs with
  | [] => ret acc
  | x :: xs' => acc' <- body x acc ;; for_each body xs' acc'
  end.

(** [for x in xs: acc = f x acc] for a step that may raise. *)
Fixpoint fold_response {A S : Type} (f : A -> S -> Response S) (xs : list A) (acc : S)
  : Response S :=
  match xs with
  | [] => Returns acc
  | x :: xs' =>
      match f x acc with
      | Raises e => Raises e
      | Returns acc' => fold_response f xs' acc'
      end
  end.

(** A computation that leaves the attribute [_library_cache] alone. *)
Definition keeps_cache {B A : Type} (m : M B A) : Prop :=
  forall w, library_cache (snd (m w)) = library_cache w.

(** A computation that catches what is raised inside it. *)
Definition never_raises {B A : Type} (m : M B A) : Prop :=
  forall w e, fst (m w) <> Raised e.

(** A computation that keeps an invariant of the backend. *)
Definition keeps_backend {B A : Type} (Inv : B -> Prop) (m : M B A) : Prop :=
  forall w, Inv (backend w) -> Inv (backend (snd (m w))).

(** A page that ends the loop of [_all_items], or no page at all. *)
Definition short_or_raises (r : Response (list Item)) : Prop :=
  match r with
  | Returns page => List.length page < 100
  | Raises _ => True
  end.

(** A computation that never stops for lack of fuel. *)
Definition fuel_free {B A : Type} (m : M B A) : Prop :=
  forall w, fst (m w) <> OutOfFuel.

(* ===================================================================== *)
(** * Python operations on values *)
(* ===================================================================== *)

Definition type_error (msg : string) : Exn := mkExn TypeError msg.

(** [for t in v]: what iterating over [v] yields. *)
Definition iterate (v : Value) : Response (list Value) :=
  match v with
  | VList l => Returns l
  | VDict d => Returns (map (fun kv => VStr (fst kv)) d)
  | VStr s => Returns (map (fun c => VStr (String c EmptyString)) (list_ascii_of_string s))
  | _ => Raises (type_error "object is not iterable")
  end.

(** [t[k]] for a string [k]. *)
Definition subscript (k : string) (t : Value) : Response Value :=
  match t with
  | VDict d =>
      match dict_get k d with
      | Some v => Returns v
      | None => Raises (mkExn KeyError ("'" ++ k ++ "'")%string)
      end
  | _ => Raises (type_error "indices must be integers")
  end.

(** [t.get(k, default)] *)
Definition method_get (k : string) (default : Value) (t : Value) : Response Value :=
  match t with
  | VDict d => Returns (dict_get_default k default d)
  | _ => Raises (mkExn AttributeError "object has no attribute 'get'")
  end.

(** [k in v] for a string [k]. *)
Fixpoint is_substring (k s : string) : bool :=
  String.prefix k s ||
  match s with
  | EmptyString => false
  | String _ s' => is_substring k s'
  end.

Definition contains_str (k : string) (v : Value) : Response bool :=
  match v with
  | VDict d => Returns (match dict_get k d with Some _ => true | None => false end)
  | VList l => Returns (value_in (VStr k) l)
  | VStr s => Returns (is_substring k s)
  | _ => Raises (type_error "argument is not iterable")
  end.

(** [[f(x) for x in l]], stopping at the first exception. *)
Fixpoint map_response {A C : Type} (f : A -> Response C) (l : list A) : Response (list C) :=
  match l with
  | [] => Returns []
  | x :: l' =>
      match f x with
      | Raises e => Raises e
      | Returns y =>
          match map_response f l' with
          | Raises e => Raises e
          | Returns ys => Returns (y :: ys)
          end
      end
  end.

(** [[x for x in l if f(x)]], stopping at the first exception. *)
Fixpoint filter_response {A : Type} (f : A -> Response bool) (l : list A) : Response (list A) :=
  match l with
  | [] => Returns []
  | x :: l' =>
      match f x with
      | Raises e => Raises e
      | Returns b =>
          match filter_response f l' with
          | Raises e => Raises e
          | Returns ys => Returns (if b then x :: ys else ys)
          end
      end
  end.

(** [v in strs] for a list of strings. *)
Definition value_in_strs (v : Value) (strs : list string) : bool :=
  existsb (fun s => value_eqb v (VStr s)) strs.

(** [[{"tag": t} for t in names]] *)
Definition tag_dicts (names : list Value) : Value :=
  VList (map (fun t => VDict [("tag", t)]) names).

(** A [dict] keyed by values, in insertion order; a key that compares
    equal to a present one denotes the same entry. *)
Fixpoint vdict_get {V : Type} (k : Value) (d : list (Value * V)) : option V :=
  match d with
  | [] => None
  | (k', v) :: d' => if value_eqb k k' then Some v else vdict_get k d'
  end.

(** [d[k].append(x)] on a [defaultdict(list)] *)
Fixpoint vdict_append {V : Type} (k : Value) (x : V) (d : list (Value * list V))
  : list (Value * list V) :=
  match d with
  | [] => [(k, [x])]
  | (k', g) :: d' =>
      if value_eqb k k' then (k', g ++ [x]) :: d' else (k', g) :: vdict_append k x d'
  end.

(** [d[k] = v] *)
Fixpoint vdict_set {V : Type} (k : Value) (v : V) (d : list (Value * V)) : list (Value * V) :=
  match d with
  | [] => [(k, v)]
  | (k', v') :: d' =>
      if value_eqb k k' then (k', v) :: d' else (k', v') :: vdict_set k v d'
  end.

(** Keys no two of which compare equal: the key set of a dict. *)
Fixpoint keys_distinct (K : list Value) : Prop :=
  match K with
  | [] => True
  | k :: K' => (forall k', In k' K' -> value_eqb k k' = false) /\ keys_distinct K'
  end.

(** The keys of a dict after [d[k]] has been touched. *)
Definition add_key (k : Value) (K : list Value) : list Value :=
  if existsb (value_eqb k) K then K else K ++ [k].

(** The [TypeError] for a key that cannot be hashed.  Python's message
    goes on to name the type of the key (a list or a dict); only the
    class of the exception is used below. *)
Definition unhashable : Exn := type_error "unhashable type".

(** [Counter(l)] as a dict: every value with the number of its
    occurrences, in the order of first occurrence. *)
Fixpoint counter_add (v : Value) (d : list (Value * nat)) : list (Value * nat) :=
  match d with
  | [] => [(v, 1)]
  | (k, n) :: d' => if value_eqb v k then (k, S n) :: d' else (k, n) :: counter_add v d'
  end.

Fixpoint counter_from (l : list Value) (d : list (Value * nat)) : Response (list (Value * nat)) :=
  match l with
  | [] => Returns d
  | v :: l' => if hashable v then counter_from l' (counter_add v d) else Raises unhashable
  end.

Definition counter (l : list Value) : Response (list (Value * nat)) := counter_from l [].

(** The result dicts of the toolkit. *)
Definition error_dict (msg : string) : Value :=
  VDict [("success", VBool false); ("error", VStr msg)].

(** A result dict with its ["success"] entry in front. *)
Definition success_dict (v : Value) : Prop :=
  exists ok rest, v = VDict (("success", VBool ok) :: rest).

Record BatchResult : Type := mkBatchResult { success : list string; failed : list string }.

(* ===================================================================== *)
(** * The toolkit *)
(* ===================================================================== *)

Section Toolkit.

Context {B : Type}.
Variable zot : Zotero B.
Variable env : Env.

(** ** Common tools *)

Definition limit : nat := 100.

(** [for item in _all_items(zot, itemType=...): acc = body item acc],
    from offset [start] on.  The generator hands out the items of a page
    before it asks for the next page, so the body of the consumer runs
    between two requests. *)
Fixpoint _all_items_from {S : Type} (fuel : nat) (itemType : option string)
    (body : Item -> S -> M B S) (start : nat) (acc : S) : M B S :=
  match fuel with
  | O => out_of_fuel
  | Datatypes.S fuel' =>
      items <- call (ReqItems start limit itemType) (zot_items zot start limit itemType) ;;
      match items with
      | [] => ret acc
      | _ :: _ =>
          acc' <- for_each body items acc ;;
          if List.length items <? limit then ret acc'
          else _all_items_from fuel' itemType body (start + limit) acc'
      end
  end.

Definition _all_items {S : Type} (fuel : nat) (itemType : option string)
    (body : Item -> S -> M B S) (acc : S) : M B S :=
  _all_items_from fuel itemType body 0 acc.

(** [list(_all_items(zot, itemType=...))] *)
Definition list_all_items (fuel : nat) (itemType : option string) : M B (list Item) :=
  _all_items fuel itemType (fun item acc => ret (acc ++ [item])) [].

(** [items_by_key[parent_key]['_children'].append(child)]: the entry of
    [items_by_key] is the last item of the list with that key. *)
Fixpoint append_child_first (parent_key : string) (child : Item) (items : list Item) : list Item :=
  match items with
  | [] => []
  | item :: items' =>
      if String.eqb (item_key item) parent_key
      then set_children (get_children item ++ [child]) item :: items'
      else item :: append_child_first parent_key child items'
  end.

Definition append_child (parent_key : string) (child : Item) (items : list Item) : list Item :=
  rev (append_child_first parent_key child (rev items)).

Definition group_child (items : list Item) (child : Item) : Response (list Item) :=
  match dict_get "parentItem" (item_data child) with
  | None => Returns items
  | Some parent_key =>
      if truthy parent_key then
        match parent_key with
        | VStr k => Returns (append_child k child items)
        | VList _ | VDict _ => Raises unhashable
        | _ => Returns items
        end
      else Returns items
  end.

Fixpoint group_children (items : list Item) (children : list Item) : Response (list Item) :=
  match children with
  | [] => Returns items
  | child :: children' =>
      match group_child items child with
      | Raises e => Raises e
      | Returns items' => group_children items' children'
      end
  end.

Definition set_library_cache (items : list Item) : M B unit :=
  fun w => (Ok tt, mkWorld (backend w) (log w) (Some items)).

Definition _get_library_with_children (fuel : nat) : M B (list Item) :=
  fun w =>
    match library_cache w with
    | Some cached => (Ok cached, w)
    | None =>
        (items <- list_all_items fuel None ;;
         attachments <- list_all_items fuel (Some "attachment") ;;
         notes <- list_all_items fuel (Some "note") ;;
         let items := map (set_children []) items in
         items <- lift (group_children items (attachments ++ notes)) ;;
         set_library_cache items ;;;
         ret items) w
    end.

Definition get_item (item_key : string) : M B Item :=
  call (ReqItem item_key) (zot_item zot item_key).

(** [for tag in item["data"].get("tags", []): ... tag.get("tag", empty string)] *)
Definition item_tag_names (item : Item) : Response (list Value) :=
  match iterate (dict_get_default "tags" (VList []) (item_data item)) with
  | Raises e => Raises e
  | Returns tag_objs => map_response (method_get "tag" (VStr EmptyString)) tag_objs
  end.

(** [[t["tag"] for t in item["data"].get("tags", [])]] *)
Definition existing_tags_of (item : Item) : Response (list Value) :=
  match iterate (dict_get_default "tags" (VList []) (item_data item)) with
  | Raises e => Raises e
  | Returns tag_objs => map_response (subscript "tag") tag_objs
  end.

(** ** Tags of a library, as strings *)

Definition strings_of (vs : list Value) : list string :=
  flat_map (fun v => match v with VStr s => [s] | _ => [] end) vs.

(** The tag names of an item, when they can be read. *)
Definition item_tag_strings (item : Item) : list string :=
  match item_tag_names item with
  | Returns names => strings_of names
  | Raises _ => []
  end.

(** The tags of the item are objects and their names are strings. *)
Definition tags_well_formed (item : Item) : Prop :=
  item_tag_names item = Returns (map VStr (item_tag_strings item)).

(** Strings in the order of their first occurrence. *)
Fixpoint dedupe_from (ts acc : list string) : list string :=
  match ts with
  | [] => acc
  | s :: ts' => dedupe_from ts' (if existsb (String.eqb s) acc then acc else acc ++ [s])
  end.

Definition nonempty (s : string) : bool := negb (String.eqb s EmptyString).

(** The tags that occur in a library: the non-empty tag names of its
    items, each once. *)
Definition library_tags (items : list Item) : list string :=
  dedupe_from (filter nonempty (flat_map item_tag_strings items)) [].

Definition all_tags (fuel : nat) : M B (list (Value * nat)) :=
  tags <- _all_items fuel None
            (fun item tags =>
               names <- lift (item_tag_names item) ;;
               ret (tags ++ filter truthy names))
            [] ;;
  lift (counter tags).

(** ** Duplicate detection *)

(** [value.lower() if isinstance(value, str) else value] *)
Definition duplicate_key (value : Value) : Value :=
  match value with
  | VStr s => VStr (Str.lower s)
  | _ => value
  end.

(** The key an item is filed under: none when the field is missing or
    falsy. *)
Definition field_key (field : string) (item : Item) : option Value :=
  let value := dict_get_default field (VStr EmptyString) (item_data item) in
  if truthy value then Some (duplicate_key value) else None.

(** The items of one group: those whose key compares equal to [k]. *)
Definition same_key (field : string) (k : Value) (item : Item) : bool :=
  match field_key field item with
  | Some k' => value_eqb k' k
  | None => false
  end.

(** The items of [l] with key [k], as a dict entry. *)
Definition group_entry (field : string) (l : list Item) (k : Value) : Value * list Item :=
  (k, filter (same_key field k) l).

(** Every key the items of [l] are filed under can be hashed. *)
Definition keys_hashable (field : string) (l : list Item) : Prop :=
  forall item k, In item l -> field_key field item = Some k -> hashable k = true.

(** Every key of an item of [l] compares equal to a key of [K]. *)
Definition keys_covered (field : string) (l : list Item) (K : list Value) : Prop :=
  forall item k, In item l -> field_key field item = Some k -> existsb (value_eqb k) K = true.

(** One round of the loop of [find_duplicates_by_field]. *)
Definition duplicate_step (field : string) (item : Item) (by_value : list (Value * list Item))
  : Response (list (Value * list Item)) :=
  match field_key field item with
  | Some k => if hashable k then Returns (vdict_append k item by_value) else Raises unhashable
  | None => Returns by_value
  end.

(** The keys of [by_value] once the loop has seen [items]. *)
Definition duplicate_keys (field : string) (items : list Item) (K : list Value) : list Value :=
  fold_left
    (fun K item =>
       match field_key field item with
       | Some k => add_key k K
       | None => K
       end)
    items K.

Definition find_duplicates_by_field (fuel : nat) (field : string)
  : M B (list (Value * list Item)) :=
  by_value <- _all_items fuel None
                (fun item by_value =>
                   let value := dict_get_default field (VStr EmptyString) (item_data item) in
                   if truthy value then
                     if hashable (duplicate_key value)
                     then ret (vdict_append (duplicate_key value) item by_value)
                     else raise unhashable
                   else ret by_value)
                [] ;;
  ret (filter (fun kv => 1 <? List.length (snd kv)) by_value).

Definition duplicate_dois (fuel : nat) : M B (list (Value * list Item)) :=
  find_duplicates_by_field fuel "DOI".

(** ** Consistency checks *)

(** [SequenceMatcher(None, a, b).ratio()], the exact value of the float. *)
Variable sequence_ratio : string -> string -> Q.

(** [t != tag and SequenceMatcher(None, t, tag).ratio() >= threshold] *)
Definition is_similar (threshold : Q) (tag t : Value) : Response bool :=
  if value_eqb t tag then Returns false
  else
    match t, tag with
    | VStr a, VStr b => Returns (Qle_bool threshold (sequence_ratio a b))
    | _, _ => Raises (type_error "object is not iterable")
    end.

(** The specification's reading of tag similarity: [t] is another tag
    than [tag] and its ratio against [tag] reaches the threshold. *)
Definition similar_str (threshold : Q) (tag t : string) : bool :=
  negb (String.eqb t tag) && Qle_bool threshold (sequence_ratio t tag).

(** The entry of [tag] in the result: its similar tags among [names], if
    there are any. *)
Definition similar_entry (threshold : Q) (names : list string) (tag : string)
  : list (Value * list Value) :=
  match filter (similar_str threshold tag) names with
  | [] => []
  | (_ :: _) as partners => [(VStr tag, map VStr partners)]
  end.

Definition similar_entries (threshold : Q) (names tags : list string)
  : list (Value * list Value) :=
  flat_map (similar_entry threshold names) tags.

(** One round of the loop of [similar_tags]. *)
Definition similar_step (threshold : Q) (tags : list Value) (tag : Value)
    (result : list (Value * list Value)) : Response (list (Value * list Value)) :=
  match filter_response (is_similar threshold tag) tags with
  | Raises e => Raises e
  | Returns [] => Returns result
  | Returns ((_ :: _) as similar) => Returns (vdict_set tag similar result)
  end.

(** The default [threshold=0.8]: the double nearest to 0.8. *)
Definition default_threshold : Q := 3602879701896397 # 4503599627370496.

Definition similar_tags (fuel : nat) (threshold : Q) : M B (list (Value * list Value)) :=
  counts <- all_tags fuel ;;
  let tags := map fst counts in
  for_each
    (fun tag result =>
       similar <- lift (filter_response (is_similar threshold tag) tags) ;;
       match similar with
       | [] => ret result
       | _ :: _ => ret (vdict_set tag similar result)
       end)
    tags [].

(** ** Write operations *)

(** [for key, value in fields.items(): item["data"][key] = value] *)
Definition apply_fields (fields : Dict) (item : Item) : Item :=
  fold_left (fun it kv => set_data (fst kv) (snd kv) it) fields item.

Definition update_item_fields (item_key : string) (fields : Dict) : M B Value :=
  item <- get_item item_key ;;
  let item := apply_fields fields item in
  call (ReqUpdateItem item) (zot_update_item zot item).

(** [for tag in tags: if tag not in existing_tags: existing_tags.append(tag)] *)
Definition add_missing_tags (tags : list string) (existing_tags : list Value) : list Value :=
  fold_left
    (fun existing tag =>
       if value_in (VStr tag) existing then existing else existing ++ [VStr tag])
    tags existing_tags.

Definition add_tags_to_item (item_key : string) (tags : list string) : M B Value :=
  item <- get_item item_key ;;
  existing_tags <- lift (existing_tags_of item) ;;
  let existing_tags := add_missing_tags tags existing_tags in
  let item := set_data "tags" (tag_dicts existing_tags) item in
  call (ReqUpdateItem item) (zot_update_item zot item).

Definition remove_tags_from_item (item_key : string) (tags : list string) : M B Value :=
  item <- get_item item_key ;;
  existing_tags <- lift (existing_tags_of item) ;;
  let new_tags := filter (fun t => negb (value_in_strs t tags)) existing_tags in
  let item := set_data "tags" (tag_dicts new_tags) item in
  call (ReqUpdateItem item) (zot_update_item zot item).

Definition move_item_to_collection (item_key collection_key : string) : M B Value :=
  item <- get_item item_key ;;
  let item := set_data "collections" (VList [VStr collection_key]) item in
  call (ReqUpdateItem item) (zot_update_item zot item).

(** [if collection_key not in collections: collections.append(collection_key)] *)
Definition with_collection (collection_key : string) (collections : Value) : Response Value :=
  match contains_str collection_key collections with
  | Raises e => Raises e
  | Returns true => Returns collections
  | Returns false =>
      match collections with
      | VList l => Returns (VList (l ++ [VStr collection_key]))
      | _ => Raises (mkExn AttributeError "object has no attribute 'append'")
      end
  end.

Definition add_item_to_collection (item_key collection_key : string) : M B Value :=
  item <- get_item item_key ;;
  collections <- lift (with_collection collection_key
                         (dict_get_default "collections" (VList []) (item_data item))) ;;
  let item := set_data "collections" collections item in
  call (ReqUpdateItem item) (zot_update_item zot item).

Definition delete_item (item_key : string) : M B Value :=
  call (ReqDeleteItem item_key) (zot_delete_item zot item_key).

(** ** Collection and tag management *)

(** The inner loop of [merge_collections]: every item of a source
    collection is added to the target, a failure is passed over. *)
Definition merge_collection_items (target_key : string) (items : list Item) (moved_count : nat)
  : M B nat :=
  for_each
    (fun item moved_count =>
       try_except
         (add_item_to_collection (item_key item) target_key ;;;
          ret (moved_count + 1))
         (fun _ => ret moved_count))
    items moved_count.

Definition merge_collections (source_keys : list string) (target_key : string) : M B Value :=
  try_except
    (state <- for_each
                (fun source_key (state : nat * list string) =>
                   let (moved_count, failed_sources) := state in
                   try_except
                     (items <- call (ReqCollectionItems source_key)
                                 (zot_collection_items zot source_key) ;;
                      moved_count <- merge_collection_items target_key items moved_count ;;
                      ret (moved_count, failed_sources))
                     (fun _ => ret (moved_count, failed_sources ++ [source_key])))
                source_keys (0, []) ;;
     for_each
       (fun source_key (_ : unit) =>
          try_except
            (call (ReqDeleteCollection source_key) (zot_delete_collection zot source_key) ;;;
             ret tt)
            (fun _ => ret tt))
       source_keys tt ;;;
     let (moved_count, failed_sources) := state in
     match failed_sources with
     | _ :: _ =>
         ret (VDict [("success", VBool true);
                     ("moved_items", VInt (Z.of_nat moved_count));
                     ("message", VStr ("Merged collections. Some sources failed: "
                                       ++ repr_list env failed_sources)%string);
                     ("failed_sources", VList (map VStr failed_sources))])
     | [] =>
         ret (VDict [("success", VBool true);
                     ("moved_items", VInt (Z.of_nat moved_count));
                     ("message", VStr "Collections merged successfully")])
     end)
    (fun e => ret (error_dict (exn_str e))).

(** The inner loop of [merge_tags] over the tags of one item. *)
Definition merged_tags (source_tags : list string) (target_tag : string)
    (current_tags : list Value) : list Value * bool :=
  fold_left
    (fun (state : list Value * bool) tag =>
       let (new_tags, changed) := state in
       if value_in_strs tag source_tags then
         ((if value_in (VStr target_tag) new_tags then new_tags
           else new_tags ++ [VStr target_tag]), true)
       else if value_in tag new_tags then (new_tags, changed)
       else (new_tags ++ [tag], changed))
    current_tags ([], false).

(** The body of the loop of [merge_tags] for one item. *)
Definition merge_tags_item (source_tags : list string) (target_tag : string)
    (item : Item) (updated_count : nat) : M B nat :=
  current_tags <- lift (item_tag_names item) ;;
  let (new_tags, changed) := merged_tags source_tags target_tag current_tags in
  if changed then
    let item := set_data "tags" (tag_dicts new_tags) item in
    try_except
      (call (ReqUpdateItem item) (zot_update_item zot item) ;;;
       ret (updated_count + 1))
      (fun _ => ret updated_count)
  else ret updated_count.

Definition merge_tags (fuel : nat) (source_tags : list string) (target_tag : string) : M B Value :=
  try_except
    (updated_count <- _all_items fuel None (merge_tags_item source_tags target_tag) 0 ;;
     ret (VDict [("success", VBool true);
                 ("updated_items", VInt (Z.of_nat updated_count));
                 ("message", VStr "Tags merged successfully")]))
    (fun e => ret (error_dict (exn_str e))).

(** ** Batch operations *)

(** The loop the five batch operations share: the operation runs under
    [try], the key goes to ["success"] or, on an exception, to
    ["failed"]. *)
Definition batch (op : string -> M B Value) (item_keys : list string) : M B BatchResult :=
  for_each
    (fun item_key result =>
       try_except
         (op item_key ;;;
          ret (mkBatchResult (success result ++ [item_key]) (failed result)))
         (fun _ => ret (mkBatchResult (success result) (failed result ++ [item_key]))))
    item_keys (mkBatchResult [] []).

Definition batch_update_items (item_keys : list string) (fields : Dict) : M B BatchResult :=
  batch (fun item_key => update_item_fields item_key fields) item_keys.

Definition batch_add_tags (item_keys : list string) (tags : list string) : M B BatchResult :=
  batch (fun item_key => add_tags_to_item item_key tags) item_keys.

Definition batch_remove_tags (item_keys : list string) (tags : list string) : M B BatchResult :=
  batch (fun item_key => remove_tags_from_item item_key tags) item_keys.

Definition batch_move_to_collection (item_keys : list string) (collection_key : string)
  : M B BatchResult :=
  batch (fun item_key => move_item_to_collection item_key collection_key) item_keys.

Definition batch_delete_items (item_keys : list string) : M B BatchResult :=
  batch (fun item_key => delete_item item_key) item_keys.

(** ** File operations *)

(** [status_code in (200, 201, 204)] *)
Definition upload_accepted (status_code : nat) : bool :=
  (status_code =? 200) || (status_code =? 201) || (status_code =? 204).

(** [f"{v}"] *)
Variable format_value : Value -> string.

Definition file_url (attachment_key : string) : string :=
  ("http://localhost:23119/api/users/0/items/" ++ attachment_key ++ "/file")%string.

(** The metadata of the attachment that [upload_pdf] creates. *)
Definition pdf_attachment (parent_item_key title filename md5_hash : string) (mtime : Z) : Dict :=
  [("itemType", VStr "attachment");
   ("linkMode", VStr "imported_file");
   ("parentItem", VStr parent_item_key);
   ("title", VStr title);
   ("contentType", VStr "application/pdf");
   ("filename", VStr filename);
   ("md5", VStr md5_hash);
   ("mtime", VInt mtime)].

Definition pdf_headers : list (string * Value) :=
  [("Zotero-API-Key", VStr "fake");
   ("Content-Type", VStr "application/pdf");
   ("If-None-Match", VStr "*")].

(** [create_result["success"]["0"]["key"]] *)
Definition created_key (create_result : Value) : Response Value :=
  match subscript "success" create_result with
  | Raises e => Raises e
  | Returns s =>
      match subscript "0" s with
      | Raises e => Raises e
      | Returns z => subscript "key" z
      end
  end.

(** [title = pdf_file.name] when no title is given. *)
Definition title_or_name (title : option string) (pdf_path : string) : string :=
  match title with
  | None => path_name env pdf_path
  | Some t => t
  end.

(** The two [except] clauses that close [upload_pdf]. *)
Definition upload_pdf_handler (e : Exn) : M B Value :=
  match exn_class e with
  | HTTPError => ret (error_dict ("HTTP error during upload: " ++ exn_str e)%string)
  | _ => ret (error_dict (exn_str e))
  end.

Definition upload_pdf (parent_item_key pdf_path : string) (title : option string) : M B Value :=
  if negb (path_exists env pdf_path) then
    ret (error_dict ("PDF not found: " ++ pdf_path)%string)
  else if negb (String.eqb (Str.lower (path_suffix env pdf_path)) ".pdf") then
    ret (error_dict ("File is not a PDF: " ++ pdf_path)%string)
  else
    let title := title_or_name title pdf_path in
    try_except
      (file_content <- lift (read_file env pdf_path) ;;
       let md5_hash := md5_hexdigest env file_content in
       mtime <- lift (getmtime_ms env pdf_path) ;;
       let attachment :=
         pdf_attachment parent_item_key title (path_name env pdf_path) md5_hash mtime in
       create_result <- call (ReqCreateItems [attachment]) (zot_create_items zot [attachment]) ;;
       has_success <- (if truthy create_result
                       then lift (contains_str "success" create_result)
                       else ret false) ;;
       if negb has_success then
         ret (error_dict "Failed to create attachment metadata")
       else
         attachment_key <- lift (created_key create_result) ;;
         let url := file_url (format_value attachment_key) in
         let headers := pdf_headers in
         status_code <- call (ReqPostFile url headers file_content)
                          (httpx_post zot url headers file_content) ;;
         if upload_accepted status_code then
           ret (VDict [("success", VBool true); ("key", attachment_key)])
         else
           try_except
             (lift (import_zupload env) ;;;
              call (ReqZupload attachment_key pdf_path)
                (zupload_upload_file zot attachment_key pdf_path) ;;;
              ret (VDict [("success", VBool true); ("key", attachment_key)]))
             (fun upload_err =>
                match exn_class upload_err with
                | ImportError =>
                    ret (VDict [("success", VBool true);
                                ("key", attachment_key);
                                ("warning", VStr "Attachment metadata created but file upload requires zupload package")])
                | _ =>
                    ret (VDict [("success", VBool true);
                                ("key", attachment_key);
                                ("warning", VStr ("Attachment metadata created but file upload failed: "
                                                  ++ exn_str upload_err)%string)])
                end))
      upload_pdf_handler.

Definition replace_attachment_handler (e : Exn) : M B Value :=
  match exn_class e with
  | HTTPError => ret (error_dict ("HTTP error: " ++ exn_str e)%string)
  | _ => ret (error_dict (exn_str e))
  end.

Definition is_attachment (item : Item) : bool :=
  match dict_get "itemType" (item_data item) with
  | Some v => value_eqb v (VStr "attachment")
  | None => false
  end.

(** The attachment with the metadata of the new file written into it. *)
Definition with_content_type (new_file_path : string) (attachment : Item) : Item :=
  match guess_type env new_file_path with
  | Some content_type => set_data "contentType" (VStr content_type) attachment
  | None => attachment
  end.

Definition with_new_file (new_file_path md5_hash : string) (mtime : Z) (attachment : Item)
  : Item :=
  with_content_type new_file_path
    (set_data "filename" (VStr (path_name env new_file_path))
       (set_data "mtime" (VInt mtime)
          (set_data "md5" (VStr md5_hash) attachment))).

Definition replace_headers (content_type : Value) : list (string * Value) :=
  [("Zotero-API-Key", VStr "fake"); ("Content-Type", content_type)].

(** An item is a dict with a key and data, so the test [if not attachment]
    never fires and has no branch here. *)
Definition replace_attachment (attachment_key new_file_path : string) : M B Value :=
  try_except
    (attachment <- call (ReqItem attachment_key) (zot_item zot attachment_key) ;;
     if negb (is_attachment attachment) then
       ret (error_dict ("Item is not an attachment: " ++ attachment_key)%string)
     else if negb (path_exists env new_file_path) then
       ret (error_dict ("File not found: " ++ new_file_path)%string)
     else
       file_content <- lift (read_file env new_file_path) ;;
       let md5_hash := md5_hexdigest env file_content in
       mtime <- lift (getmtime_ms env new_file_path) ;;
       let attachment := with_new_file new_file_path md5_hash mtime attachment in
       call (ReqUpdateItem attachment) (zot_update_item zot attachment) ;;;
       let upload_url := file_url attachment_key in
       content_type <- lift (subscript "contentType" (VDict (item_data attachment))) ;;
       let headers := replace_headers content_type in
       status_code <- call (ReqPostFile upload_url headers file_content)
                        (httpx_post zot upload_url headers file_content) ;;
       if upload_accepted status_code then
         ret (VDict [("success", VBool true); ("message", VStr "Attachment replaced successfully")])
       else
         try_except
           (lift (import_zupload env) ;;;
            call (ReqZupload (VStr attachment_key) new_file_path)
              (zupload_upload_file zot (VStr attachment_key) new_file_path) ;;;
            ret (VDict [("success", VBool true);
                        ("message", VStr "Attachment replaced successfully (via zupload)")]))
           (fun _ =>
              ret (VDict [("success", VBool true);
                          ("message", VStr "Metadata updated but file upload may require manual sync")])))
    replace_attachment_handler.

(** ** The write side, as one family *)

Inductive WriteOp : Type :=
| OpUpdateItemFields (item_key : string) (fields : Dict)
| OpAddTagsToItem (item_key : string) (tags : list string)
| OpRemoveTagsFromItem (item_key : string) (tags : list string)
| OpMoveItemToCollection (item_key collection_key : string)
| OpAddItemToCollection (item_key collection_key : string)
| OpDeleteItem (item_key : string)
| OpMergeCollections (source_keys : list string) (target_key : string)
| OpMergeTags (fuel : nat) (source_tags : list string) (target_tag : string)
| OpBatchUpdateItems (item_keys : list string) (fields : Dict)
| OpBatchAddTags (item_keys : list string) (tags : list string)
| OpBatchRemoveTags (item_keys : list string) (tags : list string)
| OpBatchMoveToCollection (item_keys : list string) (collection_key : string)
| OpBatchDeleteItems (item_keys : list string)
| OpUploadPdf (parent_item_key pdf_path : string) (title : option string)
| OpReplaceAttachment (attachment_key new_file_path : string).

(** Run [m] and forget what it returns. *)
Definition discard {A : Type} (m : M B A) : M B unit := m ;;; ret tt.

Definition run_write_op (op : WriteOp) : M B unit :=
  match op with
  | OpUpdateItemFields k fields => discard (update_item_fields k fields)
  | OpAddTagsToItem k tags => discard (add_tags_to_item k tags)
  | OpRemoveTagsFromItem k tags => discard (remove_tags_from_item k tags)
  | OpMoveItemToCollection k c => discard (move_item_to_collection k c)
  | OpAddItemToCollection k c => discard (add_item_to_collection k c)
  | OpDeleteItem k => discard (delete_item k)
  | OpMergeCollections sources target => discard (merge_collections sources target)
  | OpMergeTags fuel sources target => discard (merge_tags fuel sources target)
  | OpBatchUpdateItems keys fields => discard (batch_update_items keys fields)
  | OpBatchAddTags keys tags => discard (batch_add_tags keys tags)
  | OpBatchRemoveTags keys tags => discard (batch_remove_tags keys tags)
  | OpBatchMoveToCollection keys c => discard (batch_move_to_collection keys c)
  | OpBatchDeleteItems keys => discard (batch_delete_items keys)
  | OpUploadPdf parent path title => discard (upload_pdf parent path title)
  | OpReplaceAttachment k path => discard (replace_attachment k path)
  end.

(** The library stays below [n] full pages whatever is read or updated:
    [Inv] holds of the backend, reading pages and updating items keep
    it, and under it the page at offset [100 n] is short. *)
Definition bounded_library (Inv : B -> Prop) (n : nat) : Prop :=
  (forall start itemType b, Inv b -> Inv (snd (zot_items zot start limit itemType b))) /\
  (forall item b, Inv b -> Inv (snd (zot_update_item zot item b))) /\
  (forall b, Inv b -> short_or_raises (fst (zot_items zot (n * limit) limit None b))).

(** ** The pages a backend serves *)

(** The backend after [n] consecutive page requests at the offsets
    0, 100, 200, ..., and its answer to the next one. *)
Fixpoint backend_after (itemType : option string) (n : nat) (b : B) : B :=
  match n with
  | O => b
  | Datatypes.S n' =>
      snd (zot_items zot (n' * limit) limit itemType (backend_after itemType n' b))
  end.

Definition page_response (itemType : option string) (n : nat) (b : B) : Response (list Item) :=
  fst (zot_items zot (n * limit) limit itemType (backend_after itemType n b)).

Definition page_request (itemType : option string) (n : nat) : Request :=
  ReqItems (n * limit) limit itemType.

End Toolkit.

(** The two lists [a] and [b] split [l]: every position of [l] goes to
    exactly one of them, and both keep the order of [l]. *)
Inductive Partitions {A : Type} : list A -> list A -> list A -> Prop :=
| Partitions_nil : Partitions [] [] []
| Partitions_left (x : A) (l a b : list A) :
    Partitions l a b -> Partitions (x :: l) (x :: a) b
| Partitions_right (x : A) (l a b : list A) :
    Partitions l a b -> Partitions (x :: l) a (x :: b).

(* ===================================================================== *)
(** * A reference backend *)
(* ===================================================================== *)

(** An in-memory library that answers as the local API does on a quiet
    day; the examples run on it. *)
Module Sample.

Record Store : Type := mkStore {
  library : list Item;
  upload_status : nat
}.

Definition has_type (itemType : option string) (item : Item) : bool :=
  match itemType with
  | None => true
  | Some ty =>
      match dict_get "itemType" (item_data item) with
      | Some v => value_eqb v (VStr ty)
      | None => false
      end
  end.

Definition has_key (key : string) (item : Item) : bool := String.eqb (item_key item) key.

Definition in_collection (key : string) (item : Item) : bool :=
  match dict_get "collections" (item_data item) with
  | Some (VList l) => value_in (VStr key) l
  | _ => false
  end.

Definition not_found : Exn := mkExn OtherException "Not found".

Definition client : Zotero Store := {|
  zot_items := fun start limit itemType b =>
    (Returns (firstn limit (skipn start (filter (has_type itemType) (library b)))), b);
  zot_item := fun key b =>
    match find (has_key key) (library b) with
    | Some item => (Returns item, b)
    | None => (Raises not_found, b)
    end;
  zot_update_item := fun item b =>
    if existsb (has_key (item_key item)) (library b)
    then (Returns (VBool true),
          mkStore (map (fun old => if has_key (item_key item) old then item else old) (library b))
                  (upload_status b))
    else (Raises not_found, b);
  zot_delete_item := fun key b =>
    if existsb (has_key key) (library b)
    then (Returns (VBool true),
          mkStore (filter (fun old => negb (has_key key old)) (library b)) (upload_status b))
    else (Raises not_found, b);
  zot_collection_items := fun key b =>
    (Returns (filter (in_collection key) (library b)), b);
  zot_delete_collection := fun key b => (Returns (VBool true), b);
  zot_create_items := fun payload b =>
    (Returns (VDict [("success", VDict [("0", VDict [("key", VStr "NEWKEY01")])])]), b);
  httpx_post := fun url headers content b => (Returns (upload_status b), b);
  zupload_upload_file := fun key path b => (Returns tt, b)
|}.

(** One PDF on disk; [pyzotero] has no [zupload] module to import. *)
Definition files : Env := {|
  path_exists := fun p => String.eqb p "/tmp/paper.pdf";
  path_suffix := fun p => ".pdf";
  path_name := fun p => "paper.pdf";
  read_file := fun p => Returns "%PDF-1.4";
  getmtime_ms := fun p => Returns 1700000000000%Z;
  md5_hexdigest := fun content => "d41d8cd98f00b204e9800998ecf8427e";
  guess_type := fun p => Some "application/pdf";
  import_zupload := Raises (mkExn ImportError "cannot import name 'zupload' from 'pyzotero'");
  repr_list := fun l => String.concat ", " l
|}.

(** The same disk, with a [zupload] module to import. *)
Definition files_with_zupload : Env := {|
  path_exists := path_exists files;
  path_suffix := path_suffix files;
  path_name := path_name files;
  read_file := read_file files;
  getmtime_ms := getmtime_ms files;
  md5_hexdigest := md5_hexdigest files;
  guess_type := guess_type files;
  import_zupload := Returns tt;
  repr_list := repr_list files
|}.

Definition format_value (v : Value) : string :=
  match v with
  | VStr s => s
  | _ => "?"
  end.

Definition article (key doi : string) (tags : list Value) : Item :=
  mkItem key [("itemType", VStr "journalArticle"); ("DOI", VStr doi); ("tags", VList tags)] None.

Definition stored_pdf (key parent : string) : Item :=
  mkItem key [("itemType", VStr "attachment"); ("parentItem", VStr parent);
              ("contentType", VStr "application/pdf")] None.

Definition tag (name : string) : Value := VDict [("tag", VStr name)].

Definition automatic_tag (name : string) : Value := VDict [("tag", VStr name); ("type", VInt 1)].

Definition start (items : list Item) (status : nat) : World Store :=
  mkWorld (mkStore items status) [] None.

End Sample.

(* ===================================================================== *)
(** * More of the toolkit *)
(* ===================================================================== *)

(** The requests of a pass over the library that rewrites items: a
    page of the plain paginated read, or the update of an item. *)
Definition page_or_update (r : Request) : Prop :=
  match r with
  | ReqItems _ _ None | ReqUpdateItem _ => True
  | _ => False
  end.

(** The requests about one item: its read and its update. *)
Definition item_request (r : Request) : Prop :=
  match r with
  | ReqItem _ | ReqUpdateItem _ => True
  | _ => False
  end.

(** A computation all of whose requests are of kind [P]. *)
Definition sends {B A : Type} (P : Request -> Prop) (m : M B A) : Prop :=
  forall w, exists sent, log (snd (m w)) = log w ++ sent /\ Forall P sent.

(** The requests of the first loop of [merge_collections]: for every
    source key in turn, the read of the collection and then the requests
    about its items. *)
Definition collection_passes (source_keys : list string) (per_source : list (list Request))
  : list Request :=
  List.concat (map (fun pass => ReqCollectionItems (fst pass) :: snd pass)
              (combine source_keys per_source)).

(** [sum(counts.values())] *)
Definition total_count (counts : list (Value * nat)) : nat :=
  fold_right (fun kv n => snd kv + n) 0 counts.

(** [counts.get(v, 0)] *)
Definition counter_get (v : Value) (counts : list (Value * nat)) : nat :=
  match vdict_get v counts with
  | Some n => n
  | None => 0
  end.

(** The number of times [s] occurs in [l]. *)
Fixpoint occurrences (s : string) (l : list string) : nat :=
  match l with
  | [] => 0
  | t :: l' => (if String.eqb t s then 1 else 0) + occurrences s l'
  end.

(** [v or ""] *)
Definition or_empty (v : Value) : Value := if truthy v then v else VStr EmptyString.

(** [v.lower()] *)
Definition lower_of (v : Value) : Response string :=
  match v with
  | VStr s => Returns (Str.lower s)
  | _ => Raises (mkExn AttributeError "object has no attribute 'lower'")
  end.

(** [v.replace("-", "").replace(" ", "")] *)
Definition cleaned_isbn (v : Value) : Response string :=
  match v with
  | VStr s => Returns (Str.delete " " (Str.delete "-" s))
  | _ => Raises (mkExn AttributeError "object has no attribute 'replace'")
  end.

(** The first [x] of [l] with [f x], stopping at the first exception. *)
Fixpoint find_response {A : Type} (f : A -> Response bool) (l : list A) : Response (option A) :=
  match l with
  | [] => Returns None
  | x :: l' =>
      match f x with
      | Raises e => Raises e
      | Returns true => Returns (Some x)
      | Returns false => find_response f l'
      end
  end.

(** [c['data']['itemType']] *)
Definition child_item_type (c : Item) : Response Value :=
  subscript "itemType" (VDict (item_data c)).

(** [c['data'].get('contentType') == 'application/pdf'] *)
Definition is_pdf (c : Item) : bool :=
  match dict_get "contentType" (item_data c) with
  | Some v => value_eqb v (VStr "application/pdf")
  | None => false
  end.

(** [any(c['data']['itemType'] == 'attachment' for c in children)]: the
    generator is consumed up to the first attachment. *)
Fixpoint any_attachment (children : list Item) : Response bool :=
  match children with
  | [] => Returns false
  | c :: children' =>
      match child_item_type c with
      | Raises e => Raises e
      | Returns t =>
          if value_eqb t (VStr "attachment") then Returns true
          else any_attachment children'
      end
  end.

(** [any(c['data'].get('contentType') == 'application/pdf'
         for c in children if c['data']['itemType'] == 'attachment')] *)
Fixpoint any_pdf (children : list Item) : Response bool :=
  match children with
  | [] => Returns false
  | c :: children' =>
      match child_item_type c with
      | Raises e => Raises e
      | Returns t =>
          if value_eqb t (VStr "attachment") && is_pdf c then Returns true
          else any_pdf children'
      end
  end.

(** [not r] *)
Definition negate (r : Response bool) : Response bool :=
  match r with
  | Returns b => Returns (negb b)
  | Raises e => Raises e
  end.

Definition is_note (item : Item) : bool :=
  match dict_get "itemType" (item_data item) with
  | Some v => value_eqb v (VStr "note")
  | None => false
  end.

(** [[c for c in collections if c != collection_key]] *)
Definition without_collection (collection_key : string) (collections : Value) : Response Value :=
  match iterate collections with
  | Raises e => Raises e
  | Returns l => Returns (VList (filter (fun c => negb (value_eqb c (VStr collection_key))) l))
  end.

(** The loop of [delete_tag] and of [rename_tag] over the tags of one
    item: the new tag names, when the item carries the tag. *)
Definition tags_without (tag_name : string) (current_tags : list Value) : option (list Value) :=
  if value_in (VStr tag_name) current_tags
  then Some (filter (fun t => negb (value_eqb t (VStr tag_name))) current_tags)
  else None.

Definition tags_renamed (old_name new_name : string) (current_tags : list Value)
  : option (list Value) :=
  if value_in (VStr old_name) current_tags
  then Some (map (fun t => if value_eqb t (VStr old_name) then VStr new_name else t) current_tags)
  else None.

(** What [merge_tags], [rename_tag] and [delete_tag] plan for an item:
    the item to submit, if it changes. *)
Definition planned_update (plan : list Value -> option (list Value)) (item : Item)
  : Response (option Item) :=
  match item_tag_names item with
  | Raises e => Raises e
  | Returns current_tags =>
      match plan current_tags with
      | Some new_tags => Returns (Some (set_data "tags" (tag_dicts new_tags) item))
      | None => Returns None
      end
  end.

Definition planned_updates (plan : list Value -> option (list Value)) (items : list Item)
  : list Item :=
  flat_map (fun item => match planned_update plan item with
                        | Returns (Some item') => [item']
                        | _ => []
                        end) items.

Definition merge_plan (source_tags : list string) (target_tag : string)
    (current_tags : list Value) : option (list Value) :=
  let (new_tags, changed) := merged_tags source_tags target_tag current_tags in
  if changed then Some new_tags else None.

Definition tags_readable (item : Item) : Prop :=
  exists names, item_tag_names item = Returns names.

(** A child that belongs under [parent]: one of the fetched children
    [pool] whose ["parentItem"] is the key of [parent]. *)
Definition child_of (pool : list Item) (parent child : Item) : Prop :=
  In child pool /\ dict_get "parentItem" (item_data child) = Some (VStr (item_key parent)).

(** [new] is [old] with more children of its own appended. *)
Definition grown (pool : list Item) (old new : Item) : Prop :=
  item_key new = item_key old /\
  item_data new = item_data old /\
  exists added,
    get_children new = get_children old ++ added /\ Forall (child_of pool old) added.

(** [snapshot] is the fetched [item] with children of its own, and no
    others, under ["_children"]. *)
Definition snapshot_of (pool : list Item) (item snapshot : Item) : Prop :=
  item_key snapshot = item_key item /\
  item_data snapshot = item_data item /\
  Forall (child_of pool item) (get_children snapshot).

Section MoreToolkit.

Context {B : Type}.
Variable zot : Zotero B.

(** ** Reading *)

Definition items_per_type (fuel : nat) : M B (list (Value * nat)) :=
  _all_items zot fuel None
    (fun item type_counts =>
       let item_type := dict_get_default "itemType" (VStr "unknown") (item_data item) in
       if hashable item_type then ret (counter_add item_type type_counts)
       else raise unhashable)
    [].

Definition title_matches (query : string) (item : Item) : Response bool :=
  match lower_of (or_empty (dict_get_default "title" (VStr EmptyString) (item_data item))) with
  | Raises e => Raises e
  | Returns title => Returns (is_substring (Str.lower query) title)
  end.

Definition search_by_title (fuel : nat) (query : string) : M B (list Item) :=
  _all_items zot fuel None
    (fun item results =>
       found <- lift (title_matches query item) ;;
       ret (if found then results ++ [item] else results))
    [].

(** [for item in _all_items(zot): if test(item): return item], then
    [return None]: no page is asked for once an item has been
    returned. *)
Fixpoint _all_items_first (fuel : nat) (test : Item -> Response bool) (start : nat)
  : M B (option Item) :=
  match fuel with
  | O => out_of_fuel
  | S fuel' =>
      items <- call (ReqItems start limit None) (zot_items zot start limit None) ;;
      match items with
      | [] => ret None
      | _ :: _ =>
          found <- lift (find_response test items) ;;
          match found with
          | Some item => ret (Some item)
          | None =>
              if List.length items <? limit then ret None
              else _all_items_first fuel' test (start + limit)
          end
      end
  end.

Definition isbn_matches (isbn : string) (item : Item) : Response bool :=
  let isbn_clean := Str.delete " " (Str.delete "-" isbn) in
  match cleaned_isbn (or_empty (dict_get_default "ISBN" (VStr EmptyString) (item_data item))) with
  | Raises e => Raises e
  | Returns item_isbn_clean => Returns (String.eqb item_isbn_clean isbn_clean)
  end.

Definition get_item_by_isbn (fuel : nat) (isbn : string) : M B (option Item) :=
  _all_items_first fuel (isbn_matches isbn) 0.

Definition items_without_pdf (fuel : nat) : M B (list Item) :=
  items <- _get_library_with_children zot fuel ;;
  lift (filter_response (fun item => negate (any_pdf (get_children item))) items).

Definition items_without_attachments (fuel : nat) : M B (list Item) :=
  items <- _get_library_with_children zot fuel ;;
  lift (filter_response (fun item => negate (any_attachment (get_children item))) items).

(** ** Writing *)

Definition remove_item_from_collection (item_key collection_key : string) : M B Value :=
  item <- get_item zot item_key ;;
  collections <- lift (without_collection collection_key
                         (dict_get_default "collections" (VList []) (item_data item))) ;;
  let item := set_data "collections" collections item in
  call (ReqUpdateItem item) (zot_update_item zot item).

(** An item that [zot.item] returns is a dict with a key, so the test
    [if not attachment] (and [if not note] below) does not fire. *)
Definition delete_attachment (attachment_key : string) : M B Value :=
  try_except
    (attachment <- call (ReqItem attachment_key) (zot_item zot attachment_key) ;;
     if negb (is_attachment attachment) then
       ret (error_dict ("Item is not an attachment: " ++ attachment_key)%string)
     else
       call (ReqDeleteItem attachment_key) (zot_delete_item zot attachment_key) ;;;
       ret (VDict [("success", VBool true); ("message", VStr "Attachment moved to trash")]))
    (fun e => ret (error_dict (exn_str e))).

Definition delete_note (note_key : string) : M B Value :=
  try_except
    (note <- call (ReqItem note_key) (zot_item zot note_key) ;;
     if negb (is_note note) then
       ret (error_dict ("Item is not a note: " ++ note_key)%string)
     else
       call (ReqDeleteItem note_key) (zot_delete_item zot note_key) ;;;
       ret (VDict [("success", VBool true); ("message", VStr "Note moved to trash")]))
    (fun e => ret (error_dict (exn_str e))).

Definition update_note (note_key new_content : string) : M B Value :=
  try_except
    (note <- call (ReqItem note_key) (zot_item zot note_key) ;;
     if negb (is_note note) then
       ret (error_dict ("Item is not a note: " ++ note_key)%string)
     else
       let note := set_data "note" (VStr new_content) note in
       call (ReqUpdateItem note) (zot_update_item zot note) ;;;
       ret (VDict [("success", VBool true); ("message", VStr "Note updated successfully")]))
    (fun e => ret (error_dict (exn_str e))).

(** The body of the loops of [rename_tag] and [delete_tag] for one
    item. *)
Definition retag_item (plan : list Value -> option (list Value))
    (item : Item) (updated_count : nat) : M B nat :=
  current_tags <- lift (item_tag_names item) ;;
  match plan current_tags with
  | Some new_tags =>
      let item := set_data "tags" (tag_dicts new_tags) item in
      try_except
        (call (ReqUpdateItem item) (zot_update_item zot item) ;;;
         ret (updated_count + 1))
        (fun _ => ret updated_count)
  | None => ret updated_count
  end.

Definition rename_tag (fuel : nat) (old_name new_name : string) : M B Value :=
  try_except
    (updated_count <- _all_items zot fuel None (retag_item (tags_renamed old_name new_name)) 0 ;;
     ret (VDict [("success", VBool true);
                 ("updated_items", VInt (Z.of_nat updated_count));
                 ("message", VStr "Tag renamed successfully")]))
    (fun e => ret (error_dict (exn_str e))).

Definition delete_tag (fuel : nat) (tag_name : string) : M B Value :=
  try_except
    (updated_count <- _all_items zot fuel None (retag_item (tags_without tag_name)) 0 ;;
     ret (VDict [("success", VBool true);
                 ("updated_items", VInt (Z.of_nat updated_count));
                 ("message", VStr "Tag deleted successfully")]))
    (fun e => ret (error_dict (exn_str e))).

End MoreToolkit.

(** ** Looking an item up by its DOI *)

(** [c.isspace()] on Latin-1: the controls U+0009..U+000D and
    U+001C..U+001F, the space, U+0085 and U+00A0. *)
Definition is_space (c : ascii) : bool :=
  let n := Str.code c in
  ((9 <=? n) && (n <=? 13)) || ((28 <=? n) && (n <=? 32)) || (n =? 133) || (n =? 160).

(** [s.lstrip()] *)
Fixpoint lstrip (s : string) : string :=
  match s with
  | EmptyString => EmptyString
  | String c s' => if is_space c then lstrip s' else s
  end.

(** [s.rstrip()] *)
Fixpoint rstrip (s : string) : string :=
  match s with
  | EmptyString => EmptyString
  | String c s' =>
      match rstrip s' with
      | EmptyString => if is_space c then EmptyString else String c EmptyString
      | r => String c r
      end
  end.

(** [s.strip()] *)
Definition strip (s : string) : string := rstrip (lstrip s).

(** [(item["data"].get("DOI", "") or "").lower() == doi_clean] *)
Definition doi_matches (doi : string) (item : Item) : Response bool :=
  let doi_clean := Str.lower (strip doi) in
  match lower_of (or_empty (dict_get_default "DOI" (VStr EmptyString) (item_data item))) with
  | Raises e => Raises e
  | Returns item_doi => Returns (String.eqb item_doi doi_clean)
  end.

Section Lookup.

Context {B : Type}.
Variable zot : Zotero B.

Definition get_item_by_doi (fuel : nat) (doi : string) : M B (option Item) :=
  _all_items_first zot fuel (doi_matches doi) 0.

End Lookup.

(** ** Malformed URLs *)

(** [^https?://] *)
Definition url_pattern : Re.regex :=
  Re.Cat (Re.lit "h") (Re.Cat (Re.lit "t") (Re.Cat (Re.lit "t") (Re.Cat (Re.lit "p")
    (Re.Cat (Re.opt (Re.lit "s"))
       (Re.Cat (Re.lit ":") (Re.Cat (Re.lit "/") (Re.lit "/"))))))).

(** [url and not url_pattern.match(url)] *)
Definition broken_url (item : Item) : Response bool :=
  let url := dict_get_default "url" (VStr EmptyString) (item_data item) in
  if truthy url then
    match url with
    | VStr s => Returns (negb (Re.re_match url_pattern s))
    | _ => Raises (type_error "expected string or bytes-like object")
    end
  else Returns false.

Section Urls.

Context {B : Type}.
Variable zot : Zotero B.

(** [list(items_with_broken_urls(zot))] *)
Definition items_with_broken_urls (fuel : nat) : M B (list Item) :=
  _all_items zot fuel None
    (fun item results =>
       broken <- lift (broken_url item) ;;
       ret (if broken then results ++ [item] else results))
    [].

End Urls.

(** ** The tag cloud *)

(** [sorted(l, key=lambda x: x[1], reverse=True)]: entries by descending
    count; the sort is stable, so an entry goes behind the entries with
    the same count that came before it. *)
Fixpoint insert_by_count (x : Value * nat) (l : list (Value * nat)) : list (Value * nat) :=
  match l with
  | [] => [x]
  | y :: l' => if snd y <? snd x then x :: l else y :: insert_by_count x l'
  end.

Definition sorted_by_count (l : list (Value * nat)) : list (Value * nat) :=
  fold_left (fun sorted x => insert_by_count x sorted) l [].

(** Counts that never go up. *)
Fixpoint descending (l : list nat) : Prop :=
  match l with
  | [] => True
  | n :: l' => Forall (fun m => m <= n) l' /\ descending l'
  end.

(** [dict(pairs)] *)
Definition dict_of_pairs {V : Type} (pairs : list (Value * V)) : list (Value * V) :=
  fold_left (fun d kv => vdict_set (fst kv) (snd kv) d) pairs [].

Section Cloud.

Context {B : Type}.
Variable zot : Zotero B.

Definition tag_cloud (fuel : nat) : M B (list (Value * nat)) :=
  tags <- all_tags zot fuel ;;
  ret (dict_of_pairs (sorted_by_count tags)).

End Cloud.

(** ** Citation relations *)

(** The body of [add_citation_relation] on [relations]:
    [if relation_key not in relations: relations[relation_key] = []], a
    string entry is wrapped in a list, and the target is appended unless
    it is [in] the entry.  Only a dict gets past the first two
    statements. *)
Definition with_relation (relation_key target_uri : string) (relations : Value)
  : Response Value :=
  match contains_str relation_key relations with
  | Raises e => Raises e
  | Returns present =>
      match relations with
      | VDict d =>
          let d := if present then d else dict_set relation_key (VList []) d in
          let d := match dict_get relation_key d with
                   | Some (VStr s) => dict_set relation_key (VList [VStr s]) d
                   | _ => d
                   end in
          match subscript relation_key (VDict d) with
          | Raises e => Raises e
          | Returns current =>
              match with_collection target_uri current with
              | Raises e => Raises e
              | Returns updated => Returns (VDict (dict_set relation_key updated d))
              end
          end
      | VStr _ =>
          if present then Raises (type_error "indices must be integers")
          else Raises (type_error "object does not support item assignment")
      | _ => Raises (type_error "indices must be integers")
      end
  end.

Section Relations.

Context {B : Type}.
Variable zot : Zotero B.

Definition add_citation_relation (item_key relation_type target_uri : string) : M B Value :=
  item <- get_item zot item_key ;;
  let relations := dict_get_default "relations" (VDict []) (item_data item) in
  let relation_key := ("dc:relation:" ++ relation_type)%string in
  relations <- lift (with_relation relation_key target_uri relations) ;;
  let item := set_data "relations" relations item in
  call (ReqUpdateItem item) (zot_update_item zot item).

End Relations.

(** ** Converting an item to another type *)

Definition common_fields : list string :=
  ["title"; "creators"; "date"; "DOI"; "ISBN"; "ISSN"; "url"; "abstractNote"; "tags";
   "collections"; "relations"; "extra"; "language"; "rights"; "accessDate";
   "libraryCatalog"; "callNumber"; "archive"; "archiveLocation"; "notes"; "attachments"].

(** The entries of [field_mappings[(old_type, new_type)]], none when the
    pair is not a key; the tuple is hashed for the lookup. *)
Definition field_mappings (old_type : Value) (new_type : string)
  : Response (list (string * string)) :=
  if hashable old_type then
    Returns
      (if value_eqb old_type (VStr "journalArticle") && String.eqb new_type "bookSection" then
         [("publicationTitle", "bookTitle"); ("journalAbbreviation", "bookAbbreviation")]
       else if value_eqb old_type (VStr "book") && String.eqb new_type "bookSection" then
         [("publicationTitle", "bookTitle"); ("place", "place"); ("publisher", "publisher");
          ("edition", "edition"); ("series", "series"); ("seriesNumber", "seriesNumber")]
       else if value_eqb old_type (VStr "conferencePaper")
               && String.eqb new_type "journalArticle" then
         [("proceedingsTitle", "publicationTitle"); ("conferenceName", "extra")]
       else [])
  else Raises unhashable.

(** [for field in common_fields: if field in old_data: new_data[field] = old_data[field]] *)
Definition copy_common (old_data new_data : Dict) : Dict :=
  fold_left
    (fun new_data field =>
       match dict_get field old_data with
       | Some v => dict_set field v new_data
       | None => new_data
       end)
    common_fields new_data.

Definition newline : string := String (ascii_of_nat 10) EmptyString.

(** [item["data"] = d] *)
Definition set_item_data (d : Dict) (item : Item) : Item :=
  mkItem (item_key item) d (item_children item).

Section Convert.

Context {B : Type}.
Variable zot : Zotero B.

(** [f"{v}"] *)
Variable format_value : Value -> string.

(** One round of the loop over the entries of the mapping. *)
Definition apply_mapping (old_data new_data : Dict) (entry : string * string) : Dict :=
  let (old_field, new_field) := entry in
  match dict_get old_field old_data with
  | Some v =>
      if String.eqb new_field "extra" then
        let existing_extra := dict_get_default "extra" (VStr EmptyString) new_data in
        if truthy existing_extra then
          dict_set "extra"
            (VStr (format_value existing_extra ++ newline ++ old_field ++ ": "
                   ++ format_value v)%string)
            new_data
        else dict_set "extra" (VStr (old_field ++ ": " ++ format_value v)%string) new_data
      else dict_set new_field v new_data
  | None => new_data
  end.

Definition converted_data (old_data : Dict) (new_type : string) : Response Dict :=
  let new_data := copy_common old_data [("itemType", VStr new_type)] in
  let old_type := dict_get_default "itemType" (VStr EmptyString) old_data in
  match field_mappings old_type new_type with
  | Raises e => Raises e
  | Returns mapping => Returns (fold_left (apply_mapping old_data) mapping new_data)
  end.

(** An item that [zot.item] returns is a dict with a key, so the test
    [if not item] does not fire. *)
Definition convert_item_type (item_key new_type : string) : M B Value :=
  try_except
    (item <- call (ReqItem item_key) (zot_item zot item_key) ;;
     new_data <- lift (converted_data (item_data item) new_type) ;;
     let item := set_item_data new_data item in
     call (ReqUpdateItem item) (zot_update_item zot item) ;;;
     ret (VDict [("success", VBool true); ("key", VStr item_key)]))
    (fun e => ret (error_dict (exn_str e))).

End Convert.

(** ** The rest of the write side *)

Section Edits.

Context {B : Type}.
Variable zot : Zotero B.
Variable format_value : Value -> string.

(** The writers of this part, one constructor each. *)
Inductive EditOp : Type :=
| OpRemoveItemFromCollection (item_key collection_key : string)
| OpAddCitationRelation (item_key relation_type target_uri : string)
| OpDeleteAttachment (attachment_key : string)
| OpUpdateNote (note_key new_content : string)
| OpDeleteNote (note_key : string)
| OpRenameTag (fuel : nat) (old_name new_name : string)
| OpDeleteTag (fuel : nat) (tag_name : string)
| OpConvertItemType (item_key new_type : string).

Definition run_edit_op (op : EditOp) : M B unit :=
  match op with
  | OpRemoveItemFromCollection k c => remove_item_from_collection zot k c ;;; ret tt
  | OpAddCitationRelation k relation target => add_citation_relation zot k relation target ;;; ret tt
  | OpDeleteAttachment k => delete_attachment zot k ;;; ret tt
  | OpUpdateNote k content => update_note zot k content ;;; ret tt
  | OpDeleteNote k => delete_note zot k ;;; ret tt
  | OpRenameTag fuel old_name new_name => rename_tag zot fuel old_name new_name ;;; ret tt
  | OpDeleteTag fuel tag_name => delete_tag zot fuel tag_name ;;; ret tt
  | OpConvertItemType k new_type => convert_item_type zot format_value k new_type ;;; ret tt
  end.

End Edits.

(* ===================================================================== *)
(** * The agent interface ([agents.py]) *)
(* ===================================================================== *)

(** [d.pop(k, None)], for what it does to [d] (keys are pairwise
    different, so at most one entry goes). *)
Fixpoint assoc_pop {V : Type} (k : string) (d : list (string * V)) : list (string * V) :=
  match d with
  | [] => []
  | (k', v) :: d' => if String.eqb k k' then assoc_pop k d' else (k', v) :: assoc_pop k d'
  end.

Module ZoteroAgent.

(** The state of a [ZoteroAgent]: the dict [self._item_cache], and the
    client [self.zot] with the server behind it. *)
Record Agent (B : Type) : Type := mkAgent {
  _item_cache : list (string * Item);
  client : World B
}.
Arguments mkAgent {B}.
Arguments _item_cache {B}.
Arguments client {B}.

Definition Method (B A : Type) : Type := Agent B -> Outcome A * Agent B.

Section Methods.

Context {B : Type}.
Variable zot : Zotero B.

(** A call of a toolkit function on [self.zot]. *)
Definition on_client {A : Type} (m : M B A) : Method B A :=
  fun self =>
    let (r, w) := m (client self) in (r, mkAgent (_item_cache self) w).

(** [self._item_cache.pop(item_key, None)] *)
Definition invalidate (item_key : string) (self : Agent B) : Agent B :=
  mkAgent (assoc_pop item_key (_item_cache self)) (client self).

(** The method [get_item]; the [get_item] it calls is the function of
    the toolkit. *)
Definition get_item (item_key : string) : Method B Item :=
  fun self =>
    match assoc_get item_key (_item_cache self) with
    | Some item => (Ok item, self)
    | None =>
        match get_item zot item_key (client self) with
        | (Ok item, w) => (Ok item, mkAgent (assoc_set item_key item (_item_cache self)) w)
        | (r, w) => (r, mkAgent (_item_cache self) w)
        end
    end.

Definition add_tags (item_key : string) (tags : list string) : Method B Value :=
  fun self => on_client (add_tags_to_item zot item_key tags) (invalidate item_key self).

Definition remove_tags (item_key : string) (tags : list string) : Method B Value :=
  fun self => on_client (remove_tags_from_item zot item_key tags) (invalidate item_key self).

Definition move_to_collection (item_key collection_key : string) : Method B Value :=
  fun self =>
    on_client (move_item_to_collection zot item_key collection_key) (invalidate item_key self).

Definition add_to_collection (item_key collection_key : string) : Method B Value :=
  fun self =>
    on_client (add_item_to_collection zot item_key collection_key) (invalidate item_key self).

Definition remove_from_collection (item_key collection_key : string) : Method B Value :=
  fun self =>
    on_client (remove_item_from_collection zot item_key collection_key)
      (invalidate item_key self).

Definition update_fields (item_key : string) (fields : Dict) : Method B Value :=
  fun self => on_client (update_item_fields zot item_key fields) (invalidate item_key self).

(** The method [delete_item]; the [delete_item] it calls is the function
    of the toolkit. *)
Definition delete_item (item_key : string) : Method B Value :=
  fun self => on_client (delete_item zot item_key) (invalidate item_key self).

(** The write methods, one constructor each. *)
Inductive Write : Type :=
| AddTags (item_key : string) (tags : list string)
| RemoveTags (item_key : string) (tags : list string)
| MoveToCollection (item_key collection_key : string)
| AddToCollection (item_key collection_key : string)
| RemoveFromCollection (item_key collection_key : string)
| UpdateFields (item_key : string) (fields : Dict)
| DeleteItem (item_key : string).

Definition written_key (op : Write) : string :=
  match op with
  | AddTags k _ | RemoveTags k _ | MoveToCollection k _ | AddToCollection k _
  | RemoveFromCollection k _ | UpdateFields k _ | DeleteItem k => k
  end.

Definition run (op : Write) : Method B Value :=
  match op with
  | AddTags k tags => add_tags k tags
  | RemoveTags k tags => remove_tags k tags
  | MoveToCollection k c => move_to_collection k c
  | AddToCollection k c => add_to_collection k c
  | RemoveFromCollection k c => remove_from_collection k c
  | UpdateFields k fields => update_fields k fields
  | DeleteItem k => delete_item k
  end.

End Methods.

End ZoteroAgent.

(* ===================================================================== *)
(** * Properties *)
(* ===================================================================== *)

(** ** Facts about [re_match] *)

Open Scope string_scope.
Open Scope nat_scope.

Module ReFacts.
Import Re.

Lemma match_void (s : string) : re_match Void s = false.
Proof. induction s as [|c s IH]; simpl; auto. Qed.

Lemma match_alt (s : string) : forall r1 r2,
  re_match (Alt r1 r2) s = re_match r1 s || re_match r2 s.
Proof.
  induction s as [|c s IH]; intros r1 r2; simpl.
  - now rewrite !orb_false_r.
  - rewrite IH.
    destruct (nullable r1), (nullable r2); simpl; auto.
    + now rewrite orb_true_r.
Qed.

Lemma match_cat_void (s : string) (r : regex) : re_match (Cat Void r) s = false.
Proof. induction s as [|c s IH]; simpl; auto. Qed.

Lemma match_cat_eps (s : string) (r : regex) :
  re_match (Cat Eps r) s = re_match r s.
Proof.
  destruct s as [|c s]; simpl.
  - now rewrite !orb_false_r.
  - now rewrite match_alt, match_cat_void.
Qed.

(** A class in front of a pattern consumes exactly one character. *)
Lemma match_cls_cons (p : ascii -> bool) (r : regex) (c : ascii) (s : string) :
  re_match (Cat (Cls p) r) (String c s) = p c && re_match r s.
Proof.
  simpl. destruct (p c); simpl.
  - apply match_cat_eps.
  - apply match_cat_void.
Qed.

Lemma match_cls_nil (p : ascii -> bool) (r : regex) :
  re_match (Cat (Cls p) r) EmptyString = false.
Proof. reflexivity. Qed.

Lemma match_cls_last (p : ascii -> bool) (c : ascii) (s : string) :
  re_match (Cls p) (String c s) = p c.
Proof. simpl. destruct (p c); simpl; [destruct s; reflexivity | apply match_void]. Qed.

Lemma match_eps (s : string) : re_match Eps s = true.
Proof. destruct s; reflexivity. Qed.

(** The matcher decides the usual semantics: [re_match r s] holds exactly
    when a prefix of [s] is a word of [r]. *)
Lemma app_empty (s1 s2 : string) :
  (s1 ++ s2)%string = EmptyString -> s1 = EmptyString /\ s2 = EmptyString.
Proof. destruct s1; simpl; [auto | discriminate]. Qed.

Lemma nullable_spec (r : regex) : nullable r = true <-> Matches r EmptyString.
Proof.
  split.
  - induction r; simpl; intros H; try discriminate.
    + constructor.
    + apply andb_true_iff in H. destruct H as [H1 H2].
      change EmptyString with (EmptyString ++ EmptyString)%string.
      constructor; auto.
    + apply orb_true_iff in H. destruct H as [H|H];
        [apply Matches_alt_l | apply Matches_alt_r]; auto.
    + constructor.
  - intros H. remember EmptyString as s eqn:Hs.
    induction H; simpl; subst; try discriminate; auto.
    + apply app_empty in Hs. destruct Hs as [-> ->].
      rewrite IHMatches1, IHMatches2; auto.
    + rewrite IHMatches; auto.
    + rewrite IHMatches; auto. apply orb_true_r.
Qed.

Lemma deriv_sound (c : ascii) (r : regex) : forall s,
  Matches (deriv c r) s -> Matches r (String c s).
Proof.
  induction r; simpl; intros s H.
  - inversion H.
  - inversion H.
  - destruct (p c) eqn:Hp; inversion H; subst. now constructor.
  - destruct (nullable r1) eqn:Hn.
    + inversion H; subst.
      * match goal with Hc : Matches (Cat _ _) _ |- _ => inversion Hc; subst end.
        change (String c (s1 ++ s2)) with (String c s1 ++ s2)%string.
        constructor; auto.
      * change (String c s) with (EmptyString ++ String c s)%string.
        constructor; auto. now apply nullable_spec.
    + inversion H; subst.
      change (String c (s1 ++ s2)) with (String c s1 ++ s2)%string.
      constructor; auto.
  - inversion H; subst; [apply Matches_alt_l | apply Matches_alt_r]; auto.
  - inversion H; subst.
    change (String c (s1 ++ s2)) with (String c s1 ++ s2)%string.
    constructor; auto.
Qed.

Lemma deriv_complete (c : ascii) (r : regex) (s0 : string) :
  Matches r s0 -> forall t, s0 = String c t -> Matches (deriv c r) t.
Proof.
  induction 1; intros t Ht; simpl.
  - discriminate.
  - injection Ht as -> <-. rewrite H. constructor.
  - destruct s1 as [|c1 s1]; simpl in Ht.
    + assert (Hn : nullable r1 = true) by now apply nullable_spec.
      rewrite Hn. apply Matches_alt_r. auto.
    + injection Ht as -> <-.
      assert (Hc : Matches (Cat (deriv c r1) r2) (s1 ++ s2)) by (constructor; auto).
      destruct (nullable r1); [now apply Matches_alt_l | exact Hc].
  - apply Matches_alt_l. auto.
  - apply Matches_alt_r. auto.
  - discriminate.
  - destruct s1 as [|c1 s1]; simpl in Ht.
    + now apply IHMatches2.
    + injection Ht as -> <-. constructor; auto.
Qed.

Lemma re_match_spec (s : string) : forall r,
  re_match r s = true <-> exists p t, s = (p ++ t)%string /\ Matches r p.
Proof.
  induction s as [|c s IH]; intros r; simpl.
  - rewrite orb_false_r, nullable_spec. split.
    + intros H. exists EmptyString, EmptyString. auto.
    + intros (p & t & Hs & H). symmetry in Hs. apply app_empty in Hs.
      destruct Hs as [-> _]. exact H.
  - rewrite orb_true_iff, IH, nullable_spec. split.
    + intros [H|(p & t & -> & H)].
      * exists EmptyString, (String c s). auto.
      * exists (String c p), t. split; [reflexivity | now apply deriv_sound].
    + intros (p & t & Hs & H). destruct p as [|c' p]; [now left|].
      simpl in Hs. injection Hs as <- ->. right.
      exists p, t. split; [reflexivity|]. now apply (deriv_complete c r (String c p)).
Qed.

(** [re.match] anchors the start only: a match survives any suffix. *)
Lemma match_prefix_closed (s t : string) : forall r,
  re_match r s = true -> re_match r (s ++ t) = true.
Proof.
  induction s as [|c s IH]; intros r H; simpl in *.
  - rewrite orb_false_r in H. destruct t; simpl; now rewrite H.
  - apply orb_true_iff in H. destruct H as [H|H].
    + now rewrite H.
    + rewrite (IH _ H). apply orb_true_r.
Qed.

End ReFacts.

Module ReShape.
Import Re ReFacts.

(** [p{n}k] matches exactly the strings that start with [n] characters
    of class [p] and go on with a match of [k]. *)
Lemma match_times (p : ascii -> bool) (k : regex) (n : nat) : forall s,
  re_match (times n (Cls p) k) s = true <->
  exists body rest,
    s = body ++ rest /\ String.length body = n /\
    Str.forallb p body = true /\ re_match k rest = true.
Proof.
  induction n as [|n IH]; intros s; simpl.
  - split.
    + intros H. exists EmptyString, s. auto.
    + intros (body & rest & -> & Hlen & _ & Hk).
      destruct body; [exact Hk | discriminate].
  - destruct s as [|c s].
    + rewrite match_cls_nil. split; [discriminate|].
      intros (body & rest & Hs & Hlen & _).
      destruct body; simpl in *; discriminate.
    + rewrite match_cls_cons, andb_true_iff, IH. split.
      * intros (Hc & body & rest & -> & Hlen & Hb & Hk).
        exists (String c body), rest. simpl. rewrite Hc, Hb, Hlen. auto.
      * intros (body & rest & Hs & Hlen & Hb & Hk).
        destruct body as [|c' body]; [discriminate|].
        simpl in *. injection Hs as -> ->. injection Hlen as Hlen.
        apply andb_true_iff in Hb. destruct Hb as [Hc Hb].
        split; [exact Hc|]. exists body, rest. auto.
Qed.

Lemma match_cls (p : ascii -> bool) (s : string) :
  re_match (Cls p) s = true <-> exists c rest, s = String c rest /\ p c = true.
Proof.
  destruct s as [|c s].
  - split; [discriminate | intros (? & ? & ? & _); discriminate].
  - rewrite match_cls_last. split.
    + intros H. exists c, s. auto.
    + intros (c' & rest & Hs & Hp). now injection Hs as -> ->.
Qed.

Lemma length_app (a b : string) :
  String.length (a ++ b) = String.length a + String.length b.
Proof. induction a; simpl; auto. Qed.

Lemma app_empty_r (a : string) : (a ++ EmptyString)%string = a.
Proof. induction a; simpl; congruence. Qed.

Lemma length_zero (a : string) : String.length a = 0 -> a = EmptyString.
Proof. destruct a; [reflexivity | discriminate]. Qed.

Lemma digit_or_X_spec (c : ascii) :
  digit_or_X c = true <-> Str.is_digit c = true \/ c = "X"%char.
Proof.
  unfold digit_or_X, Str.is_char. rewrite orb_true_iff, Ascii.eqb_eq.
  intuition congruence.
Qed.

Lemma delete_twice (s : string) :
  Str.delete " " (Str.delete "-" s) = without_hyphens_and_spaces s.
Proof.
  induction s as [|c s IH]; simpl; [reflexivity|].
  destruct (Ascii.eqb c "-") eqn:Eh; simpl; [exact IH|].
  destruct (Ascii.eqb c " "); simpl; congruence.
Qed.

Lemma isbn10_match (r : string) :
  String.length r = 10 ->
  (re_match isbn10_pattern r = true <-> isbn10_shape r).
Proof.
  intros Hlen. unfold isbn10_pattern, digit, isbn10_shape.
  rewrite match_times. split.
  - intros (body & rest & -> & Hb & Hd & Hk).
    apply match_cls in Hk. destruct Hk as (c & rest' & -> & Hc).
    rewrite length_app in Hlen. simpl in Hlen.
    assert (rest' = EmptyString) as -> by (apply length_zero; lia).
    exists body, c. rewrite digit_or_X_spec in Hc. auto.
  - intros (body & c & -> & Hb & Hd & Hc).
    exists body, (String c EmptyString). repeat split; auto.
    rewrite match_cls_last. now apply digit_or_X_spec.
Qed.

Lemma isbn13_match (r : string) :
  String.length r = 13 ->
  (re_match isbn13_pattern r = true <-> isbn13_shape r).
Proof.
  intros Hlen. unfold isbn13_pattern, digit, isbn13_shape.
  rewrite match_times. split.
  - intros (body & rest & -> & Hb & Hd & _).
    rewrite length_app in Hlen.
    assert (rest = EmptyString) as -> by (apply length_zero; lia).
    rewrite app_empty_r. auto.
  - intros [_ Hd]. exists r, EmptyString.
    rewrite app_empty_r. auto.
Qed.

Lemma isbn10_shape_length (r : string) : isbn10_shape r -> String.length r = 10.
Proof.
  intros (body & c & -> & Hb & _). rewrite length_app, Hb. reflexivity.
Qed.

End ReShape.

(** ** Validators *)

Example validate_doi_test : validate_doi "10.1000/test" = true /\ validate_doi "invalid" = false.
Proof. split; reflexivity. Qed.

Example validate_isbn_test :
  validate_isbn "978-0-123456-78-9" = true /\ validate_isbn "0-306-40615-2" = true /\
  validate_isbn "978 0 306 40615 7" = true /\ validate_isbn "invalid" = false /\
  validate_isbn EmptyString = false.
Proof. repeat split; reflexivity. Qed.

Example validate_issn_test :
  validate_issn "1234-5678" = true /\ validate_issn "0317-847X" = true /\
  validate_issn "invalid" = false /\ validate_issn EmptyString = false.
Proof. repeat split; reflexivity. Qed.

(** On 8-bit strings [validate_isbn] accepts exactly the two shapes. *)
Lemma validate_isbn_latin1_shape (isbn : string) :
  validate_isbn isbn = true <->
  isbn10_shape (without_hyphens_and_spaces isbn) \/
  isbn13_shape (without_hyphens_and_spaces isbn).
Proof.
  unfold validate_isbn. rewrite ReShape.delete_twice.
  set (r := without_hyphens_and_spaces isbn).
  destruct (String.length r =? 10) eqn:E10.
  - apply Nat.eqb_eq in E10. rewrite (ReShape.isbn10_match r E10). split; [auto|].
    intros [H|[H _]]; [exact H | lia].
  - apply Nat.eqb_neq in E10.
    destruct (String.length r =? 13) eqn:E13.
    + apply Nat.eqb_eq in E13. rewrite (ReShape.isbn13_match r E13). split; [auto|].
      intros [H|H]; [|exact H].
      apply ReShape.isbn10_shape_length in H. lia.
    + apply Nat.eqb_neq in E13. split; [discriminate|].
      intros [H|[H _]]; [apply ReShape.isbn10_shape_length in H|]; lia.
Qed.

(** ** The matcher over code points *)

Module UniFacts.
Import Uni.
Local Open Scope list_scope.

Lemma uni_match_void (s : str) : re_match Void s = false.
Proof. induction s as [|c s IH]; simpl; auto. Qed.

Lemma uni_match_alt (s : str) : forall r1 r2,
  re_match (Alt r1 r2) s = re_match r1 s || re_match r2 s.
Proof.
  induction s as [|c s IH]; intros r1 r2; simpl.
  - now rewrite !orb_false_r.
  - rewrite IH.
    destruct (nullable r1), (nullable r2); simpl; auto.
    + now rewrite orb_true_r.
Qed.

Lemma uni_match_cat_void (s : str) (r : regex) : re_match (Cat Void r) s = false.
Proof. induction s as [|c s IH]; simpl; auto. Qed.

Lemma uni_match_cat_eps (s : str) (r : regex) :
  re_match (Cat Eps r) s = re_match r s.
Proof.
  destruct s as [|c s]; simpl.
  - now rewrite !orb_false_r.
  - now rewrite uni_match_alt, uni_match_cat_void.
Qed.

Lemma uni_match_cls_cons (p : N -> bool) (r : regex) (c : N) (s : str) :
  re_match (Cat (Cls p) r) (c :: s) = p c && re_match r s.
Proof.
  simpl. destruct (p c); simpl.
  - apply uni_match_cat_eps.
  - apply uni_match_cat_void.
Qed.

Lemma uni_match_cls_nil (p : N -> bool) (r : regex) :
  re_match (Cat (Cls p) r) [] = false.
Proof. reflexivity. Qed.

Lemma uni_match_cls_last (p : N -> bool) (c : N) (s : str) :
  re_match (Cls p) (c :: s) = p c.
Proof. simpl. destruct (p c); simpl; [destruct s; reflexivity | apply uni_match_void]. Qed.

(** The matcher decides the words of a pattern: [re_match r s] holds
    exactly when a prefix of [s] is a word of [r]. *)
Lemma uni_nullable_spec (r : regex) : nullable r = true <-> Matches r [].
Proof.
  split.
  - induction r; simpl; intros H; try discriminate.
    + constructor.
    + apply andb_true_iff in H. destruct H as [H1 H2].
      change (@nil N) with (@nil N ++ []).
      constructor; auto.
    + apply orb_true_iff in H. destruct H as [H|H];
        [apply Matches_alt_l | apply Matches_alt_r]; auto.
    + constructor.
  - intros H. remember (@nil N) as s eqn:Hs.
    induction H; simpl; subst; try discriminate; auto.
    + apply app_eq_nil in Hs. destruct Hs as [-> ->].
      rewrite IHMatches1, IHMatches2; auto.
    + rewrite IHMatches; auto.
    + rewrite IHMatches; auto. apply orb_true_r.
Qed.

Lemma uni_deriv_sound (c : N) (r : regex) : forall s,
  Matches (deriv c r) s -> Matches r (c :: s).
Proof.
  induction r; simpl; intros s H.
  - inversion H.
  - inversion H.
  - destruct (p c) eqn:Hp; inversion H; subst. now constructor.
  - destruct (nullable r1) eqn:Hn.
    + inversion H; subst.
      * match goal with Hc : Matches (Cat _ _) _ |- _ => inversion Hc; subst end.
        change (c :: s1 ++ s2) with ((c :: s1) ++ s2).
        constructor; auto.
      * change (c :: s) with ([] ++ c :: s).
        constructor; auto. now apply uni_nullable_spec.
    + inversion H; subst.
      change (c :: s1 ++ s2) with ((c :: s1) ++ s2).
      constructor; auto.
  - inversion H; subst; [apply Matches_alt_l | apply Matches_alt_r]; auto.
  - inversion H; subst.
    change (c :: s1 ++ s2) with ((c :: s1) ++ s2).
    constructor; auto.
Qed.

Lemma uni_deriv_complete (c : N) (r : regex) (s0 : str) :
  Matches r s0 -> forall t, s0 = c :: t -> Matches (deriv c r) t.
Proof.
  induction 1; intros t Ht; simpl.
  - discriminate.
  - injection Ht as -> <-. rewrite H. constructor.
  - destruct s1 as [|c1 s1]; simpl in Ht.
    + assert (Hn : nullable r1 = true) by now apply uni_nullable_spec.
      rewrite Hn. apply Matches_alt_r. auto.
    + injection Ht as -> <-.
      assert (Hc : Matches (Cat (deriv c r1) r2) (s1 ++ s2)) by (constructor; auto).
      destruct (nullable r1); [now apply Matches_alt_l | exact Hc].
  - apply Matches_alt_l. auto.
  - apply Matches_alt_r. auto.
  - discriminate.
  - destruct s1 as [|c1 s1]; simpl in Ht.
    + now apply IHMatches2.
    + injection Ht as -> <-. constructor; auto.
Qed.

Lemma uni_re_match_spec (s : str) : forall r,
  re_match r s = true <-> exists p t, s = p ++ t /\ Matches r p.
Proof.
  induction s as [|c s IH]; intros r; simpl.
  - rewrite orb_false_r, uni_nullable_spec. split.
    + intros H. exists [], []. auto.
    + intros (p & t & Hs & H). symmetry in Hs. apply app_eq_nil in Hs.
      destruct Hs as [-> _]. exact H.
  - rewrite orb_true_iff, IH, uni_nullable_spec. split.
    + intros [H|(p & t & -> & H)].
      * exists [], (c :: s). auto.
      * exists (c :: p), t. split; [reflexivity | now apply uni_deriv_sound].
    + intros (p & t & Hs & H). destruct p as [|c' p]; [now left|].
      simpl in Hs. injection Hs as <- ->. right.
      exists p, t. split; [reflexivity|]. now apply (uni_deriv_complete c r (c :: p)).
Qed.

(** [p{n}k] matches exactly the strings that start with [n] characters
    of class [p] and go on with a match of [k]. *)
Lemma uni_match_times (p : N -> bool) (k : regex) (n : nat) : forall s,
  re_match (times n (Cls p) k) s = true <->
  exists body rest,
    s = body ++ rest /\ List.length body = n /\
    forallb p body = true /\ re_match k rest = true.
Proof.
  induction n as [|n IH]; intros s; simpl.
  - split.
    + intros H. exists [], s. auto.
    + intros (body & rest & -> & Hlen & _ & Hk).
      destruct body; [exact Hk | discriminate].
  - destruct s as [|c s].
    + rewrite uni_match_cls_nil. split; [discriminate|].
      intros (body & rest & Hs & Hlen & _).
      destruct body; simpl in *; discriminate.
    + rewrite uni_match_cls_cons, andb_true_iff, IH. split.
      * intros (Hc & body & rest & -> & Hlen & Hb & Hk).
        exists (c :: body), rest. simpl. rewrite Hc, Hb, Hlen. auto.
      * intros (body & rest & Hs & Hlen & Hb & Hk).
        destruct body as [|c' body]; [discriminate|].
        simpl in *. injection Hs as -> ->. injection Hlen as Hlen.
        apply andb_true_iff in Hb. destruct Hb as [Hc Hb].
        split; [exact Hc|]. exists body, rest. auto.
Qed.

(** [p{0,n}k]: at most [n] characters of class [p], then a match of [k]. *)
Lemma uni_match_upto (p : N -> bool) (k : regex) (n : nat) : forall s,
  re_match (upto n (Cls p) k) s = true <->
  exists body rest,
    s = body ++ rest /\ List.length body <= n /\
    forallb p body = true /\ re_match k rest = true.
Proof.
  induction n as [|n IH]; intros s; simpl upto.
  - split.
    + intros H. exists [], s. auto.
    + intros (body & rest & -> & Hlen & _ & Hk).
      destruct body; [exact Hk | simpl in Hlen; lia].
  - rewrite uni_match_alt, orb_true_iff. split.
    + intros [H|H].
      * destruct s as [|c s]; [rewrite uni_match_cls_nil in H; discriminate|].
        rewrite uni_match_cls_cons, andb_true_iff, IH in H.
        destruct H as (Hc & body & rest & -> & Hlen & Hb & Hk).
        exists (c :: body), rest. simpl. rewrite Hc, Hb.
        repeat split; auto. lia.
      * exists [], s. simpl. repeat split; auto. lia.
    + intros (body & rest & -> & Hlen & Hb & Hk).
      destruct body as [|c body]; [now right|]. left.
      cbn [forallb] in Hb. cbn [List.length] in Hlen.
      apply andb_true_iff in Hb. destruct Hb as [Hc Hb].
      change ((c :: body) ++ rest) with (c :: (body ++ rest)).
      rewrite uni_match_cls_cons, Hc. cbn [andb]. apply IH.
      exists body, rest. repeat split; auto. lia.
Qed.

Lemma uni_match_cls (p : N -> bool) (s : str) :
  re_match (Cls p) s = true <-> exists c rest, s = c :: rest /\ p c = true.
Proof.
  destruct s as [|c s].
  - split; [discriminate | intros (? & ? & ? & _); discriminate].
  - rewrite uni_match_cls_last. split.
    + intros H. exists c, s. auto.
    + intros (c' & rest & Hs & Hp). now injection Hs as -> ->.
Qed.

Lemma uni_match_plus_cls (p : N -> bool) (s : str) :
  re_match (plus (Cls p)) s = true <-> exists c rest, s = c :: rest /\ p c = true.
Proof.
  unfold plus. destruct s as [|c s].
  - rewrite uni_match_cls_nil. split; [discriminate | intros (? & ? & ? & _); discriminate].
  - rewrite uni_match_cls_cons.
    assert (Hstar : re_match (Star (Cls p)) s = true) by (destruct s; reflexivity).
    rewrite Hstar, andb_true_r. split.
    + intros H. exists c, s. auto.
    + intros (c' & rest & Hs & Hp). now injection Hs as -> ->.
Qed.

Lemma uni_match_lit (a : ascii) (r : regex) (s : str) :
  re_match (Cat (lit a) r) s = true <->
  exists rest, s = cp a :: rest /\ re_match r rest = true.
Proof.
  unfold lit. destruct s as [|c s].
  - rewrite uni_match_cls_nil. split; [discriminate | intros (? & ? & _); discriminate].
  - rewrite uni_match_cls_cons, andb_true_iff, N.eqb_eq. split.
    + intros [<- H]. exists s. auto.
    + intros (rest & Hs & H). injection Hs as -> ->. auto.
Qed.

Lemma uni_digit_or_X_spec (db : Database) (c : N) :
  digit_or_X db c = true <-> is_decimal db c = true \/ c = cp "X".
Proof.
  unfold digit_or_X. rewrite orb_true_iff, N.eqb_eq. intuition congruence.
Qed.





(** In Unicode 14.0 the decimal digits below U+0660 are the ten ASCII
    digits. *)
Lemma is_decimal_ascii (c : N) :
  (c < 1632)%N -> (is_decimal unicode_14 c = true <-> (48 <= c <= 57)%N).
Proof.
  intros Hc. cbn [is_decimal unicode_14]. unfold is_decimal_14.
  rewrite existsb_exists. split.
  - intros (zero & Hin & Hz).
    assert (Hfar : forallb (fun zero => (zero =? 48) || (1632 <=? zero))%N decimal_blocks = true)
      by (vm_compute; reflexivity).
    rewrite forallb_forall in Hfar. specialize (Hfar zero Hin).
    apply andb_true_iff in Hz. destruct Hz as [Hlo Hhi].
    apply N.leb_le in Hlo. apply N.ltb_lt in Hhi.
    apply orb_true_iff in Hfar. destruct Hfar as [Hfar|Hfar].
    + apply N.eqb_eq in Hfar. lia.
    + apply N.leb_le in Hfar. lia.
  - intros [Hlo Hhi]. exists 48%N. split.
    + unfold decimal_blocks. left. reflexivity.
    + apply andb_true_iff. rewrite N.leb_le, N.ltb_lt. lia.
Qed.

End UniFacts.

Example validate_isbn_code_points :
  Uni.validate_isbn Uni.unicode_14 (Uni.of_string "978-0-123456-78-9") = true /\
  Uni.validate_isbn Uni.unicode_14 (Uni.of_string "0-306-40615-X") = true /\
  Uni.validate_isbn Uni.unicode_14 (Uni.of_string "0-306-40615-x") = false /\
  Uni.validate_isbn Uni.unicode_14 (Uni.of_string "invalid") = false.
Proof. repeat split; vm_compute; reflexivity. Qed.

(** The digits of other scripts are decimal digits too: ten
    Arabic-Indic digits (U+0660 to U+0669) are accepted. *)
Example validate_isbn_arabic_indic :
  Uni.validate_isbn Uni.unicode_14
    [1632; 1633; 1634; 1635; 1636; 1637; 1638; 1639; 1640; 1641]%N = true.
Proof. vm_compute. reflexivity. Qed.


(** C8. The DOI and ISSN validators look at a prefix only: a string they
    accept stays accepted whatever is appended to it, and
    [validate_issn] accepts every string that begins with four digits, a
    hyphen, three digits and a digit or X. *)
Theorem validators_match_prefix_only :
  (forall s t, validate_doi s = true -> validate_doi (s ++ t) = true) /\
  (forall s t, validate_issn s = true -> validate_issn (s ++ t) = true) /\
  (forall a b c rest,
     String.length a = 4 -> Str.forallb Str.is_digit a = true ->
     String.length b = 3 -> Str.forallb Str.is_digit b = true ->
     (Str.is_digit c = true \/ c = "X"%char) ->
     validate_issn (a ++ String "-" (b ++ String c rest)) = true).
Proof.
  split; [|split].
  - intros s t. apply ReFacts.match_prefix_closed.
  - intros s t. apply ReFacts.match_prefix_closed.
  - intros a b c rest Ha Hda Hb Hdb Hc.
    unfold validate_issn, issn_pattern, Re.digit, Re.lit.
    apply ReShape.match_times. exists a, (String "-" (b ++ String c rest)).
    repeat split; auto.
    rewrite ReFacts.match_cls_cons. apply andb_true_iff. split; [reflexivity|].
    apply ReShape.match_times. exists b, (String c rest).
    repeat split; auto.
    rewrite ReFacts.match_cls_last. now apply ReShape.digit_or_X_spec.
Qed.

Lemma validators_match_prefix_only_witness :
  validate_doi ("10.1000/test" ++ " and then anything") = true /\
  validate_issn ("0317-847X" ++ "-not-an-issn") = true /\
  validate_issn ("1234" ++ String "-" ("567" ++ String "8" "9999 trailing")) = true.
Proof.
  destruct validators_match_prefix_only as (Hdoi & Hissn & Hshape).
  split; [|split].
  - apply Hdoi. reflexivity.
  - apply Hissn. reflexivity.
  - apply Hshape; try reflexivity. left. reflexivity.
Defined.

Open Scope list_scope.

(** ** The monad *)

Section ToolkitFacts.

Context {B : Type}.
Variable zot : Zotero B.
Variable env : Env.

Lemma fuel_free_ret {A : Type} (a : A) : fuel_free (@ret B A a).
Proof. intros w. discriminate. Qed.

Lemma fuel_free_raise {A : Type} (e : Exn) : fuel_free (@raise B A e).
Proof. intros w. discriminate. Qed.

Lemma fuel_free_lift {A : Type} (r : Response A) : fuel_free (@lift B A r).
Proof. destruct r; [apply fuel_free_ret | apply fuel_free_raise]. Qed.

Lemma fuel_free_call {A : Type} (req : Request) (f : B -> Response A * B) :
  fuel_free (call req f).
Proof.
  intros w. unfold call. destruct (f (backend w)) as [[a|e] b']; discriminate.
Qed.

Lemma fuel_free_bind {A C : Type} (m : M B A) (k : A -> M B C) :
  fuel_free m -> (forall a, fuel_free (k a)) -> fuel_free (bind m k).
Proof.
  intros Hm Hk w. unfold bind. specialize (Hm w).
  destruct (m w) as [[a|e|] w']; simpl in *; [apply Hk | discriminate | congruence].
Qed.

Lemma fuel_free_try {A : Type} (m : M B A) (h : Exn -> M B A) :
  fuel_free m -> (forall e, fuel_free (h e)) -> fuel_free (try_except m h).
Proof.
  intros Hm Hh w. unfold try_except. specialize (Hm w).
  destruct (m w) as [[a|e|] w']; simpl in *; [discriminate | apply Hh | congruence].
Qed.

Lemma fuel_free_for_each {A S : Type} (body : A -> S -> M B S) (xs : list A) :
  (forall x acc, fuel_free (body x acc)) -> forall acc, fuel_free (for_each body xs acc).
Proof.
  intros Hb. induction xs as [|x xs IH]; intros acc; simpl.
  - apply fuel_free_ret.
  - apply fuel_free_bind; auto.
Qed.

End ToolkitFacts.

Ltac fuel_free :=
  repeat first
    [ apply fuel_free_ret | apply fuel_free_raise | apply fuel_free_lift
    | apply fuel_free_call
    | apply fuel_free_bind; [|intros ?]
    | apply fuel_free_try; [|intros ?]
    | apply fuel_free_for_each; intros ? ?
    | match goal with
      | |- fuel_free (if ?x then _ else _) => destruct x
      | |- fuel_free (let (_, _) := ?x in _) => destruct x
      | |- fuel_free (match ?x with _ => _ end) => destruct x
      end ].

(** ** Batch operations *)

Section BatchFacts.

Context {B : Type}.
Variable zot : Zotero B.

Lemma fuel_free_update_item_fields k fields : fuel_free (update_item_fields zot k fields).
Proof. unfold update_item_fields, get_item. fuel_free. Qed.

Lemma fuel_free_add_tags_to_item k tags : fuel_free (add_tags_to_item zot k tags).
Proof. unfold add_tags_to_item, get_item. fuel_free. Qed.

Lemma fuel_free_remove_tags_from_item k tags : fuel_free (remove_tags_from_item zot k tags).
Proof. unfold remove_tags_from_item, get_item. fuel_free. Qed.

Lemma fuel_free_move_item_to_collection k c : fuel_free (move_item_to_collection zot k c).
Proof. unfold move_item_to_collection, get_item. fuel_free. Qed.

Lemma fuel_free_delete_item k : fuel_free (delete_item zot k).
Proof. unfold delete_item. fuel_free. Qed.

(** The loop of a batch operation, started with some keys already
    sorted into the two lists. *)
Lemma batch_loop_partitions (op : string -> M B Value) :
  (forall k, fuel_free (op k)) ->
  forall item_keys acc w,
  exists s f w',
    for_each
      (fun item_key result =>
         try_except
           (op item_key ;;;
            ret (mkBatchResult (success result ++ [item_key]) (failed result)))
           (fun _ => ret (mkBatchResult (success result) (failed result ++ [item_key]))))
      item_keys acc w
    = (Ok (mkBatchResult (success acc ++ s) (failed acc ++ f)), w') /\
    Partitions item_keys s f.
Proof.
  intros Hop. induction item_keys as [|k ks IH]; intros acc w.
  - exists [], [], w. destruct acc as [sa fa]. simpl. rewrite !app_nil_r.
    split; [reflexivity | constructor].
  - simpl. unfold bind at 1. unfold try_except, bind at 1.
    pose proof (Hop k w) as Hk.
    destruct (op k w) as [[v|e|] w1]; simpl in Hk.
    + unfold ret at 1.
      destruct (IH (mkBatchResult (success acc ++ [k]) (failed acc)) w1)
        as (s & f & w' & Hrun & Hpart).
      exists (k :: s), f, w'. simpl in Hrun. rewrite <- app_assoc in Hrun.
      split; [exact Hrun | now constructor].
    + unfold ret at 1.
      destruct (IH (mkBatchResult (success acc) (failed acc ++ [k])) w1)
        as (s & f & w' & Hrun & Hpart).
      exists s, (k :: f), w'. simpl in Hrun. rewrite <- app_assoc in Hrun.
      split; [exact Hrun | now constructor].
    + congruence.
Qed.

Lemma batch_partitions (op : string -> M B Value) (item_keys : list string) (w : World B) :
  (forall k, fuel_free (op k)) ->
  exists result w',
    batch op item_keys w = (Ok result, w') /\
    Partitions item_keys (success result) (failed result).
Proof.
  intros Hop.
  destruct (batch_loop_partitions op Hop item_keys (mkBatchResult [] []) w)
    as (s & f & w' & Hrun & Hpart).
  exists (mkBatchResult s f), w'. split; [exact Hrun | exact Hpart].
Qed.

End BatchFacts.

Example batch_delete_items_run :
  fst (batch_delete_items Sample.client ["A"; "ZZ"; "B"; "A"]
         (Sample.start [Sample.article "A" "10.1/a" []; Sample.article "B" "10.1/b" []] 200))
  = Ok (mkBatchResult ["A"; "B"] ["ZZ"; "A"]).
Proof. reflexivity. Qed.

Lemma Partitions_length {A : Type} (l a b : list A) :
  Partitions l a b -> List.length a + List.length b = List.length l.
Proof. induction 1; simpl; lia. Qed.

(** C10. Each of the five batch operations returns, whatever the
    backend does, a result whose ["success"] and ["failed"] lists split
    the list of input keys: every input position lands in exactly one of
    the two lists, both lists keep the input order, and nothing is
    dropped, duplicated or added. *)
Theorem batch_operations_partition_keys {B : Type} (zot : Zotero B)
    (item_keys : list string) (fields : Dict) (tags : list string)
    (collection_key : string) (w : World B) :
  let partitioned (run : M B BatchResult) :=
    exists result w',
      run w = (Ok result, w') /\
      Partitions item_keys (success result) (failed result) /\
      List.length (success result) + List.length (failed result) = List.length item_keys in
  partitioned (batch_update_items zot item_keys fields) /\
  partitioned (batch_add_tags zot item_keys tags) /\
  partitioned (batch_remove_tags zot item_keys tags) /\
  partitioned (batch_move_to_collection zot item_keys collection_key) /\
  partitioned (batch_delete_items zot item_keys).
Proof.
  simpl.
  assert (Hall : forall op, (forall k, fuel_free (op k)) ->
            exists result w',
              batch op item_keys w = (Ok result, w') /\
              Partitions item_keys (success result) (failed result) /\
              List.length (success result) + List.length (failed result)
              = List.length item_keys).
  { intros op Hop.
    destruct (batch_partitions op item_keys w Hop) as (r & w' & Hrun & Hp).
    exists r, w'. repeat split; auto. now apply Partitions_length. }
  repeat split.
  - apply Hall. intros k. apply fuel_free_update_item_fields.
  - apply Hall. intros k. apply fuel_free_add_tags_to_item.
  - apply Hall. intros k. apply fuel_free_remove_tags_from_item.
  - apply Hall. intros k. apply fuel_free_move_item_to_collection.
  - apply Hall. intros k. apply fuel_free_delete_item.
Qed.

(** ** Pagination *)

Section PaginationFacts.

Context {B : Type}.
Variable zot : Zotero B.

Lemma for_each_collect {A : Type} (xs : list A) : forall (acc : list A) (w : World B),
  for_each (fun x acc => ret (acc ++ [x])) xs acc w = (Ok (acc ++ xs), w).
Proof.
  induction xs as [|x xs IH]; intros acc w; simpl.
  - now rewrite app_nil_r.
  - unfold bind, ret at 1. rewrite IH, <- app_assoc. reflexivity.
Qed.

Lemma backend_after_next (itemType : option string) (n : nat) (b : B) :
  zot_items zot (n * limit) limit itemType (backend_after zot itemType n b)
  = (page_response zot itemType n b, backend_after zot itemType (S n) b).
Proof. unfold page_response. simpl. now destruct (zot_items zot _ _ _ _). Qed.

(** The loop entered at page [j], when the first short page is [d]
    pages further on. *)
Lemma all_items_from_page (itemType : option string) (b0 : B) (pages : nat -> list Item) :
  forall d j fuel acc l c,
    (forall k, j <= k <= j + d -> page_response zot itemType k b0 = Returns (pages k)) ->
    (forall k, j <= k < j + d -> limit <= List.length (pages k)) ->
    List.length (pages (j + d)) < limit ->
    d < fuel ->
    _all_items_from zot fuel itemType (fun item acc => ret (acc ++ [item])) (j * limit) acc
      (mkWorld (backend_after zot itemType j b0) l c)
    = (Ok (acc ++ flat_map pages (seq j (S d))),
       mkWorld (backend_after zot itemType (S (j + d)) b0)
               (l ++ map (page_request itemType) (seq j (S d))) c).
Proof.
  induction d as [|d IH]; intros j fuel acc l c Hresp Hfull Hshort Hfuel;
    (destruct fuel as [|fuel]; [lia|]).
  - rewrite Nat.add_0_r in *.
    cbn [_all_items_from]. unfold bind at 1, call. cbn [backend log library_cache].
    rewrite backend_after_next, Hresp by lia.
    cbn [flat_map seq map]. rewrite app_nil_r.
    destruct (pages j) as [|x xs] eqn:Hp.
    + unfold ret. now rewrite app_nil_r.
    + unfold bind. rewrite for_each_collect.
      apply Nat.ltb_lt in Hshort. rewrite Hshort. reflexivity.
  - cbn [_all_items_from]. unfold bind at 1, call. cbn [backend log library_cache].
    rewrite backend_after_next, Hresp by lia.
    assert (Hj : limit <= List.length (pages j)) by (apply Hfull; lia).
    destruct (pages j) as [|x xs] eqn:Hp.
    + unfold limit in Hj. simpl in Hj. lia.
    + unfold bind. rewrite for_each_collect.
      assert (Hlt : (List.length (x :: xs) <? limit) = false) by (apply Nat.ltb_ge; exact Hj).
      rewrite Hlt.
      rewrite (Nat.add_comm (j * limit) limit).
      change (limit + j * limit) with (S j * limit).
      rewrite (IH (S j) fuel).
      * replace (S j + d) with (j + S d) by lia.
        cbn [flat_map seq map]. rewrite Hp, <- !app_assoc. reflexivity.
      * intros k Hk. apply Hresp. lia.
      * intros k Hk. apply Hfull. lia.
      * replace (S j + d) with (j + S d) by lia. exact Hshort.
      * lia.
Qed.

End PaginationFacts.

(** C3. [_all_items] is one bounded loop.  Let the backend answer the
    consecutive page requests at offsets 0, 100, 200, ... with the pages
    [pages 0], [pages 1], ..., and let page [n] be the first one that is
    empty or shorter than 100 items.  Then, given fuel for [n + 1]
    rounds, the loop ends, has yielded exactly the items of the pages 0
    to [n], each once and in order, and has sent exactly the [n + 1]
    requests with page size 100 at the offsets 0, 100, ..., 100 n: none
    beyond the first short or empty page. *)
Theorem all_items_paginates {B : Type} (zot : Zotero B) (itemType : option string)
    (w : World B) (n : nat) (pages : nat -> list Item) (fuel : nat) :
  (forall k, k <= n -> page_response zot itemType k (backend w) = Returns (pages k)) ->
  (forall k, k < n -> 100 <= List.length (pages k)) ->
  List.length (pages n) < 100 ->
  n < fuel ->
  list_all_items zot fuel itemType w
  = (Ok (flat_map pages (seq 0 (S n))),
     mkWorld (backend_after zot itemType (S n) (backend w))
             (log w ++ map (fun k => ReqItems (k * 100) 100 itemType) (seq 0 (S n)))
             (library_cache w)).
Proof.
  intros Hresp Hfull Hshort Hfuel.
  unfold list_all_items, _all_items.
  pose proof (all_items_from_page zot itemType (backend w) pages n 0 fuel [] (log w)
                (library_cache w)) as H.
  simpl in H. destruct w as [b l c]. simpl in *.
  apply H; auto.
  - intros k Hk. apply Hresp. lia.
  - intros k Hk. apply Hfull. lia.
Qed.

Lemma all_items_paginates_witness :
  let first_page := repeat (Sample.article "A" "10.1/a" []) 100 in
  let last_page := [Sample.article "B" "10.1/b" []] in
  let pages := fun k : nat => match k with O => first_page | _ => last_page end in
  let w := Sample.start (first_page ++ last_page) 200 in
  list_all_items Sample.client 2 None w
  = (Ok (flat_map pages (seq 0 2)),
     mkWorld (backend_after Sample.client None 2 (backend w))
             (log w ++ map (fun k => ReqItems (k * 100) 100 None) (seq 0 2))
             (library_cache w)).
Proof.
  intros first_page last_page pages w.
  apply (all_items_paginates Sample.client None w 1 pages 2).
  - intros k Hk. destruct k as [|[|k]]; [reflexivity | reflexivity | lia].
  - intros k Hk. destruct k as [|k]; [|lia].
    unfold pages, first_page. rewrite repeat_length. lia.
  - simpl. lia.
  - lia.
Defined.

(** ** Equality of hashable values *)

Lemma value_eqb_refl (a : Value) : hashable a = true -> value_eqb a a = true.
Proof.
  destruct a; simpl; intros H; try discriminate; auto.
  - apply Bool.eqb_reflx.
  - apply Z.eqb_refl.
  - apply String.eqb_refl.
Qed.

Lemma value_eqb_sym (a b : Value) :
  hashable a = true -> hashable b = true -> value_eqb a b = value_eqb b a.
Proof.
  destruct a, b; simpl; intros Ha Hb; try discriminate; auto.
  - destruct b0, b; reflexivity.
  - apply Z.eqb_sym.
  - apply Z.eqb_sym.
  - apply Z.eqb_sym.
  - apply String.eqb_sym.
Qed.

Lemma value_eqb_trans (a b c : Value) :
  hashable a = true -> hashable b = true -> hashable c = true ->
  value_eqb a b = true -> value_eqb b c = true -> value_eqb a c = true.
Proof.
  destruct a, b, c; simpl; intros Ha Hb Hc Hab Hbc; try discriminate; auto;
    repeat match goal with
           | H : Bool.eqb _ _ = true |- _ => apply Bool.eqb_prop in H; subst
           | H : (_ =? _)%Z = true |- _ => apply Z.eqb_eq in H; subst
           | H : String.eqb _ _ = true |- _ => apply String.eqb_eq in H; subst
           end;
    try apply Bool.eqb_reflx; try apply Z.eqb_refl; try apply String.eqb_refl.
  - destruct b0, b; simpl in *; try reflexivity; discriminate.
Qed.

(** ** Consumers of the paginated reader *)

Section ReaderFacts.

Context {B : Type}.
Variable zot : Zotero B.

Lemma for_each_lift {A S : Type} (f : A -> S -> Response S) (body : A -> S -> M B S) :
  (forall x a w, body x a w = lift (f x a) w) ->
  forall xs acc w, for_each body xs acc w = (outcome_of (fold_response f xs acc), w).
Proof.
  intros Hbody. induction xs as [|x xs IH]; intros acc w; simpl; [reflexivity|].
  unfold bind. rewrite Hbody. destruct (f x acc) as [a|e]; simpl; [apply IH | reflexivity].
Qed.

Lemma fold_response_app {A S : Type} (f : A -> S -> Response S) (xs ys : list A) :
  forall acc,
    fold_response f (xs ++ ys) acc =
    match fold_response f xs acc with
    | Returns a => fold_response f ys a
    | Raises e => Raises e
    end.
Proof.
  induction xs as [|x xs IH]; intros acc; simpl; [reflexivity|].
  destruct (f x acc); [apply IH | reflexivity].
Qed.

(** A consumer whose body only computes sees the items that
    [list(_all_items(...))] collects, and leaves the same world. *)
Lemma all_items_from_fold (itemType : option string) :
  forall fuel start l0 w r w',
    _all_items_from zot fuel itemType (fun item acc => ret (acc ++ [item])) start l0 w
    = (Ok r, w') ->
    exists items,
      r = l0 ++ items /\
      forall (S : Type) (f : Item -> S -> Response S) (body : Item -> S -> M B S) acc acc',
        (forall x a w, body x a w = lift (f x a) w) ->
        fold_response f items acc = Returns acc' ->
        _all_items_from zot fuel itemType body start acc w = (Ok acc', w').
Proof.
  induction fuel as [|fuel IH]; intros start l0 w r w' H; [discriminate|].
  cbn [_all_items_from] in H. unfold bind at 1, call in H.
  destruct (zot_items zot start limit itemType (backend w)) as [[page|e] b1] eqn:E;
    [|discriminate].
  destruct page as [|x xs].
  - injection H as <- <-. exists []. split; [now rewrite app_nil_r|].
    intros S f body acc acc' Hbody Hfold. injection Hfold as <-.
    cbn [_all_items_from]. unfold bind at 1, call. rewrite E. reflexivity.
  - unfold bind in H. rewrite for_each_collect in H.
    destruct (List.length (x :: xs) <? limit) eqn:Hshort.
    + injection H as <- <-. exists (x :: xs). split; [reflexivity|].
      intros S f body acc acc' Hbody Hfold.
      cbn [_all_items_from]. unfold bind at 1, call. rewrite E.
      unfold bind. rewrite (for_each_lift f body Hbody), Hfold. simpl outcome_of.
      rewrite Hshort. reflexivity.
    + destruct (IH _ _ _ _ _ H) as (items & -> & Hrest).
      exists ((x :: xs) ++ items). split; [now rewrite app_assoc|].
      intros S f body acc acc' Hbody Hfold.
      rewrite fold_response_app in Hfold.
      destruct (fold_response f (x :: xs) acc) as [mid|e] eqn:Hmid; [|discriminate].
      cbn [_all_items_from]. unfold bind at 1, call. rewrite E.
      unfold bind. rewrite (for_each_lift f body Hbody), Hmid. simpl outcome_of.
      rewrite Hshort. exact (Hrest S f body mid acc' Hbody Hfold).
Qed.

Lemma all_items_fold (itemType : option string) (fuel : nat) (w w' : World B)
    (items : list Item) :
  list_all_items zot fuel itemType w = (Ok items, w') ->
  forall (S : Type) (f : Item -> S -> Response S) (body : Item -> S -> M B S) acc acc',
    (forall x a w, body x a w = lift (f x a) w) ->
    fold_response f items acc = Returns acc' ->
    _all_items zot fuel itemType body acc w = (Ok acc', w').
Proof.
  intros H.
  destruct (all_items_from_fold itemType fuel 0 [] w items w' H) as (items' & Heq & Hfold).
  simpl in Heq. subst items'. exact Hfold.
Qed.

End ReaderFacts.

(** ** Grouping by key *)

Section GroupingFacts.

Lemma filter_none {A : Type} (p : A -> bool) (l : list A) :
  (forall x, In x l -> p x = false) -> filter p l = [].
Proof.
  induction l as [|x l IH]; intros H; simpl; [reflexivity|].
  rewrite (H x) by now left. apply IH. intros y Hy. apply H. now right.
Qed.

Lemma filter_snoc {A : Type} (p : A -> bool) (l : list A) (x : A) :
  filter p (l ++ [x]) = filter p l ++ (if p x then [x] else []).
Proof. rewrite filter_app. reflexivity. Qed.

Lemma existsb_eqb_trans (k k' : Value) (K : list Value) :
  hashable k = true -> hashable k' = true -> Forall (fun v => hashable v = true) K ->
  value_eqb k k' = true -> existsb (value_eqb k') K = true -> existsb (value_eqb k) K = true.
Proof.
  intros Hk Hk' HK Heq Hex. apply existsb_exists in Hex. destruct Hex as (k1 & Hin & H1).
  apply existsb_exists. exists k1. split; [exact Hin|].
  rewrite Forall_forall in HK.
  apply (value_eqb_trans k k' k1); auto.
Qed.

Lemma vdict_append_groups {V : Type} (k : Value) (x : V) (G G' : Value -> list V) :
  hashable k = true ->
  forall K,
    Forall (fun v => hashable v = true) K ->
    keys_distinct K ->
    (forall k1, In k1 K -> G' k1 = G k1 ++ (if value_eqb k k1 then [x] else [])) ->
    (existsb (value_eqb k) K = false -> G' k = [x]) ->
    vdict_append k x (map (fun k' => (k', G k')) K)
    = map (fun k' => (k', G' k')) (add_key k K).
Proof.
  intros Hk. induction K as [|k1 K IH]; intros Hh Hd HG Hnew.
  - simpl. now rewrite Hnew.
  - inversion Hh as [|? ? Hk1 HhK]; subst. destruct Hd as [Hd1 HdK].
    assert (Hadd : add_key k (k1 :: K)
                   = if value_eqb k k1 then k1 :: K else k1 :: add_key k K).
    { unfold add_key. simpl. destruct (value_eqb k k1); simpl; [reflexivity|].
      now destruct (existsb (value_eqb k) K). }
    rewrite Hadd. simpl. destruct (value_eqb k k1) eqn:E.
    + simpl. rewrite (HG k1) by now left. rewrite E. f_equal.
      apply map_ext_in. intros k2 Hin. f_equal.
      rewrite (HG k2) by now right.
      assert (E2 : value_eqb k k2 = false).
      { destruct (value_eqb k k2) eqn:E2; [|reflexivity].
        rewrite Forall_forall in HhK.
        assert (value_eqb k1 k2 = true).
        { apply (value_eqb_trans k1 k k2); auto.
          rewrite value_eqb_sym; auto. }
        rewrite (Hd1 k2 Hin) in H. discriminate. }
      rewrite E2. now rewrite app_nil_r.
    + simpl. rewrite (HG k1) by now left. rewrite E, app_nil_r. f_equal.
      apply IH; auto.
      * intros k2 Hin. apply HG. now right.
      * intros Hex. apply Hnew. simpl. now rewrite E.
Qed.

Lemma add_key_invariant (k : Value) (K : list Value) :
  hashable k = true ->
  Forall (fun v => hashable v = true) K -> keys_distinct K ->
  Forall (fun v => hashable v = true) (add_key k K) /\ keys_distinct (add_key k K) /\
  existsb (value_eqb k) (add_key k K) = true /\
  (forall k', existsb (value_eqb k') K = true -> existsb (value_eqb k') (add_key k K) = true).
Proof.
  intros Hk Hh Hd. unfold add_key.
  destruct (existsb (value_eqb k) K) eqn:Hex; [auto|].
  repeat split.
  - apply Forall_app. split; auto.
  - clear Hh. induction K as [|k1 K IH]; simpl in *.
    + split; [intros ? []|exact I].
    + apply orb_false_iff in Hex. destruct Hex as [E Hex]. destruct Hd as [Hd1 HdK].
      split; [|now apply IH].
      intros k' Hin. apply in_app_or in Hin. destruct Hin as [Hin|[<-|[]]]; auto.
      destruct (value_eqb k1 k) eqn:E1; [|reflexivity].
      destruct k1, k; simpl in *; try discriminate; try congruence;
        try (rewrite Z.eqb_sym in E1; congruence);
        try (rewrite String.eqb_sym in E1; congruence).
      destruct b, b0; simpl in *; congruence.
  - rewrite existsb_app. simpl. rewrite value_eqb_refl by exact Hk. now rewrite orb_true_r.
  - intros k' Hk'. rewrite existsb_app, Hk'. reflexivity.
Qed.

Variable field : string.

Lemma same_key_some (x : Item) (k k1 : Value) :
  field_key field x = Some k -> same_key field k1 x = value_eqb k k1.
Proof. intros H. unfold same_key. now rewrite H. Qed.

Lemma same_key_none (x : Item) (k1 : Value) :
  field_key field x = None -> same_key field k1 x = false.
Proof. intros H. unfold same_key. now rewrite H. Qed.

(** The loop of [find_duplicates_by_field] keeps, for every key met so
    far, the items met so far that have this key. *)
Lemma duplicate_fold : forall rest pre K,
  Forall (fun v => hashable v = true) K -> keys_distinct K ->
  keys_hashable field (pre ++ rest) -> keys_covered field pre K ->
  fold_response (duplicate_step field) rest (map (group_entry field pre) K)
  = Returns (map (group_entry field (pre ++ rest)) (duplicate_keys field rest K)) /\
  Forall (fun v => hashable v = true) (duplicate_keys field rest K) /\
  keys_distinct (duplicate_keys field rest K) /\
  keys_covered field (pre ++ rest) (duplicate_keys field rest K).
Proof.
  induction rest as [|x rest IH]; intros pre K Hh Hd Hhash Hcov.
  - simpl. rewrite app_nil_r. auto.
  - replace (pre ++ x :: rest) with ((pre ++ [x]) ++ rest) in * by now rewrite <- app_assoc.
    simpl. unfold duplicate_step at 1.
    destruct (field_key field x) as [k|] eqn:Hx.
    + assert (Hk : hashable k = true).
      { apply (Hhash x k); [|exact Hx]. apply in_or_app. left. apply in_or_app. right. now left. }
      rewrite Hk.
      destruct (add_key_invariant k K Hk Hh Hd) as (Hh' & Hd' & Hself & Hmono).
      unfold group_entry at 1.
      rewrite (vdict_append_groups k x (fun k' => filter (same_key field k') pre)
                 (fun k' => filter (same_key field k') (pre ++ [x])) Hk K Hh Hd).
      * apply IH; auto.
        intros item k' Hin Hkey. apply in_app_or in Hin. destruct Hin as [Hin|[<-|[]]].
        -- apply Hmono. now apply (Hcov item).
        -- rewrite Hx in Hkey. injection Hkey as <-. exact Hself.
      * intros k1 Hin. rewrite filter_snoc. now rewrite (same_key_some x k k1 Hx).
      * intros Hex. rewrite filter_snoc.
        rewrite (same_key_some x k k Hx), value_eqb_refl by exact Hk.
        rewrite filter_none; [reflexivity|].
        intros item Hin. unfold same_key.
        destruct (field_key field item) as [k'|] eqn:Hitem; [|reflexivity].
        destruct (value_eqb k' k) eqn:E; [|reflexivity].
        assert (Hk' : hashable k' = true).
        { apply (Hhash item k'); [|exact Hitem]. apply in_or_app. left. apply in_or_app. now left. }
        assert (existsb (value_eqb k) K = true).
        { apply (existsb_eqb_trans k k' K); auto.
          - rewrite value_eqb_sym; auto.
          - now apply (Hcov item). }
        congruence.
    + replace (map (group_entry field pre) K) with (map (group_entry field (pre ++ [x])) K).
      * apply IH; auto.
        intros item k' Hin Hkey. apply in_app_or in Hin. destruct Hin as [Hin|[<-|[]]].
        -- now apply (Hcov item).
        -- congruence.
      * apply map_ext. intros k'. unfold group_entry. rewrite filter_snoc.
        rewrite (same_key_none x k' Hx). now rewrite app_nil_r.
Qed.

Lemma keys_distinct_unique (K : list Value) :
  Forall (fun v => hashable v = true) K -> keys_distinct K ->
  forall k1 k2, In k1 K -> In k2 K -> value_eqb k1 k2 = true -> k1 = k2.
Proof.
  induction K as [|k K IH]; intros Hh Hd k1 k2 H1 H2 E; [destruct H1|].
  inversion Hh as [|? ? Hk HhK]; subst. destruct Hd as [Hd1 HdK].
  rewrite Forall_forall in HhK.
  destruct H1 as [<-|H1], H2 as [<-|H2]; auto.
  - rewrite (Hd1 k2 H2) in E. discriminate.
  - rewrite value_eqb_sym in E by auto. rewrite (Hd1 k1 H1) in E. discriminate.
  - apply IH; auto. now apply Forall_forall.
Qed.

End GroupingFacts.

(** ** Duplicate detection *)

Lemma value_eqb_right (a b c : Value) :
  hashable a = true -> hashable b = true -> hashable c = true ->
  value_eqb b c = true -> value_eqb a b = value_eqb a c.
Proof.
  intros Ha Hb Hc E.
  destruct (value_eqb a b) eqn:E1, (value_eqb a c) eqn:E2; auto.
  - rewrite (value_eqb_trans a b c) in E2; auto.
  - rewrite (value_eqb_trans a c b) in E1; auto. rewrite value_eqb_sym; auto.
Qed.

Lemma find_duplicates_body {B : Type} (field : string) (item : Item)
    (by_value : list (Value * list Item)) (w : World B) :
  (let value := dict_get_default field (VStr EmptyString) (item_data item) in
   if truthy value then
     if hashable (duplicate_key value)
     then ret (vdict_append (duplicate_key value) item by_value)
     else raise unhashable
   else ret by_value) w
  = lift (duplicate_step field item by_value) w.
Proof.
  unfold duplicate_step, field_key. cbv zeta.
  destruct (truthy _); [|reflexivity].
  destruct (hashable _); reflexivity.
Qed.

Example find_duplicates_run :
  fst (find_duplicates_by_field Sample.client 5 "DOI"
         (Sample.start [Sample.article "A" "10.1000/XYZ" []; Sample.article "B" "10.2/b" [];
                        Sample.article "C" "10.1000/xyz" []; Sample.article "D" EmptyString []] 200))
  = Ok [(VStr "10.1000/xyz",
         [Sample.article "A" "10.1000/XYZ" []; Sample.article "C" "10.1000/xyz" []])].
Proof. reflexivity. Qed.

(** C4, as the code has it.  An item has a key when the value of its
    field is truthy: the key is the value, a string lowercased.  An item
    whose field is missing or falsy (the empty string, [None], [0],
    [False], an empty list or dict) has no key.  On a library whose keys
    can be hashed (strings, numbers, booleans), [find_duplicates_by_field]
    leaves the world as reading the library does and returns exactly the
    groups of items that share a key, for the keys shared by two items or
    more: a returned group holds precisely the items with its key; every
    item whose key is shared is in a returned group; an item without a key
    is in no group, also when other items hold the same falsy value; and
    an item is in at most one group (in none when no other item shares its
    key). *)
Theorem find_duplicates_groups {B : Type} (zot : Zotero B) (fuel : nat) (field : string)
    (w w' : World B) (items : list Item) :
  list_all_items zot fuel None w = (Ok items, w') ->
  keys_hashable field items ->
  exists groups,
    find_duplicates_by_field zot fuel field w = (Ok groups, w') /\
    (forall k g, In (k, g) groups ->
       g = filter (same_key field k) items /\ 2 <= List.length g) /\
    (forall item k, In item items -> field_key field item = Some k ->
       2 <= List.length (filter (same_key field k) items) ->
       exists k' g, In (k', g) groups /\ In item g) /\
    (forall item, In item items -> field_key field item = None ->
       forall k g, In (k, g) groups -> ~ In item g) /\
    (forall item k1 g1 k2 g2, In (k1, g1) groups -> In (k2, g2) groups ->
       In item g1 -> In item g2 -> k1 = k2 /\ g1 = g2) /\
    (forall item s, dict_get field (item_data item) = Some (VStr s) -> s <> EmptyString ->
       field_key field item = Some (VStr (Str.lower s))) /\
    (forall item,
       field_key field item = None <->
       truthy (dict_get_default field (VStr EmptyString) (item_data item)) = false) /\
    (forall item,
       truthy (dict_get_default field (VStr EmptyString) (item_data item)) = true ->
       field_key field item
       = Some (duplicate_key (dict_get_default field (VStr EmptyString) (item_data item)))).
Proof.
  intros Hlist Hhash.
  destruct (duplicate_fold field items [] [] (Forall_nil _) I Hhash) as (Hfold & Hh & Hd & Hcov).
  { intros item k []. }
  simpl in Hfold, Hh, Hd, Hcov.
  set (K := duplicate_keys field items []) in *.
  exists (filter (fun kv => 1 <? List.length (snd kv)) (map (group_entry field items) K)).
  assert (Hin : forall k g,
            In (k, g) (filter (fun kv => 1 <? List.length (snd kv))
                         (map (group_entry field items) K)) ->
            In k K /\ g = filter (same_key field k) items /\ 2 <= List.length g).
  { intros k g H. apply filter_In in H. destruct H as [H Hlen].
    apply in_map_iff in H. destruct H as (k0 & Heq & Hk0).
    unfold group_entry in Heq. injection Heq as <- <-.
    simpl in Hlen. apply Nat.ltb_lt in Hlen. auto. }
  rewrite Forall_forall in Hh.
  split; [|split; [|split; [|split; [|split; [|split; [|split]]]]]].
  - unfold find_duplicates_by_field, bind.
    rewrite (all_items_fold zot None fuel w w' items Hlist _ (duplicate_step field) _ []
               (map (group_entry field items) K)).
    + reflexivity.
    + intros x a w0. apply find_duplicates_body.
    + exact Hfold.
  - intros k g H. apply Hin in H. tauto.
  - intros item k Hitem Hkey Hlen.
    pose proof (Hcov item k Hitem Hkey) as Hex.
    apply existsb_exists in Hex. destruct Hex as (k' & Hk' & E).
    assert (Hk : hashable k = true) by (apply (Hhash item k); auto).
    assert (Hsame : filter (same_key field k') items = filter (same_key field k) items).
    { apply filter_ext_in. intros it Hit. unfold same_key.
      destruct (field_key field it) as [kk|] eqn:Hkk; [|reflexivity].
      symmetry. apply value_eqb_right; auto. apply (Hhash it kk); auto. }
    exists k', (filter (same_key field k') items). split.
    + apply filter_In. split.
      * apply in_map_iff. exists k'. split; [reflexivity | exact Hk'].
      * simpl. rewrite Hsame. now apply Nat.ltb_lt.
    + apply filter_In. split; [exact Hitem|].
      now rewrite (same_key_some field item k k' Hkey).
  - intros item Hitem Hkey k g H Hing. apply Hin in H. destruct H as (_ & -> & _).
    apply filter_In in Hing. destruct Hing as [_ Hsame].
    rewrite (same_key_none field item k Hkey) in Hsame. discriminate.
  - intros item k1 g1 k2 g2 H1 H2 Hi1 Hi2.
    apply Hin in H1. destruct H1 as (Hk1 & -> & _).
    apply Hin in H2. destruct H2 as (Hk2 & -> & _).
    apply filter_In in Hi1. destruct Hi1 as [Hitem S1].
    apply filter_In in Hi2. destruct Hi2 as [_ S2].
    unfold same_key in S1, S2.
    destruct (field_key field item) as [kk|] eqn:Hkk; [|discriminate].
    assert (Hkkh : hashable kk = true) by (apply (Hhash item kk); auto).
    assert (k1 = k2).
    { apply (keys_distinct_unique K); auto.
      - now apply Forall_forall.
      - apply (value_eqb_trans k1 kk k2); auto.
        rewrite value_eqb_sym; auto. }
    subst k2. auto.
  - intros item s Hget Hs. unfold field_key, dict_get_default. rewrite Hget. simpl.
    destruct (String.eqb s EmptyString) eqn:E; [apply String.eqb_eq in E; contradiction | reflexivity].
  - intros item. unfold field_key. cbv zeta.
    destruct (truthy _); split; intros H; congruence.
  - intros item H. unfold field_key. cbv zeta. now rewrite H.
Qed.

Lemma find_duplicates_groups_witness :
  let a := Sample.article "A" "10.1000/XYZ" [] in
  let c := Sample.article "C" "10.1000/xyz" [] in
  let w := Sample.start [a; c] 200 in
  exists groups,
    find_duplicates_by_field Sample.client 5 "DOI" w
    = (Ok groups, snd (list_all_items Sample.client 5 None w)) /\
    (forall k g, In (k, g) groups ->
       g = filter (same_key "DOI" k) [a; c] /\ 2 <= List.length g).
Proof.
  intros a c w.
  destruct (find_duplicates_groups Sample.client 5 "DOI" w
              (snd (list_all_items Sample.client 5 None w)) [a; c])
    as (groups & Hrun & Hgroups & _).
  - reflexivity.
  - intros item k [<-|[<-|[]]] Hk; vm_compute in Hk; injection Hk as <-; reflexivity.
  - exists groups. split; [exact Hrun | exact Hgroups].
Defined.

(** C4 as stated fails: an item whose DOI no other item shares has a
    non-empty value and yet is in no returned group; two items that share
    the volume [0] are in no group either, because [0] is falsy; and a
    field that holds a list cannot be grouped at all. *)
Lemma find_duplicates_counterexample :
  let item := Sample.article "A" "10.1000/XYZ" [Sample.tag "physics"] in
  let w := Sample.start [item] 200 in
  let zeros := [mkItem "Z1" [("itemType", VStr "book"); ("volume", VInt 0)] None;
                mkItem "Z2" [("itemType", VStr "book"); ("volume", VInt 0)] None] in
  field_key "DOI" item = Some (VStr "10.1000/xyz") /\
  fst (find_duplicates_by_field Sample.client 5 "DOI" w) = Ok [] /\
  ~ (exists groups k g,
       fst (find_duplicates_by_field Sample.client 5 "DOI" w) = Ok groups /\
       In (k, g) groups /\ In item g) /\
  fst (find_duplicates_by_field Sample.client 5 "volume" (Sample.start zeros 200)) = Ok [] /\
  (exists e, fst (find_duplicates_by_field Sample.client 5 "tags" w) = Raised e /\
             exn_class e = TypeError).
Proof.
  intros item w zeros. repeat split.
  - intros (groups & k & g & Hrun & Hin & _).
    vm_compute in Hrun. injection Hrun as <-. destruct Hin.
  - eexists. split; reflexivity.
Qed.

(** ** Tags and their similarity *)

Section TagFacts.

Lemma add_key_cons (v k : Value) (K : list Value) :
  add_key v (k :: K) = if value_eqb v k then k :: K else k :: add_key v K.
Proof.
  unfold add_key. simpl. destruct (value_eqb v k); simpl; [reflexivity|].
  now destruct (existsb (value_eqb v) K).
Qed.

Lemma counter_add_keys (v : Value) (d : list (Value * nat)) :
  map fst (counter_add v d) = add_key v (map fst d).
Proof.
  induction d as [|[k n] d IH]; simpl; [reflexivity|].
  rewrite add_key_cons. destruct (value_eqb v k); simpl; [reflexivity | now rewrite IH].
Qed.

Lemma existsb_str (s : string) (acc : list string) :
  existsb (value_eqb (VStr s)) (map VStr acc) = existsb (String.eqb s) acc.
Proof.
  induction acc as [|a acc IH]; [reflexivity|].
  cbn [existsb map]. rewrite IH. reflexivity.
Qed.

Lemma existsb_eqb_In (s : string) (acc : list string) :
  existsb (String.eqb s) acc = true <-> In s acc.
Proof.
  rewrite existsb_exists. split.
  - intros (x & Hin & E). apply String.eqb_eq in E. now subst.
  - intros H. exists s. split; [exact H | apply String.eqb_refl].
Qed.

Lemma counter_from_strings : forall ts d acc,
  map fst d = map VStr acc ->
  exists counts,
    counter_from (map VStr ts) d = Returns counts /\
    map fst counts = map VStr (dedupe_from ts acc).
Proof.
  induction ts as [|s ts IH]; intros d acc Hd; simpl.
  - exists d. auto.
  - apply IH. rewrite counter_add_keys, Hd. unfold add_key. rewrite existsb_str.
    destruct (existsb (String.eqb s) acc); [reflexivity|].
    now rewrite map_app.
Qed.

Lemma dedupe_from_spec : forall ts acc,
  NoDup acc ->
  NoDup (dedupe_from ts acc) /\
  (forall s, In s (dedupe_from ts acc) <-> In s acc \/ In s ts).
Proof.
  induction ts as [|t ts IH]; intros acc Hnd; simpl.
  - split; [exact Hnd | intros s; tauto].
  - destruct (existsb (String.eqb t) acc) eqn:E.
    + apply existsb_eqb_In in E. destruct (IH acc Hnd) as [H1 H2].
      split; [exact H1|]. intros s. rewrite H2. intuition (subst; auto).
    + assert (Hnot : ~ In t acc).
      { intros Hin. apply existsb_eqb_In in Hin. congruence. }
      assert (Hnd' : NoDup (acc ++ [t])).
      { apply NoDup_app; [exact Hnd | repeat constructor; intros [] |].
        intros x Hx [<-|[]]. contradiction. }
      destruct (IH (acc ++ [t]) Hnd') as [H1 H2].
      split; [exact H1|]. intros s. rewrite H2, in_app_iff. simpl. tauto.
Qed.

Lemma NoDup_map_VStr (l : list string) : NoDup l -> NoDup (map VStr l).
Proof.
  induction 1 as [|x l Hx _ IH]; simpl; constructor; [|exact IH].
  intros Hin. apply in_map_iff in Hin. destruct Hin as (y & Hy & Hin).
  injection Hy as ->. contradiction.
Qed.

Lemma truthy_strings (ns : list string) :
  filter truthy (map VStr ns) = map VStr (filter nonempty ns).
Proof.
  induction ns as [|n ns IH]; simpl; [reflexivity|].
  unfold nonempty at 1. destruct (negb (String.eqb n EmptyString)); simpl; now rewrite IH.
Qed.

(** The loop of [all_tags] over well-formed items. *)
Lemma all_tags_fold (items : list Item) :
  Forall tags_well_formed items ->
  forall acc,
    fold_response
      (fun item tags =>
         match item_tag_names item with
         | Raises e => Raises e
         | Returns names => Returns (tags ++ filter truthy names)
         end)
      items (map VStr acc)
    = Returns (map VStr (acc ++ filter nonempty (flat_map item_tag_strings items))).
Proof.
  induction 1 as [|item items Hwf _ IH]; intros acc; simpl.
  - now rewrite app_nil_r.
  - rewrite Hwf, truthy_strings, <- map_app, IH.
    now rewrite filter_app, app_assoc.
Qed.

Variable sequence_ratio : string -> string -> Q.
Variable threshold : Q.

Lemma is_similar_strings (tag : string) (names : list string) :
  filter_response (is_similar sequence_ratio threshold (VStr tag)) (map VStr names)
  = Returns (map VStr (filter (similar_str sequence_ratio threshold tag) names)).
Proof.
  induction names as [|t names IH]; simpl; [reflexivity|].
  rewrite IH. unfold is_similar, similar_str. simpl.
  destruct (String.eqb t tag); simpl; [reflexivity|].
  now destruct (Qle_bool threshold (sequence_ratio t tag)).
Qed.

Lemma vdict_set_fresh {V : Type} (k : Value) (v : V) (d : list (Value * V)) :
  (forall k' v', In (k', v') d -> value_eqb k k' = false) ->
  vdict_set k v d = d ++ [(k, v)].
Proof.
  induction d as [|[k1 v1] d IH]; intros H; simpl; [reflexivity|].
  rewrite (H k1 v1) by now left.
  rewrite IH; [reflexivity|]. intros k' v' Hin. apply (H k' v'). now right.
Qed.

Lemma similar_entries_keys (names pre : list string) (k : Value) (l : list Value) :
  In (k, l) (similar_entries sequence_ratio threshold names pre) ->
  exists tag,
    In tag pre /\ k = VStr tag /\
    l = map VStr (filter (similar_str sequence_ratio threshold tag) names) /\
    l <> [].
Proof.
  unfold similar_entries. intros H. apply in_flat_map in H.
  destruct H as (tag & Hin & H). exists tag. unfold similar_entry in H.
  destruct (filter (similar_str sequence_ratio threshold tag) names) as [|p ps];
    [destruct H|].
  destruct H as [H|[]]. injection H as <- <-.
  repeat split; auto. discriminate.
Qed.

(** The loop of [similar_tags] adds the entry of each tag in turn. *)
Lemma similar_fold (names : list string) : forall rest pre,
  NoDup (pre ++ rest) ->
  fold_response (similar_step sequence_ratio threshold (map VStr names)) (map VStr rest)
    (similar_entries sequence_ratio threshold names pre)
  = Returns (similar_entries sequence_ratio threshold names (pre ++ rest)).
Proof.
  induction rest as [|tag rest IH]; intros pre Hnd; simpl.
  - now rewrite app_nil_r.
  - replace (pre ++ tag :: rest) with ((pre ++ [tag]) ++ rest) in * by now rewrite <- app_assoc.
    unfold similar_step at 1. rewrite is_similar_strings.
    assert (Hstep : similar_entries sequence_ratio threshold names (pre ++ [tag])
                    = similar_entries sequence_ratio threshold names pre
                      ++ similar_entry sequence_ratio threshold names tag).
    { unfold similar_entries. rewrite flat_map_app. simpl. now rewrite app_nil_r. }
    destruct (filter (similar_str sequence_ratio threshold tag) names) as [|p ps] eqn:Hf.
    + simpl. rewrite <- (IH (pre ++ [tag]) Hnd). f_equal.
      rewrite Hstep. unfold similar_entry. rewrite Hf. now rewrite app_nil_r.
    + cbn [map]. rewrite vdict_set_fresh.
      * rewrite <- (IH (pre ++ [tag]) Hnd). f_equal.
        rewrite Hstep. unfold similar_entry. rewrite Hf. reflexivity.
      * intros k' l' Hin. apply similar_entries_keys in Hin.
        destruct Hin as (t & Hpre & -> & _). simpl.
        apply String.eqb_neq. intros <-.
        apply NoDup_app_remove_r in Hnd. apply NoDup_remove_2 in Hnd.
        apply Hnd. now rewrite app_nil_r.
Qed.

End TagFacts.

Section SimilarTags.

Context {B : Type}.
Variable zot : Zotero B.
Variable sequence_ratio : string -> string -> Q.

(** [all_tags] counts the tags that occur in the library. *)
Lemma all_tags_keys (fuel : nat) (w w' : World B) (items : list Item) :
  list_all_items zot fuel None w = (Ok items, w') ->
  Forall tags_well_formed items ->
  exists counts,
    all_tags zot fuel w = (Ok counts, w') /\
    map fst counts = map VStr (library_tags items).
Proof.
  intros Hlist Hwf.
  destruct (counter_from_strings (filter nonempty (flat_map item_tag_strings items)) [] [] eq_refl)
    as (counts & Hcount & Hkeys).
  exists counts. split; [|exact Hkeys].
  unfold all_tags, bind.
  rewrite (all_items_fold zot None fuel w w' items Hlist _
             (fun item tags =>
                match item_tag_names item with
                | Raises e => Raises e
                | Returns names => Returns (tags ++ filter truthy names)
                end)
             _ [] (map VStr (filter nonempty (flat_map item_tag_strings items)))).
  - unfold counter. rewrite Hcount. reflexivity.
  - intros x a w0. unfold bind, lift. destruct (item_tag_names x); reflexivity.
  - apply (all_tags_fold items Hwf []).
Qed.

Lemma similar_tags_body (threshold : Q) (tags : list Value) (tag : Value)
    (result : list (Value * list Value)) (w : World B) :
  (similar <- lift (filter_response (is_similar sequence_ratio threshold tag) tags) ;;
   match similar with
   | [] => ret result
   | _ :: _ => ret (vdict_set tag similar result)
   end) w
  = lift (similar_step sequence_ratio threshold tags tag result) w.
Proof.
  unfold bind, lift, similar_step.
  destruct (filter_response _ tags) as [[|p ps]|e]; reflexivity.
Qed.

Lemma similar_tags_entries (fuel : nat) (threshold : Q) (w w' : World B) (items : list Item) :
  list_all_items zot fuel None w = (Ok items, w') ->
  Forall tags_well_formed items ->
  similar_tags zot sequence_ratio fuel threshold w
  = (Ok (similar_entries sequence_ratio threshold (library_tags items) (library_tags items)), w').
Proof.
  intros Hlist Hwf.
  destruct (all_tags_keys fuel w w' items Hlist Hwf) as (counts & Htags & Hkeys).
  unfold similar_tags, bind. rewrite Htags, Hkeys.
  rewrite (for_each_lift (similar_step sequence_ratio threshold (map VStr (library_tags items)))).
  - pose proof (similar_fold sequence_ratio threshold (library_tags items)
                  (library_tags items) []) as Hfold.
    simpl in Hfold. rewrite Hfold; [reflexivity|].
    apply dedupe_from_spec. constructor.
  - intros x a w0. apply similar_tags_body.
Qed.

End SimilarTags.

Example similar_tags_run :
  let ratio := fun a b : string => if String.eqb (Str.lower a) (Str.lower b) then 1%Q else 0%Q in
  fst (similar_tags Sample.client ratio 5 (8 # 10)
         (Sample.start [Sample.article "A" "10.1/a" [Sample.tag "ML"; Sample.tag "physics"];
                        Sample.article "B" "10.1/b" [Sample.tag "ml"; Sample.tag EmptyString]] 200))
  = Ok [(VStr "ML", [VStr "ml"]); (VStr "ml", [VStr "ML"])].
Proof. reflexivity. Qed.

(** C6. On a library whose tags are objects with string names,
    [similar_tags] with threshold [t] returns one entry for each tag
    that occurs in the library and has a partner, and none for the other
    tags; the entry of a tag lists exactly the other tags of the library
    whose [SequenceMatcher] ratio against it is at least [t], each once,
    and never the tag itself.  The tags that occur are the non-empty tag
    names of the items, as [all_tags] counts them. *)
Theorem similar_tags_groups {B : Type} (zot : Zotero B) (sequence_ratio : string -> string -> Q)
    (fuel : nat) (threshold : Q) (w w' : World B) (items : list Item) :
  list_all_items zot fuel None w = (Ok items, w') ->
  Forall tags_well_formed items ->
  let tags := library_tags items in
  let partner tag t := In t tags /\ t <> tag /\ (threshold <= sequence_ratio t tag)%Q in
  exists result,
    similar_tags zot sequence_ratio fuel threshold w = (Ok result, w') /\
    (forall s, In s tags <->
       s <> EmptyString /\ exists item, In item items /\ In s (item_tag_strings item)) /\
    (forall k similar, In (k, similar) result ->
       exists tag,
         k = VStr tag /\ In tag tags /\ ~ In k similar /\ NoDup similar /\
         (forall v, In v similar <-> exists t, v = VStr t /\ partner tag t)) /\
    (forall tag, In tag tags ->
       (exists similar, In (VStr tag, similar) result) <-> (exists t, partner tag t)) /\
    (forall k similar similar', In (k, similar) result -> In (k, similar') result ->
       similar = similar').
Proof.
  intros Hlist Hwf tags partner.
  exists (similar_entries sequence_ratio threshold tags tags).
  assert (Hnd : NoDup tags) by (apply dedupe_from_spec; constructor).
  assert (Hpartner : forall tag t,
            In t (filter (similar_str sequence_ratio threshold tag) tags) <-> partner tag t).
  { intros tag t. rewrite filter_In. unfold similar_str, partner.
    rewrite andb_true_iff, negb_true_iff, String.eqb_neq, Qle_bool_iff. tauto. }
  split; [now apply similar_tags_entries|].
  split; [|split; [|split]].
  - intros s. unfold tags, library_tags.
    destruct (dedupe_from_spec (filter nonempty (flat_map item_tag_strings items)) []
                (NoDup_nil _)) as [_ Hin].
    rewrite Hin, filter_In, in_flat_map. unfold nonempty.
    rewrite negb_true_iff, String.eqb_neq. simpl. tauto.
  - intros k similar Hin. apply similar_entries_keys in Hin.
    destruct Hin as (tag & Htag & -> & -> & Hne).
    exists tag. repeat split; auto.
    + intros Hself. apply in_map_iff in Hself. destruct Hself as (t & Ht & Hin).
      injection Ht as ->. apply Hpartner in Hin. destruct Hin as (_ & Hneq & _). now apply Hneq.
    + apply NoDup_map_VStr. now apply NoDup_filter.
    + intros Hv. apply in_map_iff in Hv. destruct Hv as (t & <- & Hin).
      exists t. split; [reflexivity | now apply Hpartner].
    + intros (t & -> & Hp). apply in_map. now apply Hpartner.
  - intros tag Htag. split.
    + intros (similar & Hin). apply similar_entries_keys in Hin.
      destruct Hin as (tag' & _ & Heq & -> & Hne). injection Heq as <-.
      destruct (filter (similar_str sequence_ratio threshold tag) tags) as [|t ts] eqn:Hf;
        [contradiction|].
      exists t. apply Hpartner. rewrite Hf. now left.
    + intros (t & Hp). apply Hpartner in Hp.
      exists (map VStr (filter (similar_str sequence_ratio threshold tag) tags)).
      unfold similar_entries. apply in_flat_map. exists tag. split; [exact Htag|].
      unfold similar_entry.
      destruct (filter (similar_str sequence_ratio threshold tag) tags); [destruct Hp | now left].
  - intros k similar similar' H1 H2.
    apply similar_entries_keys in H1. destruct H1 as (t1 & _ & -> & -> & _).
    apply similar_entries_keys in H2. destruct H2 as (t2 & _ & Heq & -> & _).
    injection Heq as <-. reflexivity.
Qed.

Lemma similar_tags_groups_witness :
  let ratio := fun a b : string => if String.eqb (Str.lower a) (Str.lower b) then 1%Q else 0%Q in
  let items := [Sample.article "A" "10.1/a" [Sample.tag "ML"; Sample.tag "physics"];
                Sample.article "B" "10.1/b" [Sample.tag "ml"; Sample.tag EmptyString]] in
  let w := Sample.start items 200 in
  exists result,
    similar_tags Sample.client ratio 5 default_threshold w
    = (Ok result, snd (list_all_items Sample.client 5 None w)) /\
    (forall k similar similar', In (k, similar) result -> In (k, similar') result ->
       similar = similar').
Proof.
  intros ratio items w.
  destruct (similar_tags_groups Sample.client ratio 5 default_threshold w
              (snd (list_all_items Sample.client 5 None w)) items)
    as (result & Hrun & _ & _ & _ & Hunique).
  - reflexivity.
  - repeat constructor.
  - exists result. split; [exact Hrun | exact Hunique].
Defined.

(** ** Adding tags *)

Section AddTags.

Lemma value_in_str (t : string) (l : list Value) :
  value_in (VStr t) l = true <-> In (VStr t) l.
Proof.
  unfold value_in. rewrite existsb_exists. split.
  - intros (v & Hin & E). destruct v; simpl in E; try discriminate.
    apply String.eqb_eq in E. now subst.
  - intros H. exists (VStr t). split; [exact H | apply String.eqb_refl].
Qed.

(** What the loop over the requested tags appends to a list of names. *)
Lemma add_missing_tags_spec : forall tags existing,
  exists added,
    add_missing_tags tags existing = existing ++ added /\
    NoDup added /\
    (forall v, In v added <-> exists t, v = VStr t /\ In t tags /\ ~ In (VStr t) existing).
Proof.
  unfold add_missing_tags.
  induction tags as [|t tags IH]; intros existing; simpl.
  - exists []. rewrite app_nil_r. repeat split; [constructor | intros [] |].
    intros (t & _ & [] & _).
  - destruct (value_in (VStr t) existing) eqn:E.
    + apply value_in_str in E.
      destruct (IH existing) as (added & Heq & Hnd & Hin).
      exists added. repeat split; auto.
      * intros Hv. apply Hin in Hv. destruct Hv as (t' & -> & Ht' & Hnot).
        exists t'. auto.
      * intros (t' & -> & [<-|Ht'] & Hnot); [contradiction|].
        apply Hin. exists t'. auto.
    + assert (Hnot : ~ In (VStr t) existing).
      { intros Hin. apply value_in_str in Hin. congruence. }
      destruct (IH (existing ++ [VStr t])) as (added & Heq & Hnd & Hin).
      exists (VStr t :: added). rewrite Heq, <- app_assoc. repeat split; auto.
      * constructor; [|exact Hnd].
        intros Hv. apply Hin in Hv. destruct Hv as (t' & Ht' & _ & Hnot').
        injection Ht' as <-. apply Hnot'. apply in_or_app. right. now left.
      * intros [<-|Hv].
        -- exists t. auto.
        -- apply Hin in Hv. destruct Hv as (t' & -> & Ht' & Hnot').
           exists t'. repeat split; auto.
           intros Hex. apply Hnot'. apply in_or_app. now left.
      * intros (t' & -> & Ht' & Hnot').
        destruct (string_dec t t') as [<-|Hneq]; [now left|].
        right. apply Hin. exists t'. repeat split; auto.
        -- destruct Ht' as [->|Ht']; [contradiction | exact Ht'].
        -- intros Hex. apply in_app_or in Hex. destruct Hex as [Hex|[Hex|[]]]; auto.
           injection Hex as ->. contradiction.
Qed.

Lemma add_missing_tags_present (tags : list string) (existing : list Value) :
  (forall t, In t tags -> In (VStr t) existing) ->
  add_missing_tags tags existing = existing.
Proof.
  intros Hall. destruct (add_missing_tags_spec tags existing) as (added & -> & _ & Hin).
  destruct added as [|v added]; [now rewrite app_nil_r|].
  destruct (proj1 (Hin v) (or_introl eq_refl)) as (t & _ & Ht & Hnot).
  exfalso. apply Hnot. now apply Hall.
Qed.

End AddTags.

Example add_tags_to_item_run :
  let item := Sample.article "A" "10.1/a" [Sample.tag "physics"; Sample.tag "ml"] in
  log (snd (add_tags_to_item Sample.client "A" ["ml"; "new"; "new"] (Sample.start [item] 200)))
  = [ReqItem "A";
     ReqUpdateItem (Sample.article "A" "10.1/a"
                      [Sample.tag "physics"; Sample.tag "ml"; Sample.tag "new"])].
Proof. reflexivity. Qed.

(** C9, as the code has it.  [add_tags_to_item] reads the item and, when
    its tags can be read, sends one update whose tag objects are rebuilt
    from names: the names already on the item come first, in their
    order; after them each requested name that was not on the item, once;
    and when every requested name is already on the item the submitted
    list of names is the existing list of names.  The submitted objects
    hold the name only. *)
Theorem add_tags_to_item_names {B : Type} (zot : Zotero B) (item_key : string)
    (tags : list string) (w : World B) (item : Item) (b1 : B) (existing : list Value) :
  zot_item zot item_key (backend w) = (Returns item, b1) ->
  existing_tags_of item = Returns existing ->
  exists added,
    let submitted := existing ++ added in
    log (snd (add_tags_to_item zot item_key tags w))
    = log w ++ [ReqItem item_key;
                ReqUpdateItem (set_data "tags" (tag_dicts submitted) item)] /\
    NoDup added /\
    (forall v, In v added <-> exists t, v = VStr t /\ In t tags /\ ~ In (VStr t) existing) /\
    ((forall t, In t tags -> In (VStr t) existing) -> submitted = existing).
Proof.
  intros Hitem Hexisting.
  destruct (add_missing_tags_spec tags existing) as (added & Heq & Hnd & Hin).
  exists added. cbv zeta. repeat split; auto.
  - unfold add_tags_to_item, get_item, bind, call at 1. rewrite Hitem.
    rewrite Hexisting. cbn [lift ret]. rewrite Heq.
    unfold call. cbn [backend log library_cache].
    destruct (zot_update_item zot _ b1) as [[v|e] b2]; simpl; now rewrite <- app_assoc.
  - apply Hin.
  - apply Hin.
  - intros Hall. rewrite <- Heq. now apply add_missing_tags_present.
Qed.

Lemma add_tags_to_item_names_witness :
  let item := Sample.article "A" "10.1/a" [Sample.tag "physics"; Sample.tag "ml"] in
  let existing := [VStr "physics"; VStr "ml"] in
  exists added,
    log (snd (add_tags_to_item Sample.client "A" ["ml"; "new"; "new"] (Sample.start [item] 200)))
    = [ReqItem "A"; ReqUpdateItem (set_data "tags" (tag_dicts (existing ++ added)) item)] /\
    NoDup added.
Proof.
  intros item existing.
  destruct (add_tags_to_item_names Sample.client "A" ["ml"; "new"; "new"]
              (Sample.start [item] 200) item (Sample.mkStore [item] 200) existing)
    as (added & Hlog & Hnd & _).
  - reflexivity.
  - reflexivity.
  - exists added. split; [exact Hlog | exact Hnd].
Defined.

(** C9 as stated fails on the tag objects: a tag the item carries with a
    ["type"] attribute is submitted without it, so the tag list sent to
    the API is not the item's existing tag list although every requested
    tag is already on the item. *)
Lemma add_tags_to_item_counterexample :
  let existing := VList [Sample.automatic_tag "physics"] in
  let item := Sample.article "A" "10.1/a" [Sample.automatic_tag "physics"] in
  exists submitted,
    dict_get "tags" (item_data item) = Some existing /\
    log (snd (add_tags_to_item Sample.client "A" ["physics"] (Sample.start [item] 200)))
    = [ReqItem "A"; ReqUpdateItem submitted] /\
    dict_get "tags" (item_data submitted) = Some (VList [Sample.tag "physics"]) /\
    dict_get "tags" (item_data submitted) <> Some existing.
Proof.
  intros existing item.
  exists (Sample.article "A" "10.1/a" [Sample.tag "physics"]).
  repeat split. discriminate.
Qed.

(** ** The snapshot cache *)

Section CacheFacts.

Context {B : Type}.
Variable zot : Zotero B.
Variable env : Env.
Variable format_value : Value -> string.

Lemma keeps_ret {A : Type} (a : A) : keeps_cache (@ret B A a).
Proof. intros w. reflexivity. Qed.

Lemma keeps_raise {A : Type} (e : Exn) : keeps_cache (@raise B A e).
Proof. intros w. reflexivity. Qed.

Lemma keeps_out_of_fuel {A : Type} : keeps_cache (@out_of_fuel B A).
Proof. intros w. reflexivity. Qed.

Lemma keeps_lift {A : Type} (r : Response A) : keeps_cache (@lift B A r).
Proof. destruct r; intros w; reflexivity. Qed.

Lemma keeps_call {A : Type} (req : Request) (f : B -> Response A * B) :
  keeps_cache (call req f).
Proof. intros w. unfold call. destruct (f (backend w)) as [[a|e] b']; reflexivity. Qed.

Lemma keeps_bind {A C : Type} (m : M B A) (k : A -> M B C) :
  keeps_cache m -> (forall a, keeps_cache (k a)) -> keeps_cache (bind m k).
Proof.
  intros Hm Hk w. unfold bind. specialize (Hm w).
  destruct (m w) as [[a|e|] w1]; simpl in *; [rewrite Hk|..]; exact Hm.
Qed.

Lemma keeps_try {A : Type} (m : M B A) (h : Exn -> M B A) :
  keeps_cache m -> (forall e, keeps_cache (h e)) -> keeps_cache (try_except m h).
Proof.
  intros Hm Hh w. unfold try_except. specialize (Hm w).
  destruct (m w) as [[a|e|] w1]; simpl in *; [|rewrite Hh|]; exact Hm.
Qed.

Lemma keeps_for_each {A S : Type} (body : A -> S -> M B S) (xs : list A) :
  (forall x acc, keeps_cache (body x acc)) -> forall acc, keeps_cache (for_each body xs acc).
Proof.
  intros Hb. induction xs as [|x xs IH]; intros acc; simpl.
  - apply keeps_ret.
  - apply keeps_bind; auto.
Qed.

Lemma keeps_all_items_from {S : Type} (itemType : option string) (body : Item -> S -> M B S) :
  (forall x acc, keeps_cache (body x acc)) ->
  forall fuel start acc, keeps_cache (_all_items_from zot fuel itemType body start acc).
Proof.
  intros Hb. induction fuel as [|fuel IH]; intros start acc; cbn [_all_items_from].
  - apply keeps_out_of_fuel.
  - apply keeps_bind; [apply keeps_call|]. intros [|x xs]; [apply keeps_ret|].
    apply keeps_bind; [now apply keeps_for_each|]. intros acc'.
    destruct (_ <? _); [apply keeps_ret | apply IH].
Qed.

End CacheFacts.

Ltac keeps_cache :=
  repeat first
    [ apply keeps_ret | apply keeps_raise | apply keeps_lift | apply keeps_call
    | apply keeps_bind; [|intros ?]
    | apply keeps_try; [|intros ?]
    | apply keeps_for_each; intros ? ?
    | apply keeps_all_items_from; intros ? ?
    | match goal with
      | |- keeps_cache (if ?x then _ else _) => destruct x
      | |- keeps_cache (let (_, _) := ?x in _) => destruct x
      | |- keeps_cache (match ?x with _ => _ end) => destruct x
      end ].

Section CacheTheorems.

Context {B : Type}.
Variable zot : Zotero B.
Variable env : Env.
Variable format_value : Value -> string.

Lemma keeps_batch (op : string -> M B Value) (item_keys : list string) :
  (forall k, keeps_cache (op k)) -> keeps_cache (batch op item_keys).
Proof. intros Hop. unfold batch. keeps_cache. apply Hop. Qed.

Lemma keeps_update_item_fields k fields : keeps_cache (update_item_fields zot k fields).
Proof. unfold update_item_fields, get_item. keeps_cache. Qed.

Lemma keeps_add_tags_to_item k tags : keeps_cache (add_tags_to_item zot k tags).
Proof. unfold add_tags_to_item, get_item. keeps_cache. Qed.

Lemma keeps_remove_tags_from_item k tags : keeps_cache (remove_tags_from_item zot k tags).
Proof. unfold remove_tags_from_item, get_item. keeps_cache. Qed.

Lemma keeps_move_item_to_collection k c : keeps_cache (move_item_to_collection zot k c).
Proof. unfold move_item_to_collection, get_item. keeps_cache. Qed.

Lemma keeps_add_item_to_collection k c : keeps_cache (add_item_to_collection zot k c).
Proof. unfold add_item_to_collection, get_item. keeps_cache. Qed.

Lemma keeps_delete_item k : keeps_cache (delete_item zot k).
Proof. unfold delete_item. keeps_cache. Qed.

Lemma keeps_merge_collections sources target :
  keeps_cache (merge_collections zot env sources target).
Proof.
  unfold merge_collections, merge_collection_items. keeps_cache.
Qed.

Lemma keeps_merge_tags fuel sources target : keeps_cache (merge_tags zot fuel sources target).
Proof. unfold merge_tags, _all_items. keeps_cache. Qed.

Lemma keeps_upload_pdf parent path title :
  keeps_cache (upload_pdf zot env format_value parent path title).
Proof. unfold upload_pdf, upload_pdf_handler. keeps_cache. Qed.

Lemma keeps_replace_attachment k path : keeps_cache (replace_attachment zot env k path).
Proof. unfold replace_attachment, replace_attachment_handler. keeps_cache. Qed.

Lemma keeps_run_write_op (op : WriteOp) :
  keeps_cache (run_write_op zot env format_value op).
Proof.
  destruct op; cbn [run_write_op]; unfold discard;
    (apply keeps_bind; [|intros ?; apply keeps_ret]).
  - apply keeps_update_item_fields.
  - apply keeps_add_tags_to_item.
  - apply keeps_remove_tags_from_item.
  - apply keeps_move_item_to_collection.
  - apply keeps_add_item_to_collection.
  - apply keeps_delete_item.
  - apply keeps_merge_collections.
  - apply keeps_merge_tags.
  - apply keeps_batch. intros k. apply keeps_update_item_fields.
  - apply keeps_batch. intros k. apply keeps_add_tags_to_item.
  - apply keeps_batch. intros k. apply keeps_remove_tags_from_item.
  - apply keeps_batch. intros k. apply keeps_move_item_to_collection.
  - apply keeps_batch. intros k. apply keeps_delete_item.
  - apply keeps_upload_pdf.
  - apply keeps_replace_attachment.
Qed.

End CacheTheorems.

Section MoreCacheTheorems.

Context {B : Type}.
Variable zot : Zotero B.
Variable format_value : Value -> string.

Lemma keeps_run_edit_op (op : EditOp) : keeps_cache (run_edit_op zot format_value op).
Proof.
  destruct op; cbn [run_edit_op]; (apply keeps_bind; [|intros ?; apply keeps_ret]).
  - unfold remove_item_from_collection, get_item. keeps_cache.
  - unfold add_citation_relation, get_item. keeps_cache.
  - unfold delete_attachment. keeps_cache.
  - unfold update_note. keeps_cache.
  - unfold delete_note. keeps_cache.
  - unfold rename_tag, _all_items, retag_item. keeps_cache.
  - unfold delete_tag, _all_items, retag_item. keeps_cache.
  - unfold convert_item_type. keeps_cache.
Qed.

End MoreCacheTheorems.

(** C2, as the code has it.  None of the write functions embedded here
    touches the attribute [_library_cache]: the single-item editors
    ([update_item_fields], [add_tags_to_item], [remove_tags_from_item],
    [move_item_to_collection], [add_item_to_collection],
    [remove_item_from_collection], [delete_item],
    [add_citation_relation], [convert_item_type]), the editors of notes
    and attachments ([update_note], [delete_note], [delete_attachment]),
    the library-wide ones ([merge_collections], [merge_tags],
    [rename_tag], [delete_tag]), the five batch operations and the two
    uploads ([upload_pdf], [replace_attachment]).  Once the snapshot is
    stored, it is still stored after any of them, and
    [_get_library_with_children] goes on returning that same list
    without sending a request. *)
Theorem library_cache_survives_writes {B : Type} (zot : Zotero B) (env : Env)
    (format_value : Value -> string) (op : WriteOp + EditOp) (fuel : nat) (w : World B)
    (cached : list Item) :
  library_cache w = Some cached ->
  let w' := snd (match op with
                 | inl op => run_write_op zot env format_value op w
                 | inr op => run_edit_op zot format_value op w
                 end) in
  library_cache w' = Some cached /\
  _get_library_with_children zot fuel w' = (Ok cached, w').
Proof.
  intros Hcache w'.
  assert (H : library_cache w' = Some cached).
  { unfold w'. destruct op as [op|op];
      [now rewrite keeps_run_write_op | now rewrite keeps_run_edit_op]. }
  split; [exact H|].
  unfold _get_library_with_children. now rewrite H.
Qed.

Lemma library_cache_survives_writes_witness :
  let a := Sample.article "A" "10.1/a" [Sample.tag "old"] in
  let b := Sample.article "B" "10.1/b" [] in
  let cached := [set_children [] a; set_children [] b] in
  let w1 := snd (_get_library_with_children Sample.client 5 (Sample.start [a; b] 200)) in
  let w2 := snd (run_write_op Sample.client Sample.files Sample.format_value
                   (OpDeleteItem "A") w1) in
  let w3 := snd (run_edit_op Sample.client Sample.format_value (OpDeleteTag 5 "old") w1) in
  (library_cache w2 = Some cached /\
   _get_library_with_children Sample.client 5 w2 = (Ok cached, w2)) /\
  (library_cache w3 = Some cached /\
   _get_library_with_children Sample.client 5 w3 = (Ok cached, w3)).
Proof.
  intros a b cached w1 w2 w3. split.
  - apply (library_cache_survives_writes Sample.client Sample.files Sample.format_value
             (inl (OpDeleteItem "A")) 5 w1 cached).
    reflexivity.
  - apply (library_cache_survives_writes Sample.client Sample.files Sample.format_value
             (inr (OpDeleteTag 5 "old")) 5 w1 cached).
    reflexivity.
Defined.

(** C2 as stated fails: after [delete_item] and after
    [update_item_fields] the snapshot is still stored, and the next
    [_get_library_with_children] returns the stale list, with the
    deleted item in it and the old title, without sending a request. *)
Lemma library_cache_counterexample :
  let a := Sample.article "A" "10.1/a" [] in
  let b := Sample.article "B" "10.1/b" [] in
  let stale := [set_children [] a; set_children [] b] in
  let w1 := snd (_get_library_with_children Sample.client 5 (Sample.start [a; b] 200)) in
  let w2 := snd (delete_item Sample.client "A" w1) in
  let w3 := snd (update_item_fields Sample.client "B" [("title", VStr "New title")] w2) in
  Sample.library (backend w3) = [set_data "title" (VStr "New title") b] /\
  library_cache w2 = Some stale /\
  library_cache w3 = Some stale /\
  _get_library_with_children Sample.client 5 w3 = (Ok stale, w3) /\
  log w3 = log w1 ++ [ReqDeleteItem "A"; ReqItem "B";
                      ReqUpdateItem (set_data "title" (VStr "New title") b)].
Proof. repeat split. Qed.

(** ** Round trips and exceptions on the write side *)

Section WriteFacts.

Context {B : Type}.
Variable zot : Zotero B.
Variable env : Env.

Lemma keeps_backend_ret {A : Type} (Inv : B -> Prop) (a : A) : keeps_backend Inv (@ret B A a).
Proof. intros w H. exact H. Qed.

Lemma keeps_backend_lift {A : Type} (Inv : B -> Prop) (r : Response A) :
  keeps_backend Inv (@lift B A r).
Proof. destruct r; intros w H; exact H. Qed.

Lemma keeps_backend_call {A : Type} (Inv : B -> Prop) (req : Request)
    (f : B -> Response A * B) :
  (forall b, Inv b -> Inv (snd (f b))) -> keeps_backend Inv (call req f).
Proof.
  intros Hf w H. unfold call. specialize (Hf (backend w) H).
  destruct (f (backend w)) as [[a|e] b']; exact Hf.
Qed.

Lemma keeps_backend_bind {A C : Type} (Inv : B -> Prop) (m : M B A) (k : A -> M B C) :
  keeps_backend Inv m -> (forall a, keeps_backend Inv (k a)) -> keeps_backend Inv (bind m k).
Proof.
  intros Hm Hk w H. unfold bind. specialize (Hm w H).
  destruct (m w) as [[a|e|] w1]; simpl in *; [now apply Hk | exact Hm | exact Hm].
Qed.

Lemma keeps_backend_try {A : Type} (Inv : B -> Prop) (m : M B A) (h : Exn -> M B A) :
  keeps_backend Inv m -> (forall e, keeps_backend Inv (h e)) ->
  keeps_backend Inv (try_except m h).
Proof.
  intros Hm Hh w H. unfold try_except. specialize (Hm w H).
  destruct (m w) as [[a|e|] w1]; simpl in *; [exact Hm | now apply Hh | exact Hm].
Qed.

Lemma keeps_backend_for_each {A S : Type} (Inv : B -> Prop) (body : A -> S -> M B S)
    (xs : list A) :
  (forall x acc, keeps_backend Inv (body x acc)) ->
  forall acc, keeps_backend Inv (for_each body xs acc).
Proof.
  intros Hb. induction xs as [|x xs IH]; intros acc; simpl.
  - apply keeps_backend_ret.
  - apply keeps_backend_bind; auto.
Qed.

(** The loop of [_all_items] ends within [n + 1] rounds when the page at
    offset [100 n] is short, whatever a well-behaved body does between
    the requests. *)
Lemma all_items_from_ends {St : Type} (Inv : B -> Prop) (n : nat)
    (body : Item -> St -> M B St) :
  (forall start b, Inv b -> Inv (snd (zot_items zot start limit None b))) ->
  (forall b, Inv b -> short_or_raises (fst (zot_items zot (n * limit) limit None b))) ->
  (forall x acc, fuel_free (body x acc)) ->
  (forall x acc, keeps_backend Inv (body x acc)) ->
  forall d j fuel acc w,
    j + d = n -> d < fuel -> Inv (backend w) ->
    fst (_all_items_from zot fuel None body (j * limit) acc w) <> OutOfFuel.
Proof.
  intros Hread Hshort Hfree Hkeep.
  induction d as [|d IH]; intros j fuel acc w Hj Hfuel Hinv;
    (destruct fuel as [|fuel]; [lia|]);
    cbn [_all_items_from]; unfold bind at 1, call;
    pose proof (Hread (j * limit) (backend w) Hinv) as Hinv1;
    pose proof (Hshort (backend w) Hinv) as Hs;
    destruct (zot_items zot (j * limit) limit None (backend w)) as [[page|e] b1] eqn:E;
    simpl in Hinv1; try (simpl; discriminate);
    (destruct page as [|x xs]; [simpl; discriminate|]);
    unfold bind;
    set (w1 := mkWorld b1 (log w ++ [ReqItems (j * limit) limit None]) (library_cache w));
    pose proof (fuel_free_for_each body (x :: xs) Hfree acc w1) as Hf;
    pose proof (keeps_backend_for_each Inv body (x :: xs) Hkeep acc w1 Hinv1) as Hk;
    destruct (for_each body (x :: xs) acc w1) as [[acc'|e|] w2];
    simpl in Hf, Hk; try (simpl; discriminate); try congruence;
    destruct (List.length (x :: xs) <? limit) eqn:Hlen; try (simpl; discriminate).
  - exfalso. rewrite Nat.add_0_r in Hj. subst j. rewrite E in Hs. simpl in Hs.
    apply Nat.ltb_ge in Hlen. unfold limit in Hlen. simpl in Hlen. lia.
  - rewrite (Nat.add_comm (j * limit) limit).
    change (limit + j * limit) with (S j * limit).
    apply IH; [lia | lia | exact Hk].
Qed.

Lemma update_item_fields_trips (item_key : string) (fields : Dict) (w : World B) :
  match zot_item zot item_key (backend w) with
  | (Raises e, b1) =>
      update_item_fields zot item_key fields w
      = (Raised e, mkWorld b1 (log w ++ [ReqItem item_key]) (library_cache w))
  | (Returns item, b1) =>
      let item' := apply_fields fields item in
      update_item_fields zot item_key fields w
      = (outcome_of (fst (zot_update_item zot item' b1)),
         mkWorld (snd (zot_update_item zot item' b1))
                 (log w ++ [ReqItem item_key; ReqUpdateItem item']) (library_cache w))
  end.
Proof.
  destruct (zot_item zot item_key (backend w)) as [[item|e] b1] eqn:E;
    unfold update_item_fields, get_item, bind; unfold call at 1; rewrite E; [|reflexivity].
  cbv zeta. unfold call. cbn [backend log library_cache].
  destruct (zot_update_item zot _ b1) as [[v|e] b2]; simpl; now rewrite <- app_assoc.
Qed.

Lemma add_tags_to_item_trips (item_key : string) (tags : list string) (w : World B) :
  match zot_item zot item_key (backend w) with
  | (Raises e, b1) =>
      add_tags_to_item zot item_key tags w
      = (Raised e, mkWorld b1 (log w ++ [ReqItem item_key]) (library_cache w))
  | (Returns item, b1) =>
      match existing_tags_of item with
      | Raises e =>
          add_tags_to_item zot item_key tags w
          = (Raised e, mkWorld b1 (log w ++ [ReqItem item_key]) (library_cache w))
      | Returns existing =>
          let item' := set_data "tags" (tag_dicts (add_missing_tags tags existing)) item in
          add_tags_to_item zot item_key tags w
          = (outcome_of (fst (zot_update_item zot item' b1)),
             mkWorld (snd (zot_update_item zot item' b1))
                     (log w ++ [ReqItem item_key; ReqUpdateItem item']) (library_cache w))
      end
  end.
Proof.
  destruct (zot_item zot item_key (backend w)) as [[item|e] b1] eqn:E;
    [destruct (existing_tags_of item) as [existing|e] eqn:Et|];
    unfold add_tags_to_item, get_item, bind; unfold call at 1; rewrite E;
    [rewrite Et | rewrite Et; reflexivity | reflexivity].
  cbv zeta. cbn [lift ret]. unfold call. cbn [backend log library_cache].
  destruct (zot_update_item zot _ b1) as [[v|e] b2]; simpl; now rewrite <- app_assoc.
Qed.

Lemma merge_tags_catches (fuel : nat) (source_tags : list string) (target_tag : string)
    (w : World B) :
  (forall e, fst (merge_tags zot fuel source_tags target_tag w) <> Raised e) /\
  (forall v, fst (merge_tags zot fuel source_tags target_tag w) = Ok v -> success_dict v).
Proof.
  unfold merge_tags, try_except, bind.
  destruct (_all_items zot fuel None _ 0 w) as [[n|e|] w1]; simpl; split;
    try discriminate; intros v H; try discriminate;
    injection H as <-; eexists; eexists; reflexivity.
Qed.

Lemma merge_tags_ends (Inv : B -> Prop) (n fuel : nat) (source_tags : list string)
    (target_tag : string) (w : World B) :
  bounded_library zot Inv n -> Inv (backend w) -> n < fuel ->
  fst (merge_tags zot fuel source_tags target_tag w) <> OutOfFuel.
Proof.
  intros (Hread & Hupdate & Hshort) Hinv Hfuel.
  assert (Hend : fst (_all_items zot fuel None (merge_tags_item zot source_tags target_tag) 0 w)
                 <> OutOfFuel).
  { apply (all_items_from_ends Inv n (merge_tags_item zot source_tags target_tag)
             (fun s b => Hread s None b) Hshort) with (d := n) (j := 0); auto.
    - intros x acc. unfold merge_tags_item. fuel_free.
    - intros x acc. unfold merge_tags_item.
      apply keeps_backend_bind; [apply keeps_backend_lift|]. intros names.
      destruct (merged_tags _ _ _) as [new_tags [|]]; [|apply keeps_backend_ret].
      apply keeps_backend_try; [|intros ?; apply keeps_backend_ret].
      apply keeps_backend_bind; [|intros ?; apply keeps_backend_ret].
      apply keeps_backend_call. apply Hupdate. }
  unfold merge_tags, try_except, bind.
  destruct (_all_items zot fuel None _ 0 w) as [[k|e|] w1]; simpl in *;
    [discriminate | discriminate | congruence].
Qed.

Lemma merge_collections_returns (source_keys : list string) (target_key : string)
    (w : World B) :
  exists v w', merge_collections zot env source_keys target_key w = (Ok v, w') /\ success_dict v.
Proof.
  unfold merge_collections, try_except.
  match goal with
  | |- context [match ?body w with _ => _ end] =>
      assert (Hfree : fuel_free body);
      [|specialize (Hfree w); destruct (body w) as [[v|e|] w1] eqn:E]
  end.
  - unfold merge_collection_items. fuel_free.
  - exists v, w1. split; [reflexivity|].
    unfold bind in E.
    destruct (for_each _ source_keys (0, []) w) as [[[moved failed_sources]|?|] w2];
      try discriminate.
    destruct (for_each _ source_keys tt w2) as [[[]|?|] w3]; try discriminate.
    destruct failed_sources; injection E as <- <-; eexists; eexists; reflexivity.
  - eexists. eexists. split; [reflexivity|]. eexists. eexists. reflexivity.
  - simpl in Hfree. congruence.
Qed.

End WriteFacts.

Example merge_tags_run :
  fst (merge_tags Sample.client 5 ["ml"; "machine-learning"] "ML"
         (Sample.start [Sample.article "A" "10.1/a" [Sample.tag "ml"; Sample.tag "machine-learning"];
                        Sample.article "B" "10.1/b" [Sample.tag "physics"]] 200))
  = Ok (VDict [("success", VBool true); ("updated_items", VInt 1);
               ("message", VStr "Tags merged successfully")]).
Proof. reflexivity. Qed.

(** ** The requests of the merges *)

Section RequestFacts.

Context {B : Type}.
Variable zot : Zotero B.
Variable env : Env.

Lemma sends_ret {A : Type} (P : Request -> Prop) (a : A) : sends P (@ret B A a).
Proof. intros w. exists []. split; [now rewrite app_nil_r | constructor]. Qed.

Lemma sends_lift {A : Type} (P : Request -> Prop) (r : Response A) : sends P (@lift B A r).
Proof. intros w. exists []. destruct r; (split; [now rewrite app_nil_r | constructor]). Qed.

Lemma sends_call {A : Type} (P : Request -> Prop) (req : Request) (f : B -> Response A * B) :
  P req -> sends P (call req f).
Proof.
  intros Hreq w. exists [req]. unfold call.
  destruct (f (backend w)) as [[a|e] b1]; (split; [reflexivity | now repeat constructor]).
Qed.

Lemma sends_bind {A C : Type} (P : Request -> Prop) (m : M B A) (k : A -> M B C) :
  sends P m -> (forall a, sends P (k a)) -> sends P (bind m k).
Proof.
  intros Hm Hk w. unfold bind. destruct (Hm w) as (sent & Hlog & HP).
  destruct (m w) as [[a|e|] w1]; cbn [snd] in *.
  - destruct (Hk a w1) as (sent' & Hlog' & HP'). exists (sent ++ sent').
    split; [now rewrite Hlog', Hlog, app_assoc | now apply Forall_app].
  - now exists sent.
  - now exists sent.
Qed.

Lemma sends_try {A : Type} (P : Request -> Prop) (m : M B A) (h : Exn -> M B A) :
  sends P m -> (forall e, sends P (h e)) -> sends P (try_except m h).
Proof.
  intros Hm Hh w. unfold try_except. destruct (Hm w) as (sent & Hlog & HP).
  destruct (m w) as [[a|e|] w1]; cbn [snd] in *.
  - now exists sent.
  - destruct (Hh e w1) as (sent' & Hlog' & HP'). exists (sent ++ sent').
    split; [now rewrite Hlog', Hlog, app_assoc | now apply Forall_app].
  - now exists sent.
Qed.

Lemma sends_for_each {A St : Type} (P : Request -> Prop) (body : A -> St -> M B St)
    (xs : list A) :
  (forall x acc, sends P (body x acc)) -> forall acc, sends P (for_each body xs acc).
Proof.
  intros Hb. induction xs as [|x xs IH]; intros acc; cbn [for_each].
  - apply sends_ret.
  - apply sends_bind; [apply Hb | exact IH].
Qed.

Lemma sends_all_items_from {St : Type} (P : Request -> Prop) (itemType : option string)
    (body : Item -> St -> M B St) :
  (forall start, P (ReqItems start limit itemType)) ->
  (forall x acc, sends P (body x acc)) ->
  forall fuel start acc, sends P (_all_items_from zot fuel itemType body start acc).
Proof.
  intros Hpage Hb. induction fuel as [|fuel IH]; intros start acc; cbn [_all_items_from].
  - intros w. exists []. split; [now rewrite app_nil_r | constructor].
  - apply sends_bind; [apply sends_call, Hpage|]. intros [|x xs]; [apply sends_ret|].
    apply sends_bind; [now apply sends_for_each|]. intros acc'.
    destruct (List.length (x :: xs) <? limit); [apply sends_ret | apply IH].
Qed.

Lemma merge_tags_sends (fuel : nat) (source_tags : list string) (target_tag : string) :
  sends page_or_update (merge_tags zot fuel source_tags target_tag).
Proof.
  unfold merge_tags, _all_items.
  apply sends_try; [|intros e; apply sends_ret].
  apply sends_bind; [|intros n; apply sends_ret].
  apply sends_all_items_from; [intros start; exact I|].
  intros item acc. unfold merge_tags_item.
  apply sends_bind; [apply sends_lift|]. intros names.
  destruct (merged_tags source_tags target_tag names) as [new_tags [|]]; [|apply sends_ret].
  apply sends_try; [|intros e; apply sends_ret].
  apply sends_bind; [apply sends_call; exact I | intros v; apply sends_ret].
Qed.

Lemma add_item_to_collection_sends (k c : string) :
  sends item_request (add_item_to_collection zot k c).
Proof.
  unfold add_item_to_collection, get_item.
  apply sends_bind; [apply sends_call; exact I|]. intros item.
  apply sends_bind; [apply sends_lift|]. intros collections.
  apply sends_call. exact I.
Qed.

(** The inner loop of [merge_collections] ends, having sent requests
    about items only. *)
Lemma merge_collection_items_run (target_key : string) (items : list Item) :
  forall (moved_count : nat) (w : World B),
  exists n w' sent,
    merge_collection_items zot target_key items moved_count w = (Ok n, w') /\
    log w' = log w ++ sent /\ Forall item_request sent.
Proof.
  unfold merge_collection_items.
  induction items as [|item items IH]; intros moved_count w.
  - exists moved_count, w, []. cbn. rewrite app_nil_r. repeat split. constructor.
  - cbn [for_each]. unfold bind at 1.
    assert (Hstep : exists n w1 sent,
              try_except
                (add_item_to_collection zot (item_key item) target_key ;;;
                 ret (moved_count + 1))
                (fun _ => ret moved_count) w = (Ok n, w1) /\
              log w1 = log w ++ sent /\ Forall item_request sent).
    { destruct (add_item_to_collection_sends (item_key item) target_key w)
        as (sent & Hlog & HP).
      assert (Hfree : fuel_free (add_item_to_collection zot (item_key item) target_key))
        by (unfold add_item_to_collection, get_item; fuel_free).
      specialize (Hfree w).
      unfold try_except, bind.
      destruct (add_item_to_collection zot (item_key item) target_key w) as [[v|e|] w1];
        cbn [fst snd] in *; [| |congruence]; eexists _, _, sent; repeat split; assumption. }
    destruct Hstep as (n1 & w1 & sent1 & E1 & L1 & P1). rewrite E1.
    destruct (IH n1 w1) as (n & w' & sent & E & L & P).
    exists n, w', (sent1 ++ sent). split; [exact E|].
    split; [now rewrite L, L1, app_assoc | now apply Forall_app].
Qed.

(** The first loop of [merge_collections]: one pass per source key. *)
Lemma merge_sources_run (target_key : string) (source_keys : list string) :
  forall (state : nat * list string) (w : World B),
  exists state' w' per_source,
    for_each
      (fun source_key (state : nat * list string) =>
         let (moved_count, failed_sources) := state in
         try_except
           (items <- call (ReqCollectionItems source_key)
                       (zot_collection_items zot source_key) ;;
            moved_count <- merge_collection_items zot target_key items moved_count ;;
            ret (moved_count, failed_sources))
           (fun _ => ret (moved_count, failed_sources ++ [source_key])))
      source_keys state w = (Ok state', w') /\
    List.length per_source = List.length source_keys /\
    Forall (Forall item_request) per_source /\
    log w' = log w ++ collection_passes source_keys per_source.
Proof.
  induction source_keys as [|source_key source_keys IH]; intros state w.
  - exists state, w, []. cbn. rewrite app_nil_r. repeat split. constructor.
  - cbn [for_each]. unfold bind at 1. destruct state as [moved_count failed_sources].
    unfold try_except at 1, bind at 1, call at 1.
    destruct (zot_collection_items zot source_key (backend w)) as [[items|e] b1].
    + set (w1 := mkWorld b1 (log w ++ [ReqCollectionItems source_key]) (library_cache w)).
      destruct (merge_collection_items_run target_key items moved_count w1)
        as (n & w2 & sent & E & L & P).
      unfold bind. rewrite E. cbn [ret].
      destruct (IH (n, failed_sources) w2) as (state' & w' & per_source & E' & Hlen & HP & L').
      exists state', w', (sent :: per_source). split; [exact E'|].
      split; [cbn; now rewrite Hlen|]. split; [now constructor|].
      rewrite L', L. unfold w1, collection_passes. cbn [log combine map List.concat fst snd].
      now rewrite <- !app_assoc.
    + cbn [ret].
      set (w1 := mkWorld b1 (log w ++ [ReqCollectionItems source_key]) (library_cache w)).
      destruct (IH (moved_count, failed_sources ++ [source_key]) w1)
        as (state' & w' & per_source & E' & Hlen & HP & L').
      exists state', w', ([] :: per_source). split; [exact E'|].
      split; [cbn; now rewrite Hlen|]. split; [constructor; [constructor | exact HP]|].
      rewrite L'. unfold w1, collection_passes. cbn [log combine map List.concat fst snd].
      now rewrite <- !app_assoc.
Qed.

(** The second loop of [merge_collections]: one delete per source key,
    whatever the backend answers. *)
Lemma delete_sources_run (source_keys : list string) :
  forall (w : World B),
  exists w',
    for_each
      (fun source_key (_ : unit) =>
         try_except
           (call (ReqDeleteCollection source_key) (zot_delete_collection zot source_key) ;;;
            ret tt)
           (fun _ => ret tt))
      source_keys tt w = (Ok tt, w') /\
    log w' = log w ++ map ReqDeleteCollection source_keys.
Proof.
  induction source_keys as [|source_key source_keys IH]; intros w.
  - exists w. cbn. now rewrite app_nil_r.
  - cbn [for_each]. unfold bind at 1, try_except at 1, bind at 1, call at 1.
    destruct (zot_delete_collection zot source_key (backend w)) as [[v|e] b1]; cbn [ret];
      match goal with
      | |- context [for_each _ source_keys tt ?w1] =>
          destruct (IH w1) as (w' & E & L); exists w'; split; [exact E|];
          rewrite L; cbn [log map]; now rewrite <- app_assoc
      end.
Qed.

Lemma merge_collections_requests (source_keys : list string) (target_key : string)
    (w : World B) :
  exists v w' per_source,
    merge_collections zot env source_keys target_key w = (Ok v, w') /\
    success_dict v /\
    List.length per_source = List.length source_keys /\
    Forall (Forall item_request) per_source /\
    log w' = log w ++ collection_passes source_keys per_source
                   ++ map ReqDeleteCollection source_keys.
Proof.
  destruct (merge_sources_run target_key source_keys (0, []) w)
    as ([moved_count failed_sources] & w1 & per_source & E1 & Hlen & HP & L1).
  destruct (delete_sources_run source_keys w1) as (w' & E2 & L2).
  unfold merge_collections. unfold try_except at 1. unfold bind at 1. rewrite E1.
  unfold bind at 1. rewrite E2.
  destruct failed_sources; cbn [ret];
    eexists _, w', per_source; (split; [reflexivity|]);
    (split; [eexists _, _; reflexivity|]);
    (split; [exact Hlen|]); (split; [exact HP|]);
    now rewrite L2, L1, <- app_assoc.
Qed.

End RequestFacts.

(** C1, as the code has it, for the four operations the claim names.
    [update_item_fields] and [add_tags_to_item] are not wrapped in [try]:
    they send a read request for the item; if the client raises there (or
    the tags of the item cannot be read) the exception reaches the caller
    after that one request; otherwise they send one update request, a
    second round trip, and hand back what the client answers or raises.
    [merge_tags] and [merge_collections] are wrapped in [try]: no
    exception leaves them, and what they return is a dict with a boolean
    ["success"] entry ([merge_tags] returns once its paginated read has
    ended, which it does on a library that stays below a fixed number of
    pages).  Their requests are many: [merge_tags] sends requests for
    pages of the library and updates of items, and no others;
    [merge_collections] sends, for every source key in turn, one read of
    that collection followed by reads and updates of items only, and
    after the last source one delete request for every source key. *)
Theorem write_operations_round_trips {B : Type} (zot : Zotero B) (env : Env) (w : World B) :
  (forall item_key fields,
     match zot_item zot item_key (backend w) with
     | (Raises e, b1) =>
         update_item_fields zot item_key fields w
         = (Raised e, mkWorld b1 (log w ++ [ReqItem item_key]) (library_cache w))
     | (Returns item, b1) =>
         let item' := apply_fields fields item in
         update_item_fields zot item_key fields w
         = (outcome_of (fst (zot_update_item zot item' b1)),
            mkWorld (snd (zot_update_item zot item' b1))
                    (log w ++ [ReqItem item_key; ReqUpdateItem item']) (library_cache w))
     end) /\
  (forall item_key tags,
     match zot_item zot item_key (backend w) with
     | (Raises e, b1) =>
         add_tags_to_item zot item_key tags w
         = (Raised e, mkWorld b1 (log w ++ [ReqItem item_key]) (library_cache w))
     | (Returns item, b1) =>
         match existing_tags_of item with
         | Raises e =>
             add_tags_to_item zot item_key tags w
             = (Raised e, mkWorld b1 (log w ++ [ReqItem item_key]) (library_cache w))
         | Returns existing =>
             let item' := set_data "tags" (tag_dicts (add_missing_tags tags existing)) item in
             add_tags_to_item zot item_key tags w
             = (outcome_of (fst (zot_update_item zot item' b1)),
                mkWorld (snd (zot_update_item zot item' b1))
                        (log w ++ [ReqItem item_key; ReqUpdateItem item']) (library_cache w))
         end
     end) /\
  (forall fuel source_tags target_tag,
     (forall e, fst (merge_tags zot fuel source_tags target_tag w) <> Raised e) /\
     (forall v, fst (merge_tags zot fuel source_tags target_tag w) = Ok v -> success_dict v) /\
     (exists sent,
        log (snd (merge_tags zot fuel source_tags target_tag w)) = log w ++ sent /\
        Forall page_or_update sent)) /\
  (forall Inv n fuel source_tags target_tag,
     bounded_library zot Inv n -> Inv (backend w) -> n < fuel ->
     exists v w',
       merge_tags zot fuel source_tags target_tag w = (Ok v, w') /\ success_dict v) /\
  (forall source_keys target_key,
     exists v w' per_source,
       merge_collections zot env source_keys target_key w = (Ok v, w') /\
       success_dict v /\
       List.length per_source = List.length source_keys /\
       Forall (Forall item_request) per_source /\
       log w' = log w ++ collection_passes source_keys per_source
                      ++ map ReqDeleteCollection source_keys).
Proof.
  split; [|split; [|split; [|split]]].
  - intros item_key fields. apply update_item_fields_trips.
  - intros item_key tags. apply add_tags_to_item_trips.
  - intros fuel source_tags target_tag.
    destruct (merge_tags_catches zot fuel source_tags target_tag w) as [Hraise Hdict].
    split; [exact Hraise|]. split; [exact Hdict|]. apply merge_tags_sends.
  - intros Inv n fuel source_tags target_tag Hb Hinv Hfuel.
    pose proof (merge_tags_ends zot Inv n fuel source_tags target_tag w Hb Hinv Hfuel) as Hend.
    destruct (merge_tags_catches zot fuel source_tags target_tag w) as [Hraise Hdict].
    destruct (merge_tags zot fuel source_tags target_tag w) as [[v|e|] w'] eqn:E; simpl in *.
    + exists v, w'. split; [reflexivity | now apply Hdict].
    + exfalso. now apply (Hraise e).
    + congruence.
  - intros source_keys target_key. apply merge_collections_requests.
Qed.

Lemma sample_library_bounded :
  bounded_library Sample.client (fun b => List.length (Sample.library b) <= 2) 0.
Proof.
  repeat split.
  - intros start itemType b H. exact H.
  - intros item b H. simpl.
    destruct (existsb _ _); simpl; [now rewrite length_map | exact H].
  - intros b H.
    change (List.length (firstn 100 (filter (Sample.has_type None) (Sample.library b))) < 100).
    rewrite length_firstn.
    pose proof (filter_length_le (Sample.has_type None) (Sample.library b)). lia.
Qed.

Lemma write_operations_round_trips_witness :
  let a := Sample.article "A" "10.1/a" [Sample.tag "ml"] in
  let b := Sample.article "B" "10.1/b" [Sample.tag "ml"; Sample.tag "physics"] in
  exists v w',
    merge_tags Sample.client 1 ["ml"] "ML" (Sample.start [a; b] 200) = (Ok v, w') /\
    success_dict v.
Proof.
  intros a b.
  destruct (write_operations_round_trips Sample.client Sample.files (Sample.start [a; b] 200))
    as (_ & _ & _ & Hmerge & _).
  apply (Hmerge (fun s => List.length (Sample.library s) <= 2) 0 1 ["ml"] "ML").
  - exact sample_library_bounded.
  - simpl. lia.
  - lia.
Defined.

(** C1 as stated fails: [update_item_fields] sends two requests and lets
    the exception of a failed read reach the caller, as
    [add_tags_to_item] does; on this library of two items [merge_tags]
    sends three requests (one page, two updates) and [merge_collections]
    with one source sends four (the read of the collection, the read and
    the update of its item, the delete of the collection). *)
Lemma write_operations_counterexample :
  let a := mkItem "A" [("itemType", VStr "journalArticle"); ("tags", VList [Sample.tag "ml"]);
                       ("collections", VList [VStr "C1"])] None in
  let b := mkItem "B" [("itemType", VStr "journalArticle");
                       ("tags", VList [Sample.tag "ml"; Sample.tag "physics"]);
                       ("collections", VList [])] None in
  let w := Sample.start [a; b] 200 in
  List.length (log (snd (update_item_fields Sample.client "A" [("title", VStr "T")] w))) = 2 /\
  fst (update_item_fields Sample.client "MISSING" [("title", VStr "T")] w)
  = Raised Sample.not_found /\
  fst (add_tags_to_item Sample.client "MISSING" ["ml"] w) = Raised Sample.not_found /\
  log (snd (merge_tags Sample.client 5 ["ml"] "ML" w))
  = [ReqItems 0 100 None;
     ReqUpdateItem (set_data "tags" (VList [Sample.tag "ML"]) a);
     ReqUpdateItem (set_data "tags" (VList [Sample.tag "ML"; Sample.tag "physics"]) b)] /\
  log (snd (merge_collections Sample.client Sample.files ["C1"] "C2" w))
  = [ReqCollectionItems "C1"; ReqItem "A";
     ReqUpdateItem (set_data "collections" (VList [VStr "C1"; VStr "C2"]) a);
     ReqDeleteCollection "C1"].
Proof. repeat split. Qed.

(** ** File uploads *)

Example upload_pdf_run :
  fst (upload_pdf Sample.client Sample.files Sample.format_value "A" "/tmp/paper.pdf" None
         (Sample.start [Sample.article "A" "10.1/a" []] 201))
  = Ok (VDict [("success", VBool true); ("key", VStr "NEWKEY01")]).
Proof. reflexivity. Qed.

(** C5, as the code has it.  When the direct file request of
    [upload_pdf] or [replace_attachment] is answered with a status other
    than 200, 201 or 204, the operation does not send that request again
    but falls back on [zupload]: if the module can be imported one upload
    through it is attempted, and whatever comes of the fallback the
    caller gets a dict with ["success"] true (with a warning or a
    manual-sync message when the fallback failed), never the failure. *)
Theorem upload_falls_back_on_zupload {B : Type} (zot : Zotero B) (env : Env)
    (format_value : Value -> string) (w : World B) :
  (forall parent_item_key pdf_path title content mtime create_result key b1 status b2,
     path_exists env pdf_path = true ->
     Str.lower (path_suffix env pdf_path) = ".pdf" ->
     read_file env pdf_path = Returns content ->
     getmtime_ms env pdf_path = Returns mtime ->
     let attachment :=
       pdf_attachment parent_item_key (title_or_name env title pdf_path)
         (path_name env pdf_path) (md5_hexdigest env content) mtime in
     let url := file_url (format_value key) in
     zot_create_items zot [attachment] (backend w) = (Returns create_result, b1) ->
     truthy create_result = true ->
     contains_str "success" create_result = Returns true ->
     created_key create_result = Returns key ->
     httpx_post zot url pdf_headers content b1 = (Returns status, b2) ->
     upload_accepted status = false ->
     exists d w',
       upload_pdf zot env format_value parent_item_key pdf_path title w = (Ok (VDict d), w') /\
       dict_get "success" d = Some (VBool true) /\
       match import_zupload env with
       | Returns _ =>
           log w' = log w ++ [ReqCreateItems [attachment];
                              ReqPostFile url pdf_headers content;
                              ReqZupload key pdf_path]
       | Raises _ =>
           log w' = log w ++ [ReqCreateItems [attachment];
                              ReqPostFile url pdf_headers content] /\
           dict_get "warning" d <> None
       end) /\
  (forall attachment_key new_file_path attachment b1 content mtime r b2 content_type status b3,
     zot_item zot attachment_key (backend w) = (Returns attachment, b1) ->
     is_attachment attachment = true ->
     path_exists env new_file_path = true ->
     read_file env new_file_path = Returns content ->
     getmtime_ms env new_file_path = Returns mtime ->
     let attachment' :=
       with_new_file env new_file_path (md5_hexdigest env content) mtime attachment in
     let url := file_url attachment_key in
     zot_update_item zot attachment' b1 = (Returns r, b2) ->
     dict_get "contentType" (item_data attachment') = Some content_type ->
     httpx_post zot url (replace_headers content_type) content b2 = (Returns status, b3) ->
     upload_accepted status = false ->
     exists d w',
       replace_attachment zot env attachment_key new_file_path w = (Ok (VDict d), w') /\
       dict_get "success" d = Some (VBool true) /\
       match import_zupload env with
       | Returns _ =>
           log w' = log w ++ [ReqItem attachment_key; ReqUpdateItem attachment';
                              ReqPostFile url (replace_headers content_type) content;
                              ReqZupload (VStr attachment_key) new_file_path]
       | Raises _ =>
           log w' = log w ++ [ReqItem attachment_key; ReqUpdateItem attachment';
                              ReqPostFile url (replace_headers content_type) content]
       end).
Proof.
  split.
  - intros parent_item_key pdf_path title content mtime create_result key b1 status b2
      Hexists Hsuffix Hread Hmtime attachment url Hcreate Htruthy Hsuccess Hkey Hpost Hstatus.
    unfold upload_pdf. rewrite Hexists, Hsuffix. cbn [negb String.eqb Ascii.eqb Bool.eqb].
    unfold try_except at 1, bind at 1. rewrite Hread. cbn [lift ret].
    unfold bind at 1. rewrite Hmtime. cbn [lift ret]. cbv zeta.
    unfold bind at 1, call at 1. cbn [backend log library_cache].
    fold attachment. rewrite Hcreate.
    unfold bind at 1. rewrite Htruthy, Hsuccess. cbn [lift ret negb].
    unfold bind at 1. rewrite Hkey. cbn [lift ret].
    unfold bind at 1, call at 1. cbn [backend log library_cache].
    fold url. rewrite Hpost, Hstatus.
    unfold try_except, bind, call. cbn [backend log library_cache].
    destruct (import_zupload env) as [[]|e]; cbn [lift ret raise backend log library_cache].
    + destruct (zupload_upload_file zot key pdf_path b2) as [[[]|e] b3].
      * eexists. eexists. split; [reflexivity|]. split; [reflexivity|].
        cbn [log]. now rewrite <- !app_assoc.
      * destruct (exn_class e); eexists; eexists;
          (split; [reflexivity|]); (split; [reflexivity|]);
          cbn [log]; now rewrite <- !app_assoc.
    + destruct (exn_class e); eexists; eexists;
        (split; [reflexivity|]); (split; [reflexivity|]);
        cbn [log]; rewrite <- !app_assoc; (split; [reflexivity | discriminate]).
  - intros attachment_key new_file_path attachment b1 content mtime r b2 content_type status b3
      Hitem Hatt Hexists Hread Hmtime attachment' url Hupdate Hct Hpost Hstatus.
    unfold replace_attachment.
    unfold try_except at 1, bind at 1, call at 1. rewrite Hitem.
    rewrite Hatt, Hexists. cbn [negb].
    unfold bind at 1. rewrite Hread. cbn [lift ret].
    unfold bind at 1. rewrite Hmtime. cbn [lift ret]. cbv zeta.
    fold attachment'.
    unfold bind at 1, call at 1. cbn [backend log library_cache]. rewrite Hupdate.
    unfold bind at 1. unfold subscript. rewrite Hct. cbn [lift ret].
    unfold bind at 1, call at 1. cbn [backend log library_cache].
    fold url. rewrite Hpost, Hstatus.
    unfold try_except, bind, call. cbn [backend log library_cache].
    destruct (import_zupload env) as [[]|e]; cbn [lift ret raise backend log library_cache].
    + destruct (zupload_upload_file zot (VStr attachment_key) new_file_path b3) as [[[]|e] b4];
        eexists; eexists; (split; [reflexivity|]); (split; [reflexivity|]);
        cbn [log]; now rewrite <- !app_assoc.
    + eexists. eexists. split; [reflexivity|]. split; [reflexivity|].
      cbn [log]. now rewrite <- !app_assoc.
Qed.

Lemma upload_falls_back_on_zupload_witness :
  let w := Sample.start [Sample.article "A" "10.1/a" []; Sample.stored_pdf "P" "A"] 500 in
  (exists d w',
     upload_pdf Sample.client Sample.files_with_zupload Sample.format_value
       "A" "/tmp/paper.pdf" None w = (Ok (VDict d), w') /\
     dict_get "success" d = Some (VBool true)) /\
  (exists d w',
     replace_attachment Sample.client Sample.files "P" "/tmp/paper.pdf" w = (Ok (VDict d), w') /\
     dict_get "success" d = Some (VBool true)).
Proof.
  intros w. split.
  - destruct (upload_falls_back_on_zupload Sample.client Sample.files_with_zupload
                Sample.format_value w) as [Hupload _].
    edestruct (Hupload "A" "/tmp/paper.pdf" None) as (d & w' & Hrun & Hsuccess & _);
      try reflexivity.
    exists d, w'. split; [exact Hrun | exact Hsuccess].
  - destruct (upload_falls_back_on_zupload Sample.client Sample.files
                Sample.format_value w) as [_ Hreplace].
    edestruct (Hreplace "P" "/tmp/paper.pdf") as (d & w' & Hrun & Hsuccess & _);
      try reflexivity.
    exists d, w'. split; [exact Hrun | exact Hsuccess].
Defined.

(** C5 as stated fails: with the direct upload answered by status 500,
    [upload_pdf] goes on to upload through [zupload] and
    [replace_attachment] tries to; both report success to the caller. *)
Lemma upload_retry_counterexample :
  let w := Sample.start [Sample.article "A" "10.1/a" []; Sample.stored_pdf "P" "A"] 500 in
  let uploaded := upload_pdf Sample.client Sample.files_with_zupload Sample.format_value
                    "A" "/tmp/paper.pdf" None w in
  let replaced := replace_attachment Sample.client Sample.files "P" "/tmp/paper.pdf" w in
  fst uploaded = Ok (VDict [("success", VBool true); ("key", VStr "NEWKEY01")]) /\
  (exists create post,
     log (snd uploaded)
     = [ReqCreateItems create; post; ReqZupload (VStr "NEWKEY01") "/tmp/paper.pdf"]) /\
  fst replaced
  = Ok (VDict [("success", VBool true);
               ("message", VStr "Metadata updated but file upload may require manual sync")]).
Proof.
  intros w uploaded replaced. split; [reflexivity|]. split; [|reflexivity].
  eexists. eexists. reflexivity.
Qed.

(* ===================================================================== *)
(** * Further properties *)
(* ===================================================================== *)

(** ** The shapes the validators accept *)

Open Scope string_scope.
Open Scope nat_scope.

Module ShapeFacts.
Import Re ReFacts ReShape.

Lemma match_lit (a : ascii) (r : regex) (s : string) :
  re_match (Cat (lit a) r) s = true <-> exists rest, s = String a rest /\ re_match r rest = true.
Proof.
  unfold lit. destruct s as [|c s].
  - rewrite match_cls_nil. split; [discriminate | intros (? & ? & _); discriminate].
  - rewrite match_cls_cons, andb_true_iff. unfold Str.is_char. rewrite Ascii.eqb_eq. split.
    + intros [-> H]. exists s. auto.
    + intros (rest & Hs & H). injection Hs as -> ->. auto.
Qed.

Lemma strip_app (a b : string) :
  without_hyphens_and_spaces (a ++ b)
  = (without_hyphens_and_spaces a ++ without_hyphens_and_spaces b)%string.
Proof.
  induction a as [|c a IH]; simpl; [reflexivity|].
  destruct (Ascii.eqb c "-" || Ascii.eqb c " "); simpl; now rewrite IH.
Qed.

End ShapeFacts.

(** *** The DOI class when case is ignored *)

Module CaseFacts.
Import Uni.
Local Open Scope list_scope.
Local Open Scope N_scope.

(** The lower-cased class: the punctuation, the small letters with the
    extra cases of [i] and [s], and the digits. *)
Lemma doi_charmap :
  charmap unicode_14 doi_suffix_class =
  [45; 46; 95; 59; 40; 41; 47; 58; 97; 98; 99; 100; 101; 102; 103; 104; 105;
   305; 106; 107; 108; 109; 110; 111; 112; 113; 114; 115; 383; 116; 117;
   118; 119; 120; 121; 122; 48; 49; 50; 51; 52; 53; 54; 55; 56; 57].
Proof. vm_compute. reflexivity. Qed.

Lemma code_points_In (n : nat) : forall first c,
  first <= c < first + N.of_nat n -> In c (code_points first n).
Proof.
  induction n as [|n IH]; intros first c H; [lia|].
  cbn [code_points]. destruct (N.eq_dec first c) as [E|E]; [now left|].
  right. apply IH. lia.
Qed.

(** Beyond U+017F only three characters have a lower-case form at or
    below it: U+1E9E (capital sharp s), U+212A (Kelvin) and U+212B
    (Angstrom). *)
Lemma tolower_far (c : N) :
  383 < c -> c <> 7838 -> c <> 8490 -> c <> 8491 -> 383 < tolower_14 c.
Proof.
  intros Hc H1 H2 H3. unfold tolower_14.
  destruct (find (in_run c) lowercase_runs) as [[[[first last] step] image]|] eqn:E; [|exact Hc].
  apply find_some in E. destruct E as [Hin Hrun].
  assert (Hruns : forallb (fun run => let '(first, last, _, image) := run in
                     (383 <? image) || (last <=? 383) ||
                     ((first =? last) && existsb (N.eqb first) [7838; 8490; 8491]))
                    lowercase_runs = true) by (vm_compute; reflexivity).
  rewrite forallb_forall in Hruns. specialize (Hruns _ Hin). cbv beta iota in Hruns.
  unfold in_run in Hrun.
  apply andb_true_iff in Hrun. destruct Hrun as [Hrun _].
  apply andb_true_iff in Hrun. destruct Hrun as [Hlo Hhi].
  apply N.leb_le in Hlo. apply N.leb_le in Hhi.
  apply orb_true_iff in Hruns. destruct Hruns as [Hruns|Hruns].
  - apply orb_true_iff in Hruns. destruct Hruns as [Hruns|Hruns].
    + apply N.ltb_lt in Hruns. lia.
    + apply N.leb_le in Hruns. lia.
  - apply andb_true_iff in Hruns. destruct Hruns as [Heq Hex].
    apply N.eqb_eq in Heq. cbn [existsb] in Hex.
    repeat (apply orb_true_iff in Hex; destruct Hex as [Hex|Hex]);
      try discriminate; apply N.eqb_eq in Hex; lia.
Qed.

Lemma doi_suffix_char_far (c : N) : 383 < c -> c <> 8490 -> doi_suffix_char c = false.
Proof.
  intros Hc H1. unfold doi_suffix_char.
  change (of_string "-._;()/:") with [45; 46; 95; 59; 40; 41; 47; 58].
  cbn [existsb].
  repeat match goal with
         | |- context [N.eqb c ?k] => destruct (N.eqb_spec c k); [lia|]
         | |- context [N.leb c ?k] => destruct (N.leb_spec c k); [lia|]
         end.
  rewrite ?andb_false_r. reflexivity.
Qed.

(** Ignoring case, the class of the DOI pattern holds exactly the
    characters of [doi_suffix_char]. *)
Lemma in_ignorecase_doi (c : N) :
  in_ignorecase unicode_14 doi_suffix_class c = doi_suffix_char c.
Proof.
  unfold in_ignorecase. rewrite doi_charmap. cbn [tolower unicode_14].
  destruct (N.leb_spec c 383) as [Hle|Hgt].
  - match goal with
    | |- existsb _ ?l = _ =>
        assert (Hall : forallb (fun c => Bool.eqb (existsb (N.eqb (tolower_14 c)) l)
                                           (doi_suffix_char c))
                         (code_points 0 384) = true) by (vm_compute; reflexivity)
    end.
    rewrite forallb_forall in Hall. apply eqb_prop. apply Hall.
    apply code_points_In. lia.
  - destruct (N.eq_dec c 7838) as [->|H1]; [vm_compute; reflexivity|].
    destruct (N.eq_dec c 8490) as [->|H2]; [vm_compute; reflexivity|].
    destruct (N.eq_dec c 8491) as [->|H3]; [vm_compute; reflexivity|].
    rewrite (doi_suffix_char_far c Hgt H2).
    pose proof (tolower_far c Hgt H1 H2 H3) as Hfar.
    set (t := tolower_14 c) in *. cbn [existsb].
    repeat match goal with
           | |- context [N.eqb t ?k] => destruct (N.eqb_spec t k); [lia|]
           end.
    reflexivity.
Qed.

End CaseFacts.

Example validate_doi_code_points :
  Uni.validate_doi Uni.unicode_14 (Uni.of_string "10.1000/test") = true /\
  Uni.validate_doi Uni.unicode_14 (Uni.of_string "10.1000/TEST and more") = true /\
  Uni.validate_doi Uni.unicode_14 (Uni.of_string "10.100/test") = false /\
  Uni.validate_doi Uni.unicode_14 (Uni.of_string "10.1000/ test") = false /\
  Uni.validate_doi Uni.unicode_14 (Uni.of_string "doi:10.1000/test") = false.
Proof. repeat split; vm_compute; reflexivity. Qed.

(** The Kelvin sign (U+212A) lower-cases to [k] and the long s (U+017F)
    is an extra case of [s]: both are accepted after the slash.  The
    Angstrom sign (U+212B) lower-cases to U+00E5, which is not in the
    class. *)
Example validate_doi_other_cases :
  Uni.validate_doi Uni.unicode_14 (Uni.of_string "10.1000/" ++ [8490%N])%list = true /\
  Uni.validate_doi Uni.unicode_14 (Uni.of_string "10.1000/" ++ [383%N])%list = true /\
  Uni.validate_doi Uni.unicode_14 (Uni.of_string "10.1000/" ++ [8491%N])%list = false /\
  Uni.validate_doi Uni.unicode_14 (Uni.of_string "10.1000/" ++ [Uni.tolower Uni.unicode_14 8491])%list = false.
Proof. repeat split; vm_compute; reflexivity. Qed.

(** X1. [validate_doi] accepts exactly the strings that begin with
    [10.], four to nine decimal digits, a slash and one more character
    that is an ASCII letter of either case, an ASCII digit, one of
    [-._;()/:] or one of U+0130, U+0131, U+017F and U+212A, which
    ignoring case makes equal to [i], [s] and [k]; whatever follows is
    not looked at.  Strings are sequences of Unicode code points, a
    decimal digit is a character of category Nd, and the character
    database is that of Unicode 14.0. *)
Theorem validate_doi_shape (doi : Uni.str) :
  Uni.validate_doi Uni.unicode_14 doi = true <-> Uni.doi_shape Uni.unicode_14 doi.
Proof.
  unfold Uni.validate_doi, Uni.doi_pattern, Uni.doi_shape, Uni.between, Uni.digit.
  rewrite UniFacts.uni_match_lit. split.
  - intros (r1 & -> & H). apply UniFacts.uni_match_lit in H. destruct H as (r2 & -> & H).
    apply UniFacts.uni_match_lit in H. destruct H as (r3 & -> & H).
    apply UniFacts.uni_match_times in H. destruct H as (d4 & r4 & -> & Hl4 & Hd4 & H).
    apply UniFacts.uni_match_upto in H. destruct H as (d5 & r5 & -> & Hl5 & Hd5 & H).
    apply UniFacts.uni_match_lit in H. destruct H as (r6 & -> & H).
    apply UniFacts.uni_match_plus_cls in H. destruct H as (c & rest & -> & Hc).
    rewrite CaseFacts.in_ignorecase_doi in Hc.
    exists (d4 ++ d5)%list, c, rest.
    rewrite length_app, forallb_app, Hd4, Hd5.
    repeat split; auto; try lia.
    cbn [Uni.of_string app]. now rewrite <- app_assoc.
  - intros (digits & c & rest & -> & [Hlo Hhi] & Hd & Hc).
    exists (Uni.of_string "0." ++ digits ++ Uni.cp "/" :: c :: rest)%list.
    split; [reflexivity|].
    apply UniFacts.uni_match_lit. eexists. split; [reflexivity|].
    apply UniFacts.uni_match_lit. eexists. split; [reflexivity|].
    destruct digits as [|c1 [|c2 [|c3 [|c4 d]]]]; simpl in Hlo; try lia.
    cbn [List.length] in Hhi. cbn [forallb] in Hd.
    apply andb_true_iff in Hd. destruct Hd as [H1 Hd].
    apply andb_true_iff in Hd. destruct Hd as [H2 Hd].
    apply andb_true_iff in Hd. destruct Hd as [H3 Hd].
    apply andb_true_iff in Hd. destruct Hd as [H4 Hd].
    apply UniFacts.uni_match_times.
    exists [c1; c2; c3; c4], (d ++ Uni.cp "/" :: c :: rest)%list.
    repeat split; auto.
    + cbn [forallb]. now rewrite H1, H2, H3, H4.
    + apply UniFacts.uni_match_upto.
      exists d, (Uni.cp "/" :: c :: rest).
      repeat split; auto; [simpl; lia|].
      apply UniFacts.uni_match_lit. eexists. split; [reflexivity|].
      apply UniFacts.uni_match_plus_cls. exists c, rest.
      rewrite CaseFacts.in_ignorecase_doi. auto.
Qed.

Example validate_issn_code_points :
  Uni.validate_issn Uni.unicode_14 (Uni.of_string "1234-5678") = true /\
  Uni.validate_issn Uni.unicode_14 (Uni.of_string "0317-847X and more") = true /\
  Uni.validate_issn Uni.unicode_14 (Uni.of_string "0317-847x") = false /\
  Uni.validate_issn Uni.unicode_14 (Uni.of_string "12345678") = false /\
  Uni.validate_issn Uni.unicode_14 ([1633; 1634; 1635; 1636]%N ++ Uni.of_string "-567X")%list = true.
Proof. repeat split; vm_compute; reflexivity. Qed.

(** X2. [validate_issn] accepts exactly the strings that begin with four
    decimal digits, a hyphen, three decimal digits and a decimal digit or
    the letter X; a lowercase x, a missing hyphen or a shorter string is
    rejected, and whatever follows the eight characters is accepted.
    Strings are sequences of Unicode code points and a decimal digit is
    a character that the character database of the interpreter has in
    category Nd, an ASCII digit or a digit of another script; this holds
    for every database. *)
Theorem validate_issn_shape (db : Uni.Database) (issn : Uni.str) :
  Uni.validate_issn db issn = true <-> Uni.issn_shape db issn.
Proof.
  unfold Uni.validate_issn, Uni.issn_pattern, Uni.issn_shape, Uni.digit. split.
  - intros H. apply UniFacts.uni_match_times in H.
    destruct H as (a & r1 & -> & Hla & Hda & H).
    apply UniFacts.uni_match_lit in H. destruct H as (r2 & -> & H).
    apply UniFacts.uni_match_times in H. destruct H as (b & r3 & -> & Hlb & Hdb & H).
    apply UniFacts.uni_match_cls in H. destruct H as (c & rest & -> & Hc).
    exists a, b, c, rest. repeat split; auto. now apply UniFacts.uni_digit_or_X_spec.
  - intros (a & b & c & rest & -> & Hla & Hda & Hlb & Hdb & Hc).
    apply UniFacts.uni_match_times. exists a, (Uni.cp "-" :: b ++ c :: rest)%list.
    repeat split; auto.
    apply UniFacts.uni_match_lit. eexists. split; [reflexivity|].
    apply UniFacts.uni_match_times. exists b, (c :: rest).
    repeat split; auto.
    rewrite UniFacts.uni_match_cls_last. now apply UniFacts.uni_digit_or_X_spec.
Qed.

(** *** Latin-1 strings *)

Module Latin1Facts.
Local Open Scope list_scope.

Lemma same_nullable (r : Re.regex) (u : Uni.regex) :
  same_pattern r u -> Re.nullable r = Uni.nullable u.
Proof. induction 1; simpl; congruence. Qed.

Lemma same_deriv (c : ascii) (r : Re.regex) (u : Uni.regex) :
  same_pattern r u -> same_pattern (Re.deriv c r) (Uni.deriv (Uni.cp c) u).
Proof.
  induction 1; simpl; try constructor; auto.
  - rewrite <- H. destruct (p c); constructor.
  - rewrite <- (same_nullable r1 u1) by assumption.
    destruct (Re.nullable r1); repeat constructor; auto.
  - now constructor.
Qed.

Lemma same_match (s : string) : forall r u,
  same_pattern r u -> Re.re_match r s = Uni.re_match u (Uni.of_string s).
Proof.
  induction s as [|c s IH]; intros r u H; simpl.
  - now rewrite (same_nullable r u H).
  - rewrite (same_nullable r u H). f_equal. apply IH. now apply same_deriv.
Qed.

Lemma same_times (n : nat) (r k : Re.regex) (u k' : Uni.regex) :
  same_pattern r u -> same_pattern k k' ->
  same_pattern (Re.times n r k) (Uni.times n u k').
Proof. intros Hr Hk. induction n; simpl; [exact Hk | now constructor]. Qed.

Lemma same_upto (n : nat) (r k : Re.regex) (u k' : Uni.regex) :
  same_pattern r u -> same_pattern k k' ->
  same_pattern (Re.upto n r k) (Uni.upto n u k').
Proof. intros Hr Hk. induction n; simpl; [exact Hk | repeat constructor; auto]. Qed.

Lemma cp_eqb (a c : ascii) : N.eqb (Uni.cp a) (Uni.cp c) = Ascii.eqb a c.
Proof.
  unfold Uni.cp. destruct (Ascii.eqb_spec a c) as [->|Hneq].
  - apply N.eqb_refl.
  - apply N.eqb_neq. intros E. apply Hneq.
    rewrite <- (ascii_N_embedding a), <- (ascii_N_embedding c). now rewrite E.
Qed.

Lemma same_lit (a : ascii) : same_pattern (Re.lit a) (Uni.lit a).
Proof. constructor. intros c. unfold Str.is_char. now rewrite cp_eqb. Qed.

(** On Latin-1 [\d] is the ten ASCII digits. *)
Lemma is_digit_latin1 (c : ascii) :
  Str.is_digit c = Uni.is_decimal Uni.unicode_14 (Uni.cp c).
Proof.
  destruct c as [b0 b1 b2 b3 b4 b5 b6 b7].
  destruct b0, b1, b2, b3, b4, b5, b6, b7; vm_compute; reflexivity.
Qed.

Lemma digit_or_X_latin1 (c : ascii) :
  digit_or_X c = Uni.digit_or_X Uni.unicode_14 (Uni.cp c).
Proof.
  unfold digit_or_X, Uni.digit_or_X, Str.is_char.
  now rewrite is_digit_latin1, cp_eqb.
Qed.

(** On Latin-1 the DOI class, case ignored, is the ASCII letters, the
    ASCII digits and the punctuation. *)
Lemma ignorecase_latin1 (c : ascii) :
  Re.ignorecase doi_suffix_class c
  = Uni.in_ignorecase Uni.unicode_14 Uni.doi_suffix_class (Uni.cp c).
Proof.
  rewrite CaseFacts.in_ignorecase_doi.
  destruct c as [b0 b1 b2 b3 b4 b5 b6 b7].
  destruct b0, b1, b2, b3, b4, b5, b6, b7; vm_compute; reflexivity.
Qed.

Lemma of_string_delete (a : ascii) (s : string) :
  Uni.of_string (Str.delete a s) = Uni.delete (Uni.cp a) (Uni.of_string s).
Proof.
  induction s as [|c s IH]; simpl; [reflexivity|].
  rewrite cp_eqb. destruct (Ascii.eqb c a); simpl; congruence.
Qed.

Lemma of_string_length (s : string) : List.length (Uni.of_string s) = String.length s.
Proof. induction s; simpl; congruence. Qed.

End Latin1Facts.

(** X24. On a string of Latin-1 characters the validators read [\d] as
    the ten ASCII digits and the DOI class, case ignored, as ASCII
    letters, ASCII digits and the punctuation: the embedding over 8-bit
    strings gives the verdicts of the embedding over code points with
    the character database of Unicode 14.0. *)
Theorem validators_agree_on_latin1 (s : string) :
  validate_doi s = Uni.validate_doi Uni.unicode_14 (Uni.of_string s) /\
  validate_isbn s = Uni.validate_isbn Uni.unicode_14 (Uni.of_string s) /\
  validate_issn s = Uni.validate_issn Uni.unicode_14 (Uni.of_string s).
Proof.
  assert (Hdigit : same_pattern Re.digit (Uni.digit Uni.unicode_14))
    by (constructor; apply Latin1Facts.is_digit_latin1).
  assert (HX : same_pattern (Re.Cls digit_or_X) (Uni.Cls (Uni.digit_or_X Uni.unicode_14)))
    by (constructor; apply Latin1Facts.digit_or_X_latin1).
  split; [|split].
  - unfold validate_doi, Uni.validate_doi. apply Latin1Facts.same_match.
    unfold doi_pattern, Uni.doi_pattern, Re.between, Uni.between, Re.plus, Uni.plus.
    repeat (apply same_cat; [apply Latin1Facts.same_lit|]).
    apply Latin1Facts.same_times; [exact Hdigit|].
    apply Latin1Facts.same_upto; [exact Hdigit|].
    apply same_cat; [apply Latin1Facts.same_lit|].
    assert (Hclass : same_pattern (Re.Cls (Re.ignorecase doi_suffix_class))
                                  (Uni.Cls (Uni.in_ignorecase Uni.unicode_14
                                              Uni.doi_suffix_class)))
      by (constructor; apply Latin1Facts.ignorecase_latin1).
    apply same_cat; [exact Hclass | apply same_star; exact Hclass].
  - unfold validate_isbn, Uni.validate_isbn. cbv zeta.
    change (Uni.cp " ") with (Uni.cp " "%char).
    rewrite <- !Latin1Facts.of_string_delete, Latin1Facts.of_string_length.
    destruct (String.length _ =? 10).
    + apply Latin1Facts.same_match. now apply Latin1Facts.same_times.
    + destruct (String.length _ =? 13); [|reflexivity].
      apply Latin1Facts.same_match. apply Latin1Facts.same_times; [exact Hdigit | constructor].
  - unfold validate_issn, Uni.validate_issn. apply Latin1Facts.same_match.
    unfold issn_pattern, Uni.issn_pattern.
    apply Latin1Facts.same_times; [exact Hdigit|].
    apply same_cat; [apply Latin1Facts.same_lit|].
    now apply Latin1Facts.same_times.
Qed.

(** X3. Hyphens and spaces never matter to [validate_isbn]: putting one
    anywhere into a string, or taking it out, does not change the
    verdict. *)
Theorem validate_isbn_ignores_separators (a b : string) :
  validate_isbn (a ++ String "-" b) = validate_isbn (a ++ b) /\
  validate_isbn (a ++ String " " b) = validate_isbn (a ++ b).
Proof.
  unfold validate_isbn. rewrite !ReShape.delete_twice, !ShapeFacts.strip_app.
  split; reflexivity.
Qed.

Open Scope list_scope.

(** ** Dicts and membership *)

Section DictFacts.

Lemma assoc_get_set_same {V : Type} (k : string) (v : V) (d : list (string * V)) :
  assoc_get k (assoc_set k v d) = Some v.
Proof.
  induction d as [|[k' v'] d IH]; simpl.
  - now rewrite String.eqb_refl.
  - destruct (String.eqb k k') eqn:E; simpl; rewrite E; [reflexivity | exact IH].
Qed.

Lemma assoc_get_set_other {V : Type} (k k0 : string) (v : V) (d : list (string * V)) :
  k0 <> k -> assoc_get k0 (assoc_set k v d) = assoc_get k0 d.
Proof.
  intros Hneq. induction d as [|[k' v'] d IH]; simpl.
  - apply String.eqb_neq in Hneq. now rewrite Hneq.
  - destruct (String.eqb k k') eqn:E; simpl.
    + apply String.eqb_eq in E. subst k'.
      apply String.eqb_neq in Hneq. now rewrite Hneq.
    + now rewrite IH.
Qed.

Lemma assoc_set_twice {V : Type} (k : string) (v1 v2 : V) (d : list (string * V)) :
  assoc_set k v2 (assoc_set k v1 d) = assoc_set k v2 d.
Proof.
  induction d as [|[k' v'] d IH]; simpl.
  - now rewrite String.eqb_refl.
  - destruct (String.eqb k k') eqn:E; simpl; rewrite E; [reflexivity | now rewrite IH].
Qed.

Lemma assoc_set_same {V : Type} (k : string) (v : V) (d : list (string * V)) :
  assoc_get k d = Some v -> assoc_set k v d = d.
Proof.
  induction d as [|[k' v'] d IH]; simpl; [discriminate|].
  destruct (String.eqb k k') eqn:E.
  - intros H. injection H as ->. reflexivity.
  - intros H. now rewrite IH.
Qed.

Lemma value_eqb_str_r (v : Value) (s : string) : value_eqb v (VStr s) = true <-> v = VStr s.
Proof.
  destruct v; simpl; split; intros H; try discriminate.
  - apply String.eqb_eq in H. now subst.
  - injection H as ->. apply String.eqb_refl.
Qed.

Lemma value_in_strs_spec (v : Value) (strs : list string) :
  value_in_strs v strs = true <-> exists t, In t strs /\ v = VStr t.
Proof.
  unfold value_in_strs. rewrite existsb_exists. split.
  - intros (t & Hin & E). exists t. split; [exact Hin | now apply value_eqb_str_r].
  - intros (t & Hin & ->). exists t. split; [exact Hin | now apply value_eqb_str_r].
Qed.

Lemma filter_id {A : Type} (p : A -> bool) (l : list A) :
  (forall x, In x l -> p x = true) -> filter p l = l.
Proof.
  induction l as [|x l IH]; intros H; simpl; [reflexivity|].
  rewrite (H x) by now left. f_equal. apply IH. intros y Hy. apply H. now right.
Qed.

End DictFacts.

(** ** Removing tags and collections *)

(** X4. [remove_tags_from_item] reads the item and submits its tag
    names with the requested ones filtered out: none of the requested
    names is submitted, every other name is kept with its order and its
    repetitions, and when none of the requested names is on the item the
    submitted names are the existing ones. *)
Theorem remove_tags_from_item_names {B : Type} (zot : Zotero B) (item_key : string)
    (tags : list string) (w : World B) (item : Item) (b1 : B) (existing : list Value) :
  zot_item zot item_key (backend w) = (Returns item, b1) ->
  existing_tags_of item = Returns existing ->
  exists (keep : Value -> bool),
    let kept := filter keep existing in
    log (snd (remove_tags_from_item zot item_key tags w))
    = log w ++ [ReqItem item_key; ReqUpdateItem (set_data "tags" (tag_dicts kept) item)] /\
    (forall v, keep v = false <-> exists t, In t tags /\ v = VStr t) /\
    (forall t, In t tags -> ~ In (VStr t) kept) /\
    ((forall t, In t tags -> ~ In (VStr t) existing) -> kept = existing).
Proof.
  intros Hitem Hexisting.
  exists (fun t => negb (value_in_strs t tags)). cbv zeta.
  assert (Hkeep : forall v, negb (value_in_strs v tags) = false <->
                            exists t, In t tags /\ v = VStr t).
  { intros v. rewrite negb_false_iff. apply value_in_strs_spec. }
  repeat split.
  - unfold remove_tags_from_item, get_item, bind, call at 1. rewrite Hitem, Hexisting.
    cbn [lift ret]. unfold call. cbn [backend log library_cache].
    destruct (zot_update_item zot _ b1) as [[v|e] b2]; simpl; now rewrite <- app_assoc.
  - apply Hkeep.
  - apply Hkeep.
  - intros t Ht Hin. apply filter_In in Hin. destruct Hin as [_ Hk].
    assert (negb (value_in_strs (VStr t) tags) = false) by (apply Hkeep; eauto).
    congruence.
  - intros Hnone. apply filter_id. intros v Hv.
    destruct (negb (value_in_strs v tags)) eqn:E; [reflexivity|].
    apply Hkeep in E. destruct E as (t & Ht & ->). exfalso. now apply (Hnone t).
Qed.

Lemma remove_tags_from_item_names_witness :
  let item := Sample.article "A" "10.1/a" [Sample.tag "physics"; Sample.tag "ml"; Sample.tag "physics"] in
  exists keep,
    log (snd (remove_tags_from_item Sample.client "A" ["physics"; "absent"]
                (Sample.start [item] 200)))
    = [ReqItem "A";
       ReqUpdateItem (set_data "tags"
                        (tag_dicts (filter keep [VStr "physics"; VStr "ml"; VStr "physics"])) item)] /\
    keep (VStr "ml") = true.
Proof.
  intros item.
  destruct (remove_tags_from_item_names Sample.client "A" ["physics"; "absent"]
              (Sample.start [item] 200) item (Sample.mkStore [item] 200)
              [VStr "physics"; VStr "ml"; VStr "physics"])
    as (keep & Hlog & Hkeep & _).
  - reflexivity.
  - reflexivity.
  - exists keep. split; [exact Hlog|].
    destruct (keep (VStr "ml")) eqn:E; [reflexivity|].
    apply Hkeep in E. destruct E as (t & [<-|[<-|[]]] & Ht); discriminate.
Defined.



(** ** Updating fields *)

Section FieldFacts.

Lemma set_data_key (k : string) (v : Value) (item : Item) :
  item_key (set_data k v item) = item_key item /\
  item_children (set_data k v item) = item_children item.
Proof. split; reflexivity. Qed.

Lemma apply_fields_frame (fields : Dict) : forall item,
  item_key (apply_fields fields item) = item_key item /\
  item_children (apply_fields fields item) = item_children item /\
  (forall k, ~ In k (map fst fields) ->
             dict_get k (item_data (apply_fields fields item)) = dict_get k (item_data item)).
Proof.
  induction fields as [|[k0 v0] fields IH]; intros item.
  - repeat split.
  - destruct (IH (set_data k0 v0 item)) as (Hk & Hc & Hd).
    unfold apply_fields in *. cbn [fold_left fst snd map].
    rewrite Hk, Hc. repeat split.
    intros k Hnot. rewrite Hd by (intros Hin; apply Hnot; now right).
    apply assoc_get_set_other. intros ->. apply Hnot. now left.
Qed.

Lemma apply_fields_sets (fields : Dict) : forall item k v,
  NoDup (map fst fields) -> In (k, v) fields ->
  dict_get k (item_data (apply_fields fields item)) = Some v.
Proof.
  induction fields as [|[k0 v0] fields IH]; intros item k v Hnd Hin; [destruct Hin|].
  cbn [map fst] in Hnd. inversion Hnd as [|? ? Hfresh Hnd']; subst.
  unfold apply_fields. cbn [fold_left fst snd]. fold (apply_fields fields (set_data k0 v0 item)).
  destruct Hin as [E|Hin].
  - injection E as -> ->.
    destruct (apply_fields_frame fields (set_data k v item)) as (_ & _ & Hd).
    rewrite (Hd k Hfresh). apply assoc_get_set_same.
  - now apply IH.
Qed.

End FieldFacts.

(** X6. [update_item_fields] reads the item and submits it with the
    given fields written over its data: every field of [fields] holds its
    new value, every other field of the item is as it was read, and the
    key of the item is unchanged.  With no fields the item is submitted as
    it was read. *)
Theorem update_item_fields_data {B : Type} (zot : Zotero B) (key : string) (fields : Dict)
    (w : World B) (item : Item) (b1 : B) :
  zot_item zot key (backend w) = (Returns item, b1) ->
  NoDup (map fst fields) ->
  exists submitted,
    log (snd (update_item_fields zot key fields w))
    = log w ++ [ReqItem key; ReqUpdateItem submitted] /\
    item_key submitted = item_key item /\
    (forall k v, In (k, v) fields -> dict_get k (item_data submitted) = Some v) /\
    (forall k, ~ In k (map fst fields) ->
               dict_get k (item_data submitted) = dict_get k (item_data item)) /\
    (fields = [] -> submitted = item).
Proof.
  intros Hitem Hnd. exists (apply_fields fields item).
  destruct (apply_fields_frame fields item) as (Hk & _ & Hd).
  repeat split.
  - unfold update_item_fields, get_item, bind, call at 1. rewrite Hitem.
    unfold call. cbn [backend log library_cache].
    destruct (zot_update_item zot _ b1) as [[v|e] b2]; simpl; now rewrite <- app_assoc.
  - exact Hk.
  - intros k v Hin. now apply apply_fields_sets.
  - exact Hd.
  - intros ->. reflexivity.
Qed.

Lemma update_item_fields_data_witness :
  let item := Sample.article "A" "10.1/a" [] in
  exists submitted,
    log (snd (update_item_fields Sample.client "A"
                [("title", VStr "New"); ("DOI", VStr "10.2/b")] (Sample.start [item] 200)))
    = [ReqItem "A"; ReqUpdateItem submitted] /\
    dict_get "DOI" (item_data submitted) = Some (VStr "10.2/b") /\
    dict_get "itemType" (item_data submitted) = Some (VStr "journalArticle").
Proof.
  intros item.
  destruct (update_item_fields_data Sample.client "A"
              [("title", VStr "New"); ("DOI", VStr "10.2/b")]
              (Sample.start [item] 200) item (Sample.mkStore [item] 200))
    as (submitted & Hlog & _ & Hset & Hframe & _).
  - reflexivity.
  - repeat constructor; simpl; intuition discriminate.
  - exists submitted. split; [exact Hlog|]. split.
    + apply Hset. right. now left.
    + rewrite Hframe; [reflexivity|]. simpl. intuition discriminate.
Defined.

(** ** Merging tags on one item *)

Section MergeFacts.

Lemma value_in_strs_str (s : string) (strs : list string) :
  value_in_strs (VStr s) strs = existsb (String.eqb s) strs.
Proof.
  unfold value_in_strs. induction strs as [|t strs IH]; [reflexivity|].
  cbn [existsb]. rewrite IH. reflexivity.
Qed.

Lemma merged_tags_fold (source_tags : list string) (target_tag : string) (ns : list string) :
  forall acc changed,
    fold_left
      (fun (state : list Value * bool) tag =>
         let (new_tags, changed) := state in
         if value_in_strs tag source_tags then
           ((if value_in (VStr target_tag) new_tags then new_tags
             else new_tags ++ [VStr target_tag]), true)
         else if value_in tag new_tags then (new_tags, changed)
         else (new_tags ++ [tag], changed))
      (map VStr ns) (map VStr acc, changed)
    = (map VStr (dedupe_from
                   (map (fun s => if existsb (String.eqb s) source_tags then target_tag else s) ns)
                   acc),
       changed || existsb (fun s => existsb (String.eqb s) source_tags) ns).
Proof.
  induction ns as [|s ns IH]; intros acc changed.
  - cbn [map fold_left dedupe_from existsb]. now rewrite orb_false_r.
  - cbn [map fold_left dedupe_from existsb].
    rewrite value_in_strs_str. unfold value_in. rewrite !existsb_str.
    destruct (existsb (String.eqb s) source_tags).
    + destruct (existsb (String.eqb target_tag) acc).
      * rewrite IH. now rewrite orb_true_r.
      * change [VStr target_tag] with (map VStr [target_tag]). rewrite <- map_app.
        rewrite IH. now rewrite orb_true_r.
    + destruct (existsb (String.eqb s) acc).
      * rewrite IH. reflexivity.
      * change [VStr s] with (map VStr [s]). rewrite <- map_app.
        rewrite IH. reflexivity.
Qed.

End MergeFacts.

(** X7. What [merge_tags] does to one item whose tag names are the
    strings [ns].  If none of them is a source tag, nothing is sent and
    the count is unchanged.  Otherwise one update is sent, with the names
    [ns] in which every source tag is replaced by the target and every
    name is kept at its first occurrence only: the submitted names have no
    repetition, a name that is not a source tag is submitted exactly when
    the item has it, and the target is among them. *)
Theorem merge_tags_item_names {B : Type} (zot : Zotero B) (source_tags : list string)
    (target_tag : string) (item : Item) (updated_count : nat) (w : World B) (ns : list string) :
  item_tag_names item = Returns (map VStr ns) ->
  let is_source := fun s => existsb (String.eqb s) source_tags in
  let merged := dedupe_from (map (fun s => if is_source s then target_tag else s) ns) [] in
  NoDup merged /\
  (forall s, In s merged <->
             (In s ns /\ ~ In s source_tags) \/
             (s = target_tag /\ exists t, In t ns /\ In t source_tags)) /\
  (existsb is_source ns = false ->
   merge_tags_item zot source_tags target_tag item updated_count w = (Ok updated_count, w)) /\
  (existsb is_source ns = true ->
   log (snd (merge_tags_item zot source_tags target_tag item updated_count w))
   = log w ++ [ReqUpdateItem (set_data "tags" (tag_dicts (map VStr merged)) item)] /\
   In target_tag merged).
Proof.
  intros Hnames is_source merged.
  destruct (dedupe_from_spec
              (map (fun s => if is_source s then target_tag else s) ns) [] (NoDup_nil _))
    as [Hnd Hin].
  assert (Hmem : forall s, In s merged <->
             (In s ns /\ ~ In s source_tags) \/
             (s = target_tag /\ exists t, In t ns /\ In t source_tags)).
  { intros s. unfold merged. rewrite Hin, in_map_iff. split.
    - intros [[]|(t & E & Ht)]. unfold is_source in E.
      destruct (existsb (String.eqb t) source_tags) eqn:Es.
      + right. split; [now subst|]. exists t. split; [exact Ht|].
        now apply existsb_eqb_In.
      + left. subst t. split; [exact Ht|]. intros Hs. apply existsb_eqb_In in Hs. congruence.
    - intros [[Hs Hnot]|[-> (t & Ht & Hsrc)]]; right.
      + exists s. split; [|exact Hs]. unfold is_source.
        destruct (existsb (String.eqb s) source_tags) eqn:Es; [|reflexivity].
        apply existsb_eqb_In in Es. contradiction.
      + exists t. split; [|exact Ht]. unfold is_source.
        apply existsb_eqb_In in Hsrc. now rewrite Hsrc. }
  assert (Hmerged : merged_tags source_tags target_tag (map VStr ns)
                    = (map VStr merged, existsb is_source ns)).
  { unfold merged_tags. change (@nil Value) with (map VStr []).
    rewrite merged_tags_fold. reflexivity. }
  split; [exact Hnd|]. split; [exact Hmem|]. split.
  - intros Hnone. unfold merge_tags_item, bind. rewrite Hnames. cbn [lift ret].
    rewrite Hmerged, Hnone. reflexivity.
  - intros Hsome. split.
    + unfold merge_tags_item, bind at 1. rewrite Hnames. cbn [lift ret].
      rewrite Hmerged, Hsome. unfold try_except, bind, call. cbn [backend log library_cache].
      destruct (zot_update_item zot _ (backend w)) as [[v|e] b2]; reflexivity.
    + apply Hmem. right. split; [reflexivity|].
      apply existsb_exists in Hsome. destruct Hsome as (t & Ht & Hs).
      exists t. split; [exact Ht|]. now apply existsb_eqb_In.
Qed.

Lemma merge_tags_item_names_witness :
  let item := Sample.article "A" "10.1/a"
                [Sample.tag "ml"; Sample.tag "physics"; Sample.tag "machine-learning";
                 Sample.tag "ML"] in
  log (snd (merge_tags_item Sample.client ["ml"; "machine-learning"] "ML" item 0
              (Sample.start [item] 200)))
  = [ReqUpdateItem (set_data "tags" (tag_dicts [VStr "ML"; VStr "physics"]) item)].
Proof.
  intros item.
  destruct (merge_tags_item_names Sample.client ["ml"; "machine-learning"] "ML" item 0
              (Sample.start [item] 200) ["ml"; "physics"; "machine-learning"; "ML"] eq_refl)
    as (_ & _ & _ & Hsome).
  destruct (Hsome eq_refl) as [Hlog _]. exact Hlog.
Defined.

(** ** Renaming and deleting a tag *)

Section RetagFacts.

Context {B : Type}.
Variable zot : Zotero B.

Lemma retag_item_step (plan : list Value -> option (list Value)) (item : Item)
    (acc : nat) (w : World B) :
  tags_readable item ->
  exists n w',
    retag_item zot plan item acc w = (Ok n, w') /\
    log w' = log w ++ map ReqUpdateItem (planned_updates plan [item]) /\
    acc <= n <= acc + List.length (planned_updates plan [item]).
Proof.
  intros [names Hnames].
  unfold planned_updates. cbn [flat_map]. rewrite app_nil_r.
  unfold retag_item, planned_update, bind. rewrite Hnames. cbn [lift ret].
  destruct (plan names) as [new_tags|].
  - unfold try_except, bind, call, ret. cbn [backend log library_cache].
    destruct (zot_update_item zot _ (backend w)) as [[v|e] b2];
      eexists _, _; (split; [reflexivity|]); cbn [log map List.length]; split; try reflexivity; lia.
  - exists acc, w. cbn [map List.length]. rewrite app_nil_r. repeat split; lia.
Qed.

Lemma for_each_retag (plan : list Value -> option (list Value)) (items : list Item) :
  forall (acc : nat) (w : World B),
    Forall tags_readable items ->
    exists n w',
      for_each (retag_item zot plan) items acc w = (Ok n, w') /\
      log w' = log w ++ map ReqUpdateItem (planned_updates plan items) /\
      acc <= n <= acc + List.length (planned_updates plan items).
Proof.
  induction items as [|item items IH]; intros acc w Hall.
  - exists acc, w. cbn. rewrite app_nil_r. repeat split; lia.
  - inversion Hall as [|? ? Hitem Hrest]; subst.
    destruct (retag_item_step plan item acc w Hitem) as (n1 & w1 & E1 & L1 & R1).
    destruct (IH n1 w1 Hrest) as (n & w' & E & L & R).
    exists n, w'. cbn [for_each]. unfold bind. rewrite E1, E.
    split; [reflexivity|].
    assert (Happ : planned_updates plan (item :: items)
                   = planned_updates plan [item] ++ planned_updates plan items).
    { unfold planned_updates. cbn [flat_map]. now rewrite app_nil_r. }
    rewrite Happ, map_app, length_app, L, L1, app_assoc. split; [reflexivity | lia].
Qed.

Lemma retag_single_page (plan : list Value -> option (list Value)) (fuel : nat)
    (w : World B) (page : list Item) (b1 : B) :
  zot_items zot 0 100 None (backend w) = (Returns page, b1) ->
  List.length page < 100 ->
  Forall tags_readable page ->
  exists n w',
    _all_items zot (S fuel) None (retag_item zot plan) 0 w = (Ok n, w') /\
    log w' = log w ++ ReqItems 0 100 None :: map ReqUpdateItem (planned_updates plan page) /\
    n <= List.length (planned_updates plan page).
Proof.
  intros Hpage Hshort Hall.
  unfold _all_items. cbn [_all_items_from]. unfold bind at 1, call at 1.
  change limit with 100. rewrite Hpage.
  destruct page as [|item page'] eqn:Epage.
  - eexists _, _. split; [reflexivity|]. cbn. split; [reflexivity | lia].
  - rewrite <- Epage in *. clear Epage.
    set (w1 := mkWorld b1 (log w ++ [ReqItems 0 100 None]) (library_cache w)).
    destruct (for_each_retag plan page 0 w1 Hall) as (n & w' & E & L & R).
    exists n, w'. unfold bind. rewrite E.
    apply Nat.ltb_lt in Hshort. rewrite Hshort. split; [reflexivity|].
    rewrite L. unfold w1. cbn [log]. rewrite <- app_assoc. split; [reflexivity | lia].
Qed.

Lemma planned_updates_well_formed (plan : list Value -> option (list Value))
    (page : list Item) :
  Forall tags_well_formed page ->
  planned_updates plan page
  = flat_map (fun item =>
                match plan (map VStr (item_tag_strings item)) with
                | Some new_tags => [set_data "tags" (tag_dicts new_tags) item]
                | None => []
                end) page.
Proof.
  induction 1 as [|item page Hitem _ IH]; [reflexivity|].
  unfold planned_updates in *. cbn [flat_map]. rewrite IH. f_equal.
  unfold planned_update. rewrite Hitem.
  destruct (plan _); reflexivity.
Qed.

Lemma flat_map_filter {A C : Type} (p : A -> bool) (f : A -> C) (l : list A) :
  flat_map (fun x => if p x then [f x] else []) l = map f (filter p l).
Proof.
  induction l as [|x l IH]; [reflexivity|].
  cbn [flat_map filter]. destruct (p x); cbn [map app]; now rewrite IH.
Qed.

Lemma well_formed_readable (page : list Item) :
  Forall tags_well_formed page -> Forall tags_readable page.
Proof.
  apply Forall_impl. intros item H. eexists. exact H.
Qed.

Lemma filter_map_VStr (p : string -> bool) (q : Value -> bool) (ns : list string) :
  (forall s, q (VStr s) = p s) -> filter q (map VStr ns) = map VStr (filter p ns).
Proof.
  intros H. induction ns as [|s ns IH]; [reflexivity|].
  cbn [map filter]. rewrite H, IH. now destruct (p s).
Qed.

End RetagFacts.

(** X8. [delete_tag] on a library that the backend returns as one page
    of fewer than 100 items with well-formed tags: it asks for that page
    once, then sends one update for each item that carries the tag, in the
    order of the page, each with the item's tag names minus the tag; items
    without the tag are not written.  It returns the success dict, whose
    count is at most the number of items that carry the tag (a refused
    update is skipped without being counted). *)
Theorem delete_tag_single_page {B : Type} (zot : Zotero B) (fuel : nat) (tag_name : string)
    (w : World B) (page : list Item) (b1 : B) :
  zot_items zot 0 100 None (backend w) = (Returns page, b1) ->
  List.length page < 100 ->
  Forall tags_well_formed page ->
  let carriers := filter (fun item => existsb (String.eqb tag_name) (item_tag_strings item)) page in
  let without := fun item =>
    set_data "tags"
      (tag_dicts (map VStr (filter (fun s => negb (String.eqb s tag_name)) (item_tag_strings item))))
      item in
  exists n w',
    delete_tag zot (S fuel) tag_name w
    = (Ok (VDict [("success", VBool true);
                  ("updated_items", VInt (Z.of_nat n));
                  ("message", VStr "Tag deleted successfully")]), w') /\
    log w' = log w ++ ReqItems 0 100 None :: map (fun item => ReqUpdateItem (without item)) carriers /\
    n <= List.length carriers.
Proof.
  intros Hpage Hshort Hwf carriers without.
  destruct (retag_single_page zot (tags_without tag_name) fuel w page b1 Hpage Hshort
              (well_formed_readable page Hwf)) as (n & w' & E & L & R).
  assert (Hplan : planned_updates (tags_without tag_name) page = map without carriers).
  { rewrite (planned_updates_well_formed _ page Hwf).
    unfold carriers. rewrite <- flat_map_filter. apply flat_map_ext. intros item.
    unfold tags_without, value_in. rewrite existsb_str.
    destruct (existsb (String.eqb tag_name) (item_tag_strings item)); [|reflexivity].
    unfold without.
    now rewrite (filter_map_VStr (fun s => negb (String.eqb s tag_name))). }
  exists n, w'. unfold delete_tag, try_except, bind. rewrite E.
  split; [reflexivity|]. rewrite L, Hplan, map_map, length_map in *. split; [reflexivity | exact R].
Qed.

Lemma delete_tag_single_page_witness :
  let a := Sample.article "A" "10.1/a" [Sample.tag "old"; Sample.tag "ml"] in
  let b := Sample.article "B" "10.1/b" [Sample.tag "ml"] in
  exists n w',
    delete_tag Sample.client 1 "old" (Sample.start [a; b] 200)
    = (Ok (VDict [("success", VBool true);
                  ("updated_items", VInt (Z.of_nat n));
                  ("message", VStr "Tag deleted successfully")]), w') /\
    log w' = [ReqItems 0 100 None;
              ReqUpdateItem (set_data "tags" (tag_dicts [VStr "ml"]) a)] /\
    n <= 1.
Proof.
  intros a b.
  apply (delete_tag_single_page Sample.client 0 "old" (Sample.start [a; b] 200) [a; b]
           (Sample.mkStore [a; b] 200)).
  - reflexivity.
  - simpl. lia.
  - repeat constructor.
Defined.

(** X9. [rename_tag] on a library that the backend returns as one page
    of fewer than 100 items with well-formed tags: it asks for that page
    once, then sends one update for each item that carries the old name,
    in the order of the page, each with the item's tag names in which
    every occurrence of the old name is the new name; the other names stay
    where they are, so a name is submitted twice when the item already had
    the new name.  Items without the old name are not written, and the
    count returned is at most the number of items that carry it. *)
Theorem rename_tag_single_page {B : Type} (zot : Zotero B) (fuel : nat)
    (old_name new_name : string) (w : World B) (page : list Item) (b1 : B) :
  zot_items zot 0 100 None (backend w) = (Returns page, b1) ->
  List.length page < 100 ->
  Forall tags_well_formed page ->
  let carriers := filter (fun item => existsb (String.eqb old_name) (item_tag_strings item)) page in
  let renamed := fun item =>
    set_data "tags"
      (tag_dicts (map VStr (map (fun s => if String.eqb s old_name then new_name else s)
                              (item_tag_strings item))))
      item in
  exists n w',
    rename_tag zot (S fuel) old_name new_name w
    = (Ok (VDict [("success", VBool true);
                  ("updated_items", VInt (Z.of_nat n));
                  ("message", VStr "Tag renamed successfully")]), w') /\
    log w' = log w ++ ReqItems 0 100 None :: map (fun item => ReqUpdateItem (renamed item)) carriers /\
    n <= List.length carriers.
Proof.
  intros Hpage Hshort Hwf carriers renamed.
  destruct (retag_single_page zot (tags_renamed old_name new_name) fuel w page b1 Hpage Hshort
              (well_formed_readable page Hwf)) as (n & w' & E & L & R).
  assert (Hplan : planned_updates (tags_renamed old_name new_name) page = map renamed carriers).
  { rewrite (planned_updates_well_formed _ page Hwf).
    unfold carriers. rewrite <- flat_map_filter. apply flat_map_ext. intros item.
    unfold tags_renamed, value_in. rewrite existsb_str.
    destruct (existsb (String.eqb old_name) (item_tag_strings item)); [|reflexivity].
    unfold renamed. rewrite !map_map. do 3 f_equal.
    apply map_ext. intros s. cbn [value_eqb]. now destruct (String.eqb s old_name). }
  exists n, w'. unfold rename_tag, try_except, bind. rewrite E.
  split; [reflexivity|]. rewrite L, Hplan, map_map, length_map in *. split; [reflexivity | exact R].
Qed.

Lemma rename_tag_single_page_witness :
  let a := Sample.article "A" "10.1/a" [Sample.tag "old"; Sample.tag "new"] in
  let b := Sample.article "B" "10.1/b" [Sample.tag "ml"] in
  exists n w',
    rename_tag Sample.client 1 "old" "new" (Sample.start [a; b] 200)
    = (Ok (VDict [("success", VBool true);
                  ("updated_items", VInt (Z.of_nat n));
                  ("message", VStr "Tag renamed successfully")]), w') /\
    log w' = [ReqItems 0 100 None;
              ReqUpdateItem (set_data "tags" (tag_dicts [VStr "new"; VStr "new"]) a)] /\
    n <= 1.
Proof.
  intros a b.
  apply (rename_tag_single_page Sample.client 0 "old" "new" (Sample.start [a; b] 200) [a; b]
           (Sample.mkStore [a; b] 200)).
  - reflexivity.
  - simpl. lia.
  - repeat constructor.
Defined.

(** ** Notes and attachments *)

(** X10. [delete_attachment] and [delete_note] never raise and always
    return a result dict.  Each reads the item first and asks the backend
    to delete it only when that read succeeded and the item read has the
    right type: an attachment for [delete_attachment], a note for
    [delete_note].  In every other case the read is the only request. *)
Theorem delete_guards_item_type {B : Type} (zot : Zotero B) (key : string) (w : World B) :
  let read := fst (zot_item zot key (backend w)) in
  let guarded := fun (right_type : Item -> bool) =>
    match read with
    | Returns item => if right_type item then [ReqDeleteItem key] else []
    | Raises _ => []
    end in
  (exists v, fst (delete_attachment zot key w) = Ok v /\ success_dict v) /\
  log (snd (delete_attachment zot key w)) = log w ++ ReqItem key :: guarded is_attachment /\
  (exists v, fst (delete_note zot key w) = Ok v /\ success_dict v) /\
  log (snd (delete_note zot key w)) = log w ++ ReqItem key :: guarded is_note.
Proof.
  cbv zeta.
  unfold delete_attachment, delete_note, try_except, bind, call, ret, success_dict, error_dict.
  destruct (zot_item zot key (backend w)) as [[item|e] b1]; cbn [fst snd backend log library_cache].
  - destruct (is_attachment item), (is_note item); cbn [negb fst snd backend log library_cache];
      destruct (zot_delete_item zot key b1) as [[v|e] b2]; cbn [fst snd log];
      rewrite <- ?app_assoc; repeat split; eauto.
  - repeat split; eauto.
Qed.


(** ** Counting *)

Section CounterFacts.

Lemma value_eqb_str_comm (s : string) (v : Value) :
  value_eqb (VStr s) v = value_eqb v (VStr s).
Proof. destruct v; simpl; try reflexivity. apply String.eqb_sym. Qed.

Lemma counter_add_total (v : Value) (d : list (Value * nat)) :
  total_count (counter_add v d) = S (total_count d).
Proof.
  induction d as [|[k n] d IH]; [reflexivity|].
  cbn [counter_add]. destruct (value_eqb v k); unfold total_count in *; simpl in *; lia.
Qed.

Lemma counter_get_add (v : Value) (s : string) (d : list (Value * nat)) :
  counter_get (VStr s) (counter_add v d)
  = (if value_eqb v (VStr s) then 1 else 0) + counter_get (VStr s) d.
Proof.
  unfold counter_get. induction d as [|[k n] d IH].
  - cbn [counter_add vdict_get]. rewrite value_eqb_str_comm.
    now destruct (value_eqb v (VStr s)).
  - cbn [counter_add]. destruct (value_eqb v k) eqn:E; cbn [vdict_get].
    + destruct (value_eqb (VStr s) k) eqn:Ek.
      * rewrite value_eqb_str_comm in Ek. apply value_eqb_str_r in Ek. subst k.
        now rewrite E.
      * destruct (value_eqb v (VStr s)) eqn:Ev; [|reflexivity].
        apply value_eqb_str_r in Ev. subst v. congruence.
    + destruct (value_eqb (VStr s) k) eqn:Ek; [|exact IH].
      rewrite value_eqb_str_comm in Ek. apply value_eqb_str_r in Ek. subst k.
      now rewrite E.
Qed.

Lemma counter_from_counts : forall (ts : list string) (d : list (Value * nat)),
  exists counts,
    counter_from (map VStr ts) d = Returns counts /\
    forall s, counter_get (VStr s) counts = counter_get (VStr s) d + occurrences s ts.
Proof.
  induction ts as [|t ts IH]; intros d.
  - exists d. split; [reflexivity|]. intros s. simpl. lia.
  - destruct (IH (counter_add (VStr t) d)) as (counts & Hcount & Hget).
    exists counts. split; [exact Hcount|].
    intros s. rewrite Hget, counter_get_add. cbn [value_eqb occurrences]. lia.
Qed.

Lemma type_counts_fold (items : list Item) :
  Forall (fun item =>
            hashable (dict_get_default "itemType" (VStr "unknown") (item_data item)) = true)
         items ->
  forall acc,
  exists counts,
    fold_response
      (fun item type_counts =>
         let item_type := dict_get_default "itemType" (VStr "unknown") (item_data item) in
         if hashable item_type then Returns (counter_add item_type type_counts)
         else Raises unhashable)
      items acc = Returns counts /\
    total_count counts = total_count acc + List.length items /\
    forall s, counter_get (VStr s) counts
              = counter_get (VStr s) acc +
                List.length
                  (filter (fun item =>
                             value_eqb (dict_get_default "itemType" (VStr "unknown")
                                          (item_data item)) (VStr s))
                          items).
Proof.
  induction 1 as [|item items Hitem _ IH]; intros acc.
  - exists acc. split; [reflexivity|]. split; [simpl; lia|]. intros s. simpl. lia.
  - cbn [fold_response]. cbv zeta. rewrite Hitem.
    destruct (IH (counter_add (dict_get_default "itemType" (VStr "unknown") (item_data item)) acc))
      as (counts & Hfold & Htotal & Hget).
    exists counts. split; [exact Hfold|]. split.
    + rewrite Htotal, counter_add_total. simpl. lia.
    + intros s. rewrite Hget, counter_get_add. cbn [filter].
      destruct (value_eqb _ (VStr s)); simpl; lia.
Qed.

End CounterFacts.

(** X12. [items_per_type] counts every item once.  When the items that
    [_all_items] yields have hashable item types, the counts it returns
    add up to the number of items, and the count under a type name is the
    number of items of that type, an item without ["itemType"] counting
    under ["unknown"]; it sends the requests of one pass over the
    library. *)
Theorem items_per_type_counts {B : Type} (zot : Zotero B) (fuel : nat) (w w' : World B)
    (items : list Item) :
  let type_of := fun item => dict_get_default "itemType" (VStr "unknown") (item_data item) in
  list_all_items zot fuel None w = (Ok items, w') ->
  Forall (fun item => hashable (type_of item) = true) items ->
  exists counts,
    items_per_type zot fuel w = (Ok counts, w') /\
    total_count counts = List.length items /\
    forall s, counter_get (VStr s) counts
              = List.length (filter (fun item => value_eqb (type_of item) (VStr s)) items).
Proof.
  intros type_of Hlist Hhash.
  destruct (type_counts_fold items Hhash []) as (counts & Hfold & Htotal & Hget).
  exists counts. split; [|split; [exact Htotal | exact Hget]].
  unfold items_per_type.
  apply (all_items_fold zot None fuel w w' items Hlist _
           (fun item type_counts =>
              let item_type := dict_get_default "itemType" (VStr "unknown") (item_data item) in
              if hashable item_type then Returns (counter_add item_type type_counts)
              else Raises unhashable)).
  - intros x a w0. cbv zeta. now destruct (hashable _).
  - exact Hfold.
Qed.

Lemma items_per_type_counts_witness :
  let library := [Sample.article "A" "10.1/a" []; mkItem "B" [("title", VStr "untyped")] None;
                  Sample.stored_pdf "C" "A"; Sample.article "D" "10.1/d" []] in
  exists counts,
    fst (items_per_type Sample.client 2 (Sample.start library 200)) = Ok counts /\
    total_count counts = 4 /\
    counter_get (VStr "journalArticle") counts = 2 /\
    counter_get (VStr "unknown") counts = 1.
Proof.
  intros library.
  destruct (items_per_type_counts Sample.client 2 (Sample.start library 200)
              (mkWorld (Sample.mkStore library 200) [ReqItems 0 100 None] None) library)
    as (counts & Hrun & Htotal & Hget).
  - reflexivity.
  - repeat constructor.
  - exists counts. rewrite Hrun. split; [reflexivity|]. split; [exact Htotal|].
    split; rewrite Hget; reflexivity.
Defined.

(** X13. The counts of [all_tags]: on a library whose tags are well
    formed, the count it returns under a tag name is the number of times
    that name occurs among the tags of all items, empty names left out; a
    name no item carries counts zero. *)
Theorem all_tags_counts {B : Type} (zot : Zotero B) (fuel : nat) (w w' : World B)
    (items : list Item) :
  list_all_items zot fuel None w = (Ok items, w') ->
  Forall tags_well_formed items ->
  exists counts,
    all_tags zot fuel w = (Ok counts, w') /\
    forall s, counter_get (VStr s) counts
              = occurrences s (filter nonempty (flat_map item_tag_strings items)).
Proof.
  intros Hlist Hwf.
  destruct (counter_from_counts (filter nonempty (flat_map item_tag_strings items)) [])
    as (counts & Hcount & Hget).
  exists counts. split; [|exact Hget].
  unfold all_tags, bind.
  rewrite (all_items_fold zot None fuel w w' items Hlist _
             (fun item tags =>
                match item_tag_names item with
                | Raises e => Raises e
                | Returns names => Returns (tags ++ filter truthy names)
                end)
             _ [] (map VStr (filter nonempty (flat_map item_tag_strings items)))).
  - unfold counter. rewrite Hcount. reflexivity.
  - intros x a w0. unfold bind, lift. destruct (item_tag_names x); reflexivity.
  - apply (all_tags_fold items Hwf []).
Qed.

Lemma all_tags_counts_witness :
  let library := [Sample.article "A" "10.1/a" [Sample.tag "ml"; Sample.tag "physics"];
                  Sample.article "B" "10.1/b" [Sample.tag "ml"; Sample.tag "ml"]] in
  exists counts,
    fst (all_tags Sample.client 2 (Sample.start library 200)) = Ok counts /\
    counter_get (VStr "ml") counts = 3 /\
    counter_get (VStr "absent") counts = 0.
Proof.
  intros library.
  destruct (all_tags_counts Sample.client 2 (Sample.start library 200)
              (mkWorld (Sample.mkStore library 200) [ReqItems 0 100 None] None) library)
    as (counts & Hrun & Hget).
  - reflexivity.
  - repeat constructor.
  - exists counts. rewrite Hrun. split; [reflexivity|].
    split; rewrite Hget; reflexivity.
Defined.

(** ** Searching *)

Section SearchFacts.

Context {B : Type}.
Variable zot : Zotero B.

Lemma is_substring_empty (s : string) : is_substring EmptyString s = true.
Proof. destruct s; reflexivity. Qed.

Lemma title_fold (query : string) (lowered : Item -> string) (items : list Item) :
  (forall item, In item items ->
     lower_of (or_empty (dict_get_default "title" (VStr EmptyString) (item_data item)))
     = Returns (lowered item)) ->
  forall acc,
    fold_response
      (fun item results =>
         match title_matches query item with
         | Raises e => Raises e
         | Returns found => Returns (if found then results ++ [item] else results)
         end)
      items acc
    = Returns (acc ++ filter (fun item => is_substring (Str.lower query) (lowered item)) items).
Proof.
  induction items as [|item items IH]; intros Htitles acc.
  - cbn. now rewrite app_nil_r.
  - cbn [fold_response filter]. unfold title_matches at 1.
    rewrite (Htitles item) by now left.
    rewrite IH by (intros x Hx; apply Htitles; now right).
    destruct (is_substring (Str.lower query) (lowered item)); [|reflexivity].
    now rewrite <- app_assoc.
Qed.

Lemma search_by_title_run (fuel : nat) (query : string) (w w' : World B)
    (items : list Item) (lowered : Item -> string) :
  list_all_items zot fuel None w = (Ok items, w') ->
  (forall item, In item items ->
     lower_of (or_empty (dict_get_default "title" (VStr EmptyString) (item_data item)))
     = Returns (lowered item)) ->
  search_by_title zot fuel query w
  = (Ok (filter (fun item => is_substring (Str.lower query) (lowered item)) items), w').
Proof.
  intros Hlist Htitles. unfold search_by_title.
  apply (all_items_fold zot None fuel w w' items Hlist _
           (fun item results =>
              match title_matches query item with
              | Raises e => Raises e
              | Returns found => Returns (if found then results ++ [item] else results)
              end)).
  - intros x a w0. unfold bind, lift. destruct (title_matches query x); reflexivity.
  - apply (title_fold query lowered items Htitles []).
Qed.

Lemma find_response_app {A : Type} (f : A -> Response bool) (xs ys : list A) :
  find_response f (xs ++ ys)
  = match find_response f xs with
    | Returns None => find_response f ys
    | r => r
    end.
Proof.
  induction xs as [|x xs IH]; [reflexivity|].
  cbn [app find_response]. destruct (f x) as [[|]|e]; [reflexivity | exact IH | reflexivity].
Qed.

Lemma find_response_first {A : Type} (f : A -> Response bool) (l : list A) (found : option A) :
  find_response f l = Returns found ->
  match found with
  | Some x => exists before after,
                l = before ++ x :: after /\
                Forall (fun y => f y = Returns false) before /\
                f x = Returns true
  | None => Forall (fun y => f y = Returns false) l
  end.
Proof.
  revert found. induction l as [|y l IH]; intros found H.
  - injection H as <-. constructor.
  - cbn [find_response] in H. destruct (f y) as [[|]|e] eqn:Ey; [| |discriminate].
    + injection H as <-. exists [], l. repeat split; [constructor | exact Ey].
    + specialize (IH found H). destruct found as [x|].
      * destruct IH as (before & after & -> & Hbefore & Hx).
        exists (y :: before), after. repeat split; [now constructor | exact Hx].
      * now constructor.
Qed.

(** The loop that stops at the first hit reads a prefix of what the
    full loop reads, and finds the first hit among the items of the full
    loop. *)
Lemma all_items_first_spec :
  forall fuel start l0 w r w',
    _all_items_from zot fuel None (fun item acc => ret (acc ++ [item])) start l0 w
    = (Ok r, w') ->
    exists items,
      r = l0 ++ items /\
      (exists sent, log w' = log w ++ sent) /\
      forall (test : Item -> Response bool) (found : option Item),
        find_response test items = Returns found ->
        exists w'' rest,
          _all_items_first zot fuel test start w = (Ok found, w'') /\
          log w' = log w'' ++ rest /\
          (found = None -> w'' = w').
Proof.
  induction fuel as [|fuel IH]; intros start l0 w r w' H; [discriminate|].
  cbn [_all_items_from] in H. unfold bind at 1, call in H.
  destruct (zot_items zot start limit None (backend w)) as [[page|e] b1] eqn:E;
    [|discriminate].
  destruct page as [|x xs].
  - injection H as <- <-. exists []. split; [now rewrite app_nil_r|].
    split; [eexists; reflexivity|].
    intros test found Hfind. injection Hfind as <-.
    eexists _, []. cbn [_all_items_first]. unfold bind at 1, call. rewrite E.
    split; [reflexivity|]. split; [now rewrite app_nil_r | reflexivity].
  - unfold bind in H. rewrite for_each_collect in H.
    destruct (List.length (x :: xs) <? limit) eqn:Hshort.
    + injection H as <- <-. exists (x :: xs). split; [reflexivity|].
      split; [eexists; reflexivity|].
      intros test found Hfind.
      eexists _, []. cbn [_all_items_first]. unfold bind at 1, call. rewrite E.
      unfold bind. rewrite Hfind. cbn [lift ret]. rewrite Hshort.
      split; [now destruct found|]. split; [now rewrite app_nil_r | reflexivity].
    + destruct (IH _ _ _ _ _ H) as (items & -> & [sent Hsent] & Hrest).
      cbn [log] in Hsent.
      exists ((x :: xs) ++ items). split; [now rewrite app_assoc|].
      split; [eexists; rewrite Hsent, <- app_assoc; reflexivity|].
      intros test found Hfind.
      rewrite find_response_app in Hfind.
      cbn [_all_items_first]. unfold bind at 1, call. rewrite E. unfold bind.
      destruct (find_response test (x :: xs)) as [[item|]|e] eqn:Hpage; [| |discriminate].
      * injection Hfind as <-. cbn [lift ret].
        eexists _, sent. split; [reflexivity|]. split; [exact Hsent | discriminate].
      * cbn [lift ret]. rewrite Hshort. exact (Hrest test found Hfind).
Qed.

End SearchFacts.

(** X14. [search_by_title] returns, in library order, the items whose
    lowercased title contains the lowercased query, a missing or empty
    title counting as the empty string; it leaves the world as one pass
    over the library does.  The empty query returns every item, and two
    queries with the same lowercase give the same result. *)
Theorem search_by_title_filters {B : Type} (zot : Zotero B) (fuel : nat) (query : string)
    (w w' : World B) (items : list Item) (lowered : Item -> string) :
  list_all_items zot fuel None w = (Ok items, w') ->
  (forall item, In item items ->
     lower_of (or_empty (dict_get_default "title" (VStr EmptyString) (item_data item)))
     = Returns (lowered item)) ->
  search_by_title zot fuel query w
  = (Ok (filter (fun item => is_substring (Str.lower query) (lowered item)) items), w') /\
  search_by_title zot fuel EmptyString w = (Ok items, w') /\
  (forall query', Str.lower query' = Str.lower query ->
                  search_by_title zot fuel query' w = search_by_title zot fuel query w).
Proof.
  intros Hlist Htitles. split; [|split].
  - now apply search_by_title_run.
  - rewrite (search_by_title_run zot fuel EmptyString w w' items lowered Hlist Htitles).
    rewrite filter_id; [reflexivity|]. intros item _. apply is_substring_empty.
  - intros query' Hlower.
    rewrite (search_by_title_run zot fuel query' w w' items lowered Hlist Htitles).
    rewrite (search_by_title_run zot fuel query w w' items lowered Hlist Htitles).
    now rewrite Hlower.
Qed.

Lemma search_by_title_filters_witness :
  let a := mkItem "A" [("itemType", VStr "book"); ("title", VStr "Deep Learning")] None in
  let b := mkItem "B" [("itemType", VStr "book"); ("title", VNone)] None in
  let c := mkItem "C" [("itemType", VStr "book"); ("title", VStr "Machine learning")] None in
  fst (search_by_title Sample.client 2 "LEARN" (Sample.start [a; b; c] 200)) = Ok [a; c].
Proof.
  intros a b c.
  destruct (search_by_title_filters Sample.client 2 "LEARN" (Sample.start [a; b; c] 200)
              (mkWorld (Sample.mkStore [a; b; c] 200) [ReqItems 0 100 None] None) [a; b; c]
              (fun item =>
                 match lower_of (or_empty (dict_get_default "title" (VStr EmptyString)
                                             (item_data item))) with
                 | Returns t => t
                 | Raises _ => EmptyString
                 end))
    as [Hrun _].
  - reflexivity.
  - intros item [<-|[<-|[<-|[]]]]; reflexivity.
  - rewrite Hrun. reflexivity.
Defined.

Section FirstFacts.

Context {B : Type}.
Variable zot : Zotero B.

Lemma find_response_ext {A : Type} (f g : A -> Response bool) (l : list A) :
  (forall x, f x = g x) -> find_response f l = find_response g l.
Proof.
  intros H. induction l as [|x l IH]; [reflexivity|].
  cbn [find_response]. now rewrite H, IH.
Qed.

Lemma all_items_first_ext (test1 test2 : Item -> Response bool) :
  (forall item, test1 item = test2 item) ->
  forall fuel start w,
    _all_items_first zot fuel test1 start w = _all_items_first zot fuel test2 start w.
Proof.
  intros H. induction fuel as [|fuel IH]; intros start w; [reflexivity|].
  cbn [_all_items_first]. unfold bind at 1 3, call.
  destruct (zot_items zot start limit None (backend w)) as [[page|e] b1]; [|reflexivity].
  destruct page as [|x xs]; [reflexivity|].
  unfold bind. rewrite (find_response_ext test1 test2 (x :: xs) H).
  destruct (find_response test2 (x :: xs)) as [[item|]|e]; cbn [lift ret raise];
    try reflexivity.
  destruct (List.length (x :: xs) <? limit); [reflexivity | apply IH].
Qed.

End FirstFacts.

(** X15. [get_item_by_isbn] returns the first item, in the order in
    which [_all_items] yields the library, whose ISBN equals the query
    once hyphens and spaces are removed from both, and [None] when there
    is none.  It stops reading at the page of that item: the requests it
    sends are a prefix of those of a full pass, and all of them when
    nothing is found.  Hyphens and spaces in the query do not matter. *)
Theorem get_item_by_isbn_first_match {B : Type} (zot : Zotero B) (fuel : nat) (isbn : string)
    (w w' : World B) (items : list Item) (found : option Item) :
  list_all_items zot fuel None w = (Ok items, w') ->
  find_response (isbn_matches isbn) items = Returns found ->
  (exists w'' rest,
     get_item_by_isbn zot fuel isbn w = (Ok found, w'') /\
     log w' = log w'' ++ rest /\
     (found = None -> w'' = w')) /\
  match found with
  | Some item => exists before after,
                   items = before ++ item :: after /\
                   Forall (fun other => isbn_matches isbn other = Returns false) before /\
                   isbn_matches isbn item = Returns true
  | None => Forall (fun other => isbn_matches isbn other = Returns false) items
  end /\
  (forall isbn', without_hyphens_and_spaces isbn' = without_hyphens_and_spaces isbn ->
                 get_item_by_isbn zot fuel isbn' w = get_item_by_isbn zot fuel isbn w).
Proof.
  intros Hlist Hfind.
  destruct (all_items_first_spec zot fuel 0 [] w items w' Hlist)
    as (items' & Heq & _ & Hspec).
  cbn [app] in Heq. subst items'.
  split; [|split].
  - exact (Hspec _ _ Hfind).
  - exact (find_response_first _ _ _ Hfind).
  - intros isbn' Hclean. unfold get_item_by_isbn.
    apply all_items_first_ext. intros item.
    unfold isbn_matches. cbv zeta. now rewrite !ReShape.delete_twice, Hclean.
Qed.

Lemma get_item_by_isbn_first_match_witness :
  let a := mkItem "A" [("itemType", VStr "book"); ("ISBN", VStr "0-306-40615-2")] None in
  let b := mkItem "B" [("itemType", VStr "book"); ("ISBN", VStr "978 0 13 468599 1")] None in
  let c := mkItem "C" [("itemType", VStr "book"); ("ISBN", VStr "9780134685991")] None in
  fst (get_item_by_isbn Sample.client 2 "978-0134685991" (Sample.start [a; b; c] 200))
  = Ok (Some b).
Proof.
  intros a b c.
  destruct (get_item_by_isbn_first_match Sample.client 2 "978-0134685991"
              (Sample.start [a; b; c] 200)
              (mkWorld (Sample.mkStore [a; b; c] 200) [ReqItems 0 100 None] None)
              [a; b; c] (Some b))
    as [(w'' & rest & Hrun & _) _].
  - reflexivity.
  - reflexivity.
  - rewrite Hrun. reflexivity.
Defined.

(** ** Items without attachments *)

Section AttachmentFacts.

Lemma filter_response_returns {A : Type} (f : A -> Response bool) (l r : list A) :
  filter_response f l = Returns r ->
  r = filter (fun x => match f x with Returns b => b | Raises _ => false end) l.
Proof.
  revert r. induction l as [|x l IH]; intros r H.
  - now injection H as <-.
  - cbn [filter_response] in H. cbn [filter].
    destruct (f x) as [b|e]; [|discriminate].
    destruct (filter_response f l) as [ys|e]; [|discriminate].
    injection H as <-. rewrite (IH ys eq_refl). now destruct b.
Qed.

Lemma any_attachment_none (children : list Item) :
  any_attachment children = Returns false -> any_pdf children = Returns false.
Proof.
  induction children as [|c children IH]; intros H; [reflexivity|].
  cbn [any_attachment any_pdf] in *.
  destruct (child_item_type c) as [t|e]; [|discriminate].
  destruct (value_eqb t (VStr "attachment")); [discriminate|].
  cbn [andb]. now apply IH.
Qed.

Lemma filter_filter {A : Type} (p q : A -> bool) (l : list A) :
  (forall x, In x l -> p x = true -> q x = true) ->
  filter p (filter q l) = filter p l.
Proof.
  induction l as [|x l IH]; intros H; [reflexivity|].
  cbn [filter]. assert (IH' := IH (fun y Hy => H y (or_intror Hy))).
  destruct (q x) eqn:Eq; cbn [filter].
  - now rewrite IH'.
  - destruct (p x) eqn:Ep; [|exact IH'].
    rewrite (H x (or_introl eq_refl) Ep) in Eq. discriminate.
Qed.

End AttachmentFacts.

(** X16. When [items_without_attachments] and [items_without_pdf] both
    return, they have read the same snapshot of the library, and the items
    without attachments are the items without PDF that have no attachment
    child at all, in the same order: every item reported as having no
    attachment is also reported as having no PDF. *)
Theorem items_without_attachments_have_no_pdf {B : Type} (zot : Zotero B) (fuel : nat)
    (w w1 w2 : World B) (bare no_pdf : list Item) :
  items_without_attachments zot fuel w = (Ok bare, w1) ->
  items_without_pdf zot fuel w = (Ok no_pdf, w2) ->
  w1 = w2 /\
  bare = filter (fun item =>
                   match any_attachment (get_children item) with
                   | Returns false => true
                   | _ => false
                   end) no_pdf /\
  (forall item, In item bare -> In item no_pdf).
Proof.
  unfold items_without_attachments, items_without_pdf, bind.
  destruct (_get_library_with_children zot fuel w) as [[items|e|] w0]; try discriminate.
  intros Hbare Hpdf.
  destruct (filter_response (fun item => negate (any_attachment (get_children item))) items)
    as [r1|e1] eqn:E1; [|discriminate].
  destruct (filter_response (fun item => negate (any_pdf (get_children item))) items)
    as [r2|e2] eqn:E2; [|discriminate].
  cbn [lift ret] in Hbare, Hpdf. injection Hbare as <- <-. injection Hpdf as <- <-.
  apply filter_response_returns in E1, E2.
  assert (Hsub : r1 = filter (fun item =>
                   match any_attachment (get_children item) with
                   | Returns false => true
                   | _ => false
                   end) r2).
  { rewrite E1, E2. rewrite filter_filter.
    - apply filter_ext. intros item.
      now destruct (any_attachment (get_children item)) as [[|]|].
    - intros item _ H.
      destruct (any_attachment (get_children item)) as [[|]|] eqn:Ea; try discriminate.
      now rewrite (any_attachment_none _ Ea). }
  split; [reflexivity|]. split; [exact Hsub|].
  intros item Hin. rewrite Hsub in Hin. now apply filter_In in Hin.
Qed.

Lemma items_without_attachments_have_no_pdf_witness :
  let a := Sample.article "A" "10.1/a" [] in
  let b := Sample.article "B" "10.1/b" [] in
  let c := Sample.article "C" "10.1/c" [] in
  let pdf := Sample.stored_pdf "P" "A" in
  let page := mkItem "H" [("itemType", VStr "attachment"); ("parentItem", VStr "B");
                          ("contentType", VStr "text/html")] None in
  let library := [a; b; c; pdf; page] in
  exists bare no_pdf,
    fst (items_without_attachments Sample.client 3 (Sample.start library 200)) = Ok bare /\
    fst (items_without_pdf Sample.client 3 (Sample.start library 200)) = Ok no_pdf /\
    map item_key bare = ["C"; "P"; "H"] /\
    map item_key no_pdf = ["B"; "C"; "P"; "H"] /\
    (forall item, In item bare -> In item no_pdf).
Proof.
  intros a b c pdf page library.
  destruct (items_without_attachments Sample.client 3 (Sample.start library 200))
    as [[bare| |] w1] eqn:E1; try discriminate E1.
  destruct (items_without_pdf Sample.client 3 (Sample.start library 200))
    as [[no_pdf| |] w2] eqn:E2; try discriminate E2.
  exists bare, no_pdf.
  destruct (items_without_attachments_have_no_pdf Sample.client 3 (Sample.start library 200)
              w1 w2 bare no_pdf E1 E2) as (_ & _ & Hin).
  vm_compute in E1. vm_compute in E2.
  injection E1 as <- _. injection E2 as <- _.
  repeat split; exact Hin.
Defined.

(** ** The snapshot of the library *)

Section SnapshotFacts.

Variable pool : list Item.

Lemma grown_refl (x : Item) : grown pool x x.
Proof.
  repeat split. exists []. split; [now rewrite app_nil_r | constructor].
Qed.

Lemma grown_trans (x y z : Item) : grown pool x y -> grown pool y z -> grown pool x z.
Proof.
  intros (Hk1 & Hd1 & a1 & Hc1 & Ha1) (Hk2 & Hd2 & a2 & Hc2 & Ha2).
  split; [congruence|]. split; [congruence|].
  exists (a1 ++ a2). split; [now rewrite Hc2, Hc1, app_assoc|].
  apply Forall_app. split; [exact Ha1|].
  revert Ha2. apply Forall_impl. intros c [Hin Hp]. split; [exact Hin|]. now rewrite <- Hk1.
Qed.

Lemma all_grown_refl (l : list Item) : Forall2 (grown pool) l l.
Proof. induction l; constructor; [apply grown_refl | assumption]. Qed.

Lemma all_grown_trans (l1 l2 l3 : list Item) :
  Forall2 (grown pool) l1 l2 -> Forall2 (grown pool) l2 l3 -> Forall2 (grown pool) l1 l3.
Proof.
  intros H. revert l3. induction H as [|x y l1 l2 Hxy _ IH]; intros l3 H23.
  - inversion H23. constructor.
  - inversion H23 as [|? z ? l3' Hyz Hrest]; subst.
    constructor; [now apply (grown_trans x y z) | now apply IH].
Qed.

Lemma all_grown_rev (l l' : list Item) :
  Forall2 (grown pool) l l' -> Forall2 (grown pool) (rev l) (rev l').
Proof.
  induction 1 as [|x y l l' Hxy _ IH]; [constructor|].
  cbn [rev]. apply Forall2_app; [exact IH | now constructor].
Qed.

Lemma append_child_first_grown (k : string) (child : Item) (l : list Item) :
  In child pool ->
  dict_get "parentItem" (item_data child) = Some (VStr k) ->
  Forall2 (grown pool) l (append_child_first k child l).
Proof.
  intros Hin Hparent. induction l as [|x l IH]; [constructor|].
  cbn [append_child_first]. destruct (String.eqb (item_key x) k) eqn:E.
  - constructor; [|apply all_grown_refl].
    apply String.eqb_eq in E. repeat split.
    exists [child]. split; [reflexivity|].
    constructor; [|constructor]. split; [exact Hin | now rewrite E].
  - constructor; [apply grown_refl | exact IH].
Qed.

Lemma append_child_grown (k : string) (child : Item) (l : list Item) :
  In child pool ->
  dict_get "parentItem" (item_data child) = Some (VStr k) ->
  Forall2 (grown pool) l (append_child k child l).
Proof.
  intros Hin Hparent. unfold append_child.
  rewrite <- (rev_involutive l) at 1. apply all_grown_rev.
  now apply append_child_first_grown.
Qed.

Lemma group_child_grown (items items' : list Item) (child : Item) :
  In child pool ->
  group_child items child = Returns items' ->
  Forall2 (grown pool) items items'.
Proof.
  intros Hin. unfold group_child.
  destruct (dict_get "parentItem" (item_data child)) as [parent_key|] eqn:Hparent.
  - destruct (truthy parent_key).
    + destruct parent_key; intros H; try discriminate; injection H as <-;
        try apply all_grown_refl.
      now apply append_child_grown.
    + intros H. injection H as <-. apply all_grown_refl.
  - intros H. injection H as <-. apply all_grown_refl.
Qed.

Lemma group_children_grown (children : list Item) :
  (forall child, In child children -> In child pool) ->
  forall items items',
    group_children items children = Returns items' ->
    Forall2 (grown pool) items items'.
Proof.
  induction children as [|child children IH]; intros Hpool items items' H.
  - injection H as <-. apply all_grown_refl.
  - cbn [group_children] in H.
    destruct (group_child items child) as [mid|e] eqn:Hmid; [|discriminate].
    apply (all_grown_trans items mid items').
    + apply (group_child_grown items mid child); [apply Hpool; now left | exact Hmid].
    + apply IH; [intros c Hc; apply Hpool; now right | exact H].
Qed.

Lemma all_grown_keys (l l' : list Item) :
  Forall2 (grown pool) l l' -> map item_key l' = map item_key l.
Proof.
  induction 1 as [|x y l l' (Hk & _) _ IH]; [reflexivity|].
  cbn [map]. now rewrite Hk, IH.
Qed.

Lemma all_grown_keeps (l l' : list Item) :
  Forall2 (grown pool) l l' ->
  forall r c, In r l -> In c (get_children r) ->
  exists r', In r' l' /\ item_key r' = item_key r /\ In c (get_children r').
Proof.
  induction 1 as [|x y l l' (Hk & _ & added & Hc & _) _ IH]; intros r c Hr Hin; [destruct Hr|].
  destruct Hr as [<-|Hr].
  - exists y. split; [now left|]. split; [exact Hk|].
    rewrite Hc. apply in_or_app. now left.
  - destruct (IH r c Hr Hin) as (r' & Hr' & Hkey & Hchild).
    exists r'. split; [now right | now split].
Qed.

End SnapshotFacts.

Section SnapshotPlaces.

Lemma append_child_first_adds (k : string) (c : Item) (l : list Item) :
  In k (map item_key l) ->
  exists r, In r (append_child_first k c l) /\ item_key r = k /\ In c (get_children r).
Proof.
  induction l as [|x l IH]; intros Hk; [destruct Hk|].
  cbn [append_child_first]. destruct (String.eqb (item_key x) k) eqn:E.
  - apply String.eqb_eq in E.
    exists (set_children (get_children x ++ [c]) x). split; [now left|].
    split; [exact E|]. unfold get_children at 1. cbn [set_children item_children].
    apply in_or_app. right. now left.
  - destruct Hk as [Hk|Hk].
    + apply String.eqb_neq in E. contradiction.
    + destruct (IH Hk) as (r & Hr & Hkey & Hc). exists r. split; [now right | now split].
Qed.

Lemma append_child_adds (k : string) (c : Item) (l : list Item) :
  In k (map item_key l) ->
  exists r, In r (append_child k c l) /\ item_key r = k /\ In c (get_children r).
Proof.
  intros Hk. unfold append_child.
  destruct (append_child_first_adds k c (rev l)) as (r & Hr & Hkey & Hc).
  - rewrite map_rev. now apply in_rev in Hk.
  - exists r. split; [|now split]. now apply in_rev in Hr.
Qed.

Lemma group_children_places (children : list Item) :
  forall items items' child k,
    group_children items children = Returns items' ->
    In child children ->
    dict_get "parentItem" (item_data child) = Some (VStr k) ->
    k <> EmptyString ->
    In k (map item_key items) ->
    exists r, In r items' /\ item_key r = k /\ In child (get_children r).
Proof.
  induction children as [|c0 rest IH]; intros items items' child k H Hin Hparent Hk Hkey;
    [destruct Hin|].
  cbn [group_children] in H.
  destruct (group_child items c0) as [mid|e] eqn:Hmid; [|discriminate].
  destruct Hin as [->|Hin].
  - unfold group_child in Hmid. rewrite Hparent in Hmid. cbn [truthy] in Hmid.
    apply String.eqb_neq in Hk. rewrite Hk in Hmid. cbn [negb] in Hmid.
    injection Hmid as <-.
    destruct (append_child_adds k child items Hkey) as (r & Hr & Hrk & Hc).
    assert (Hgrown := group_children_grown rest rest (fun c Hc => Hc) _ _ H).
    destruct (all_grown_keeps rest _ _ Hgrown r child Hr Hc) as (r' & Hr' & Hk' & Hc').
    exists r'. split; [exact Hr'|]. split; [congruence | exact Hc'].
  - apply (IH mid items' child k H Hin Hparent Hk).
    assert (Hgrown := group_child_grown [c0] items mid c0 (or_introl eq_refl) Hmid).
    now rewrite (all_grown_keys [c0] _ _ Hgrown).
Qed.

Lemma grown_snapshot (pool : list Item) (items : list Item) : forall result,
  Forall2 (grown pool) (map (set_children []) items) result ->
  Forall2 (snapshot_of pool) items result.
Proof.
  induction items as [|x items IH]; intros result H; inversion H as [|? y ? l' Hxy Hrest]; subst.
  - constructor.
  - constructor; [|now apply IH].
    destruct Hxy as (Hk & Hd & added & Hc & Hadded).
    split; [exact Hk|]. split; [exact Hd|]. rewrite Hc. exact Hadded.
Qed.

End SnapshotPlaces.

(** X17. What [_get_library_with_children] builds when nothing is
    cached and it returns.  It makes three passes over the library (all
    items, attachments, notes), stores its result as the cache, and the
    result is the list of all items in the order fetched, each with its
    key and data unchanged.  Under ["_children"] an item holds only
    fetched attachments and notes whose ["parentItem"] is its own key, and
    every fetched attachment or note whose non-empty ["parentItem"] is the
    key of a fetched item sits under an item with that key. *)
Theorem library_snapshot_groups_children {B : Type} (zot : Zotero B) (fuel : nat)
    (w w' : World B) (result : list Item) :
  library_cache w = None ->
  _get_library_with_children zot fuel w = (Ok result, w') ->
  exists items attachments notes w1 w2 w3,
    list_all_items zot fuel None w = (Ok items, w1) /\
    list_all_items zot fuel (Some "attachment") w1 = (Ok attachments, w2) /\
    list_all_items zot fuel (Some "note") w2 = (Ok notes, w3) /\
    w' = mkWorld (backend w3) (log w3) (Some result) /\
    Forall2 (snapshot_of (attachments ++ notes)) items result /\
    (forall child k,
       In child (attachments ++ notes) ->
       dict_get "parentItem" (item_data child) = Some (VStr k) ->
       k <> EmptyString ->
       In k (map item_key items) ->
       exists snapshot,
         In snapshot result /\ item_key snapshot = k /\ In child (get_children snapshot)).
Proof.
  intros Hcache H. unfold _get_library_with_children in H. rewrite Hcache in H.
  unfold bind in H.
  destruct (list_all_items zot fuel None w) as [[items|e|] w1] eqn:E1; try discriminate.
  destruct (list_all_items zot fuel (Some "attachment") w1) as [[attachments|e|] w2] eqn:E2;
    try discriminate.
  destruct (list_all_items zot fuel (Some "note") w2) as [[notes|e|] w3] eqn:E3;
    try discriminate.
  destruct (group_children (map (set_children []) items) (attachments ++ notes))
    as [grouped|e] eqn:Eg; [|discriminate].
  cbn [lift ret] in H. unfold set_library_cache, ret in H. injection H as <- <-.
  exists items, attachments, notes, w1, w2, w3.
  split; [reflexivity|]. split; [exact E2|]. split; [exact E3|]. split; [reflexivity|]. split.
  - apply grown_snapshot.
    apply (group_children_grown _ (attachments ++ notes) (fun c Hc => Hc) _ _ Eg).
  - intros child k Hin Hparent Hk Hkey.
    apply (group_children_places _ _ _ child k Eg Hin Hparent Hk).
    rewrite map_map. exact Hkey.
Qed.

Lemma library_snapshot_groups_children_witness :
  let a := Sample.article "A" "10.1/a" [] in
  let b := Sample.article "B" "10.1/b" [] in
  let pdf := Sample.stored_pdf "P" "A" in
  let orphan := Sample.stored_pdf "Q" "GONE" in
  let library := [a; b; pdf; orphan] in
  exists result,
    fst (_get_library_with_children Sample.client 3 (Sample.start library 200)) = Ok result /\
    map item_key result = ["A"; "B"; "P"; "Q"] /\
    map get_children result = [[pdf]; []; []; []] /\
    Forall2 (snapshot_of [pdf; orphan]) library result.
Proof.
  intros a b pdf orphan library.
  destruct (_get_library_with_children Sample.client 3 (Sample.start library 200))
    as [[result| |] w'] eqn:E; try discriminate E.
  destruct (library_snapshot_groups_children Sample.client 3 (Sample.start library 200)
              w' result eq_refl E)
    as (items & attachments & notes & w1 & w2 & w3 & E1 & E2 & E3 & _ & Hsnap & _).
  vm_compute in E1. injection E1 as <- <-.
  vm_compute in E2. injection E2 as <- <-.
  vm_compute in E3. injection E3 as <- _.
  vm_compute in E. injection E as <- _.
  exists [set_children [pdf] a; set_children [] b; set_children [] pdf; set_children [] orphan].
  repeat split. exact Hsnap.
Defined.

(** ** Converting an item to another type *)

Section ConvertFacts.

Variable format_value : Value -> string.

Lemma copy_fields_get (old_data : Dict) (f : string) (fields : list string) :
  forall new_data,
    dict_get f (fold_left
                  (fun new_data field =>
                     match dict_get field old_data with
                     | Some v => dict_set field v new_data
                     | None => new_data
                     end)
                  fields new_data)
    = if existsb (String.eqb f) fields
      then match dict_get f old_data with
           | Some v => Some v
           | None => dict_get f new_data
           end
      else dict_get f new_data.
Proof.
  induction fields as [|g fields IH]; intros new_data; [reflexivity|].
  cbn [fold_left existsb]. rewrite IH.
  destruct (String.eqb f g) eqn:E.
  - apply String.eqb_eq in E. subst g. cbn [orb].
    destruct (dict_get f old_data) as [v|] eqn:Hold.
    + unfold dict_get, dict_set. rewrite assoc_get_set_same.
      now destruct (existsb (String.eqb f) fields).
    + now destruct (existsb (String.eqb f) fields).
  - cbn [orb]. apply String.eqb_neq in E.
    destruct (dict_get g old_data) as [v|]; [|reflexivity].
    assert (Hget : dict_get f (dict_set g v new_data) = dict_get f new_data)
      by (apply assoc_get_set_other; exact E).
    now rewrite Hget.
Qed.

Lemma apply_mapping_other (old_data new_data : Dict) (entry : string * string) (f : string) :
  f <> snd entry ->
  dict_get f (apply_mapping format_value old_data new_data entry) = dict_get f new_data.
Proof.
  destruct entry as [old_field new_field]. cbn [snd]. intros Hneq.
  unfold apply_mapping. destruct (dict_get old_field old_data) as [v|]; [|reflexivity].
  destruct (String.eqb new_field "extra") eqn:E.
  - apply String.eqb_eq in E. subst new_field.
    destruct (truthy _); unfold dict_get, dict_set; now apply assoc_get_set_other.
  - unfold dict_get, dict_set. now apply assoc_get_set_other.
Qed.

Lemma fold_mapping_other (old_data : Dict) (f : string) (mapping : list (string * string)) :
  ~ In f (map snd mapping) ->
  forall new_data,
    dict_get f (fold_left (apply_mapping format_value old_data) mapping new_data)
    = dict_get f new_data.
Proof.
  induction mapping as [|entry mapping IH]; intros Hnot new_data; [reflexivity|].
  cbn [fold_left]. rewrite IH by (intros H; apply Hnot; now right).
  apply apply_mapping_other. intros H. apply Hnot. now left.
Qed.

Lemma field_mappings_targets (old_type : Value) (new_type : string)
    (mapping : list (string * string)) :
  field_mappings old_type new_type = Returns mapping ->
  forall f, In f (map snd mapping) ->
  In f ["bookTitle"; "bookAbbreviation"; "place"; "publisher"; "edition"; "series";
        "seriesNumber"; "publicationTitle"; "extra"].
Proof.
  clear format_value.
  unfold field_mappings. destruct (hashable old_type); [|discriminate].
  intros H. injection H as <-. intros f.
  destruct (_ && _); [cbn; tauto|].
  destruct (_ && _); [cbn; tauto|].
  destruct (_ && _); cbn; tauto.
Qed.

Lemma common_field_targets (f : string) :
  In f common_fields ->
  In f ["bookTitle"; "bookAbbreviation"; "place"; "publisher"; "edition"; "series";
        "seriesNumber"; "publicationTitle"; "extra"] ->
  f = "extra"%string.
Proof.
  intros Hc Ht.
  destruct (String.eqb f "extra") eqn:E; [now apply String.eqb_eq|].
  exfalso. unfold common_fields in Hc. cbn [In] in Hc, Ht.
  repeat (destruct Hc as [Hc|Hc]; [subst f; intuition discriminate|]).
  exact Hc.
Qed.

End ConvertFacts.

(** X18. [convert_item_type] rebuilds the data of the item instead of
    editing it.  When the item can be read and its old type can be hashed,
    the item is submitted under the same key with ["itemType"] set to the
    new type; every common field other than ["extra"] is as it was read;
    and no other field survives unless it is the target of a field
    mapping, so type-specific fields such as the pages or the volume are
    dropped, also when the new type is the old one.  An old type that
    cannot be hashed gives an error dict and nothing is written. *)
Theorem convert_item_type_fields {B : Type} (zot : Zotero B) (format_value : Value -> string)
    (key new_type : string) (w : World B) (item : Item) (b1 : B) :
  zot_item zot key (backend w) = (Returns item, b1) ->
  if hashable (dict_get_default "itemType" (VStr EmptyString) (item_data item)) then
    exists submitted,
      log (snd (convert_item_type zot format_value key new_type w))
      = log w ++ [ReqItem key; ReqUpdateItem submitted] /\
      item_key submitted = item_key item /\
      dict_get "itemType" (item_data submitted) = Some (VStr new_type) /\
      (forall f, In f common_fields -> f <> "extra"%string ->
                 dict_get f (item_data submitted) = dict_get f (item_data item)) /\
      (forall f, dict_get f (item_data submitted) <> None ->
                 In f ("itemType" :: common_fields ++
                       ["bookTitle"; "bookAbbreviation"; "place"; "publisher"; "edition";
                        "series"; "seriesNumber"; "publicationTitle"]))
  else
    exists message,
      convert_item_type zot format_value key new_type w
      = (Ok (error_dict message), mkWorld b1 (log w ++ [ReqItem key]) (library_cache w)).
Proof.
  intros Hitem.
  destruct (hashable (dict_get_default "itemType" (VStr EmptyString) (item_data item)))
    eqn:Hhash.
  - assert (Hmap : exists mapping,
               field_mappings (dict_get_default "itemType" (VStr EmptyString) (item_data item))
                 new_type = Returns mapping).
    { unfold field_mappings. rewrite Hhash. eexists. reflexivity. }
    destruct Hmap as [mapping Hmap].
    assert (Htargets := field_mappings_targets _ _ _ Hmap).
    set (copied := copy_common (item_data item) [("itemType", VStr new_type)]).
    exists (set_item_data
              (fold_left (apply_mapping format_value (item_data item)) mapping copied) item).
    cbn [set_item_data item_data].
    split; [|split; [reflexivity|]; split; [|split]].
    + unfold convert_item_type, try_except, bind, call at 1. rewrite Hitem.
      unfold converted_data. cbv zeta. rewrite Hmap. cbn [lift ret].
      unfold call. cbn [backend log library_cache]. fold copied.
      destruct (zot_update_item zot _ b1) as [[v|e] b2]; cbn [snd log];
        now rewrite <- app_assoc.
    + rewrite fold_mapping_other.
      * unfold copied, copy_common. now rewrite copy_fields_get.
      * intros Hin. apply Htargets in Hin. cbn [In] in Hin. intuition discriminate.
    + intros f Hcommon Hextra. rewrite fold_mapping_other.
      * unfold copied, copy_common. rewrite copy_fields_get.
        assert (Hex : existsb (String.eqb f) common_fields = true)
          by now apply existsb_eqb_In.
        rewrite Hex. destruct (dict_get f (item_data item)); [reflexivity|].
        unfold dict_get. cbn [assoc_get].
        destruct (String.eqb f "itemType") eqn:E; [|reflexivity].
        apply String.eqb_eq in E. subst f. cbn [In common_fields] in Hcommon.
        exfalso. unfold common_fields in Hcommon. cbn [In] in Hcommon. intuition discriminate.
      * intros Hin. apply Hextra. apply common_field_targets; [exact Hcommon | now apply Htargets].
    + intros f Hsome.
      destruct (in_dec string_dec f (map snd mapping)) as [Hin|Hnot].
      * apply Htargets in Hin. right. apply in_or_app.
        cbn [In] in Hin. cbn [In].
        destruct Hin as [<-|[<-|[<-|[<-|[<-|[<-|[<-|[<-|[<-|[]]]]]]]]]]; auto 12.
        left. unfold common_fields. cbn [In]. auto 20.
      * rewrite fold_mapping_other in Hsome by exact Hnot.
        unfold copied, copy_common in Hsome. rewrite copy_fields_get in Hsome.
        destruct (existsb (String.eqb f) common_fields) eqn:Hex.
        -- right. apply in_or_app. left. now apply existsb_eqb_In.
        -- left. unfold dict_get in Hsome. cbn [assoc_get] in Hsome.
           destruct (String.eqb f "itemType") eqn:E; [|contradiction].
           apply String.eqb_eq in E. now subst f.
  - eexists. unfold convert_item_type, try_except, bind, call. rewrite Hitem.
    unfold converted_data, field_mappings. cbv zeta. rewrite Hhash. reflexivity.
Qed.

Lemma convert_item_type_fields_witness :
  let item := mkItem "A" [("itemType", VStr "journalArticle"); ("title", VStr "On trees");
                          ("volume", VStr "12"); ("pages", VStr "1-10");
                          ("DOI", VStr "10.1/a")] None in
  exists submitted,
    log (snd (convert_item_type Sample.client Sample.format_value "A" "journalArticle"
                (Sample.start [item] 200)))
    = [ReqItem "A"; ReqUpdateItem submitted] /\
    dict_get "title" (item_data submitted) = Some (VStr "On trees") /\
    dict_get "pages" (item_data submitted) = None.
Proof.
  intros item.
  destruct (convert_item_type_fields Sample.client Sample.format_value "A" "journalArticle"
              (Sample.start [item] 200) item (Sample.mkStore [item] 200) eq_refl)
    as (submitted & Hlog & _ & _ & Hcommon & Honly).
  exists submitted. split; [exact Hlog|]. split.
  - rewrite Hcommon; [reflexivity | cbn; auto | discriminate].
  - destruct (dict_get "pages" (item_data submitted)) eqn:E; [|reflexivity].
    exfalso. assert (Hin := Honly "pages"%string). rewrite E in Hin.
    specialize (Hin ltac:(discriminate)). cbn in Hin. intuition discriminate.
Defined.

(** ** Citation relations *)

Section RelationFacts.

Lemma with_collection_fixed (t : string) (c u : Value) :
  with_collection t c = Returns u ->
  with_collection t u = Returns u /\
  contains_str t u = Returns true /\
  ((forall s, c <> VStr s) -> forall s, u <> VStr s).
Proof.
  unfold with_collection.
  destruct (contains_str t c) as [[|]|e] eqn:E; [| |discriminate].
  - intros H. injection H as <-. rewrite E. auto.
  - destruct c; try discriminate. intros H. injection H as <-.
    assert (Hin : value_in (VStr t) (l ++ [VStr t]) = true).
    { unfold value_in. rewrite existsb_app. cbn [existsb value_eqb].
      now rewrite String.eqb_refl, orb_true_r. }
    cbn [contains_str]. rewrite Hin. repeat split. intros _ s. discriminate.
Qed.

(** Once an entry of the relations holds the target, adding the target
    again changes nothing. *)
Lemma with_relation_settled (relation_key target_uri : string) (d : Dict) (current : Value) :
  dict_get relation_key d = Some current ->
  (forall s, current <> VStr s) ->
  with_collection target_uri current = Returns current ->
  with_relation relation_key target_uri (VDict d) = Returns (VDict d).
Proof.
  intros Hget Hnot Hwith. unfold with_relation. cbn [contains_str]. rewrite Hget.
  cbv zeta. rewrite Hget.
  assert (Hset : dict_set relation_key current d = d)
    by (unfold dict_set; unfold dict_get in Hget; apply (assoc_set_same _ _ _ Hget)).
  destruct current; try (now destruct (Hnot s));
    cbn [subscript]; rewrite Hget, Hwith, Hset; reflexivity.
Qed.

Lemma with_relation_idempotent (relation_key target_uri : string) (relations result : Value) :
  with_relation relation_key target_uri relations = Returns result ->
  with_relation relation_key target_uri result = Returns result /\
  exists d current,
    result = VDict d /\
    dict_get relation_key d = Some current /\
    contains_str target_uri current = Returns true.
Proof.
  unfold with_relation.
  destruct (contains_str relation_key relations) as [present|e] eqn:Hpresent; [|discriminate].
  destruct relations as [| | | |l|d]; try discriminate; [destruct present; discriminate|].
  cbv zeta.
  set (d1 := if present then d else dict_set relation_key (VList []) d).
  assert (H1 : exists c1, dict_get relation_key d1 = Some c1).
  { cbn [contains_str] in Hpresent. unfold d1.
    destruct (dict_get relation_key d) as [c|] eqn:Hc; injection Hpresent as <-.
    - now exists c.
    - exists (VList []). unfold dict_get, dict_set. apply assoc_get_set_same. }
  destruct H1 as [c1 H1]. rewrite H1.
  set (d2 := match c1 with
             | VStr s => dict_set relation_key (VList [VStr s]) d1
             | _ => d1
             end).
  assert (H2 : exists c2, dict_get relation_key d2 = Some c2 /\ forall s, c2 <> VStr s).
  { unfold d2. destruct c1; try (eexists; split; [exact H1 | discriminate]).
    exists (VList [VStr s]). split; [|discriminate].
    unfold dict_get, dict_set. apply assoc_get_set_same. }
  destruct H2 as (c2 & H2 & Hnot). cbn [subscript]. rewrite H2.
  destruct (with_collection target_uri c2) as [updated|e] eqn:Hwith; [|discriminate].
  intros H. injection H as <-.
  destruct (with_collection_fixed _ _ _ Hwith) as (Hfixed & Hin & Hstr).
  assert (Hget : dict_get relation_key (dict_set relation_key updated d2) = Some updated)
    by (unfold dict_get, dict_set; apply assoc_get_set_same).
  split.
  - apply (with_relation_settled _ _ _ updated Hget (Hstr Hnot) Hfixed).
  - exists (dict_set relation_key updated d2), updated. auto.
Qed.

End RelationFacts.

(** X19. [add_citation_relation] is idempotent.  When it submits an
    item, the relations of that item have an entry for the relation type
    that holds the target; and run again on the item it submitted, it
    submits that very item again: a target that is already there is not
    added a second time. *)
Theorem add_citation_relation_idempotent {B : Type} (zot : Zotero B)
    (key relation_type target_uri : string) (w w2 : World B) (item : Item) (b1 b2 : B)
    (relations : Value) :
  zot_item zot key (backend w) = (Returns item, b1) ->
  with_relation ("dc:relation:" ++ relation_type) target_uri
    (dict_get_default "relations" (VDict []) (item_data item)) = Returns relations ->
  let submitted := set_data "relations" relations item in
  zot_item zot key (backend w2) = (Returns submitted, b2) ->
  log (snd (add_citation_relation zot key relation_type target_uri w))
  = log w ++ [ReqItem key; ReqUpdateItem submitted] /\
  (exists d current,
     relations = VDict d /\
     dict_get ("dc:relation:" ++ relation_type) d = Some current /\
     contains_str target_uri current = Returns true) /\
  log (snd (add_citation_relation zot key relation_type target_uri w2))
  = log w2 ++ [ReqItem key; ReqUpdateItem submitted].
Proof.
  intros Hitem Hrel submitted Hagain.
  destruct (with_relation_idempotent _ _ _ _ Hrel) as (Hfixed & Hentry).
  split; [|split; [exact Hentry|]].
  - unfold add_citation_relation, get_item, bind, call at 1. rewrite Hitem.
    cbv zeta. rewrite Hrel. cbn [lift ret]. unfold call. cbn [backend log library_cache].
    fold submitted.
    destruct (zot_update_item zot submitted b1) as [[v|e] b3]; cbn [snd log];
      now rewrite <- app_assoc.
  - unfold add_citation_relation, get_item, bind, call at 1. rewrite Hagain.
    cbv zeta.
    assert (Hread : dict_get_default "relations" (VDict []) (item_data submitted) = relations).
    { unfold submitted, set_data, dict_get_default, dict_get, dict_set. cbn [item_data].
      now rewrite assoc_get_set_same. }
    rewrite Hread, Hfixed. cbn [lift ret].
    assert (Hsame : set_data "relations" relations submitted = submitted).
    { unfold submitted, set_data, dict_set. cbn [item_data item_children].
      now rewrite assoc_set_twice. }
    rewrite Hsame. unfold call. cbn [backend log library_cache].
    destruct (zot_update_item zot submitted b2) as [[v|e] b3]; cbn [snd log];
      now rewrite <- app_assoc.
Qed.

Lemma add_citation_relation_idempotent_witness :
  let item := mkItem "A" [("itemType", VStr "book");
                          ("relations", VDict [("dc:relation:cites", VStr "doi:10.1/a")])] None in
  let submitted :=
    set_data "relations"
      (VDict [("dc:relation:cites", VList [VStr "doi:10.1/a"; VStr "doi:10.2/b"])]) item in
  log (snd (add_citation_relation Sample.client "A" "cites" "doi:10.2/b"
              (Sample.start [item] 200)))
  = [ReqItem "A"; ReqUpdateItem submitted] /\
  log (snd (add_citation_relation Sample.client "A" "cites" "doi:10.2/b"
              (Sample.start [submitted] 200)))
  = [ReqItem "A"; ReqUpdateItem submitted].
Proof.
  intros item submitted.
  destruct (add_citation_relation_idempotent Sample.client "A" "cites" "doi:10.2/b"
              (Sample.start [item] 200) (Sample.start [submitted] 200) item
              (Sample.mkStore [item] 200) (Sample.mkStore [submitted] 200)
              (VDict [("dc:relation:cites", VList [VStr "doi:10.1/a"; VStr "doi:10.2/b"])])
              eq_refl eq_refl eq_refl) as (Hfirst & _ & Hsecond).
  split; [exact Hfirst | exact Hsecond].
Defined.

(** ** Looking an item up by its DOI *)

Section StripFacts.

Lemma is_space_lower (c : ascii) : is_space (Str.lower_char c) = is_space c.
Proof.
  destruct c as [b0 b1 b2 b3 b4 b5 b6 b7].
  destruct b0, b1, b2, b3, b4, b5, b6, b7; reflexivity.
Qed.

Lemma lstrip_lower (s : string) : lstrip (Str.lower s) = Str.lower (lstrip s).
Proof.
  induction s as [|c s IH]; [reflexivity|].
  cbn [Str.lower lstrip]. rewrite is_space_lower.
  destruct (is_space c); [exact IH | reflexivity].
Qed.

Lemma rstrip_lower (s : string) : rstrip (Str.lower s) = Str.lower (rstrip s).
Proof.
  induction s as [|c s IH]; [reflexivity|].
  cbn [Str.lower rstrip]. rewrite IH, is_space_lower.
  destruct (rstrip s); cbn [Str.lower]; [|reflexivity].
  now destruct (is_space c).
Qed.

Lemma strip_lower (s : string) : strip (Str.lower s) = Str.lower (strip s).
Proof. unfold strip. now rewrite lstrip_lower, rstrip_lower. Qed.

Lemma rstrip_rstrip (s : string) : rstrip (rstrip s) = rstrip s.
Proof.
  induction s as [|c s IH]; [reflexivity|].
  cbn [rstrip]. destruct (rstrip s) as [|c' r] eqn:E.
  - destruct (is_space c) eqn:Ec; [reflexivity|]. cbn [rstrip]. now rewrite Ec.
  - cbn [rstrip]. cbn [rstrip] in IH. now rewrite IH.
Qed.

Lemma lstrip_head (s : string) :
  match lstrip s with
  | EmptyString => True
  | String c _ => is_space c = false
  end.
Proof.
  induction s as [|c s IH]; [exact I|].
  cbn [lstrip]. destruct (is_space c) eqn:E; [exact IH | exact E].
Qed.

Lemma lstrip_rstrip (s : string) :
  match s with
  | EmptyString => True
  | String c _ => is_space c = false
  end ->
  lstrip (rstrip s) = rstrip s.
Proof.
  destruct s as [|c s]; [reflexivity|]. intros Hc.
  cbn [rstrip]. destruct (rstrip s); [rewrite Hc|]; cbn [lstrip]; now rewrite Hc.
Qed.

Lemma strip_strip (s : string) : strip (strip s) = strip s.
Proof.
  unfold strip. rewrite (lstrip_rstrip (lstrip s) (lstrip_head s)).
  apply rstrip_rstrip.
Qed.

End StripFacts.

Section StripLengths.

Open Scope nat_scope.

Lemma lower_length (s : string) : String.length (Str.lower s) = String.length s.
Proof. induction s as [|c s IH]; [reflexivity|]. cbn [Str.lower String.length]. now rewrite IH. Qed.

Lemma lstrip_shrinks (s : string) :
  lstrip s = s \/ String.length (lstrip s) < String.length s.
Proof.
  induction s as [|c s IH]; [now left|].
  cbn [lstrip]. destruct (is_space c); [|now left].
  right. cbn [String.length]. destruct IH as [->|IH]; lia.
Qed.

Lemma rstrip_shrinks (s : string) :
  rstrip s = s \/ String.length (rstrip s) < String.length s.
Proof.
  induction s as [|c s IH]; [now left|].
  cbn [rstrip]. destruct (rstrip s) as [|c' r] eqn:E.
  - destruct (is_space c).
    + right. cbn [String.length]. lia.
    + destruct IH as [<-|IH]; [now left|]. right. cbn [String.length] in *. lia.
  - destruct IH as [<-|IH]; [now left|]. right. cbn [String.length] in *. lia.
Qed.

Lemma strip_shrinks (s : string) :
  strip s = s \/ String.length (strip s) < String.length s.
Proof.
  unfold strip. destruct (lstrip_shrinks s) as [->|Hl]; [apply rstrip_shrinks|].
  right. destruct (rstrip_shrinks (lstrip s)) as [->|Hr]; lia.
Qed.

(** A string that [strip] changes is not the lowercase of a stripped
    string, whatever its case. *)
Lemma unstripped_never_matches (d doi : string) :
  strip d <> d -> String.eqb (Str.lower d) (Str.lower (strip doi)) = false.
Proof.
  intros Hd. apply String.eqb_neq. intros Heq.
  assert (Hfix : strip (Str.lower d) = Str.lower d).
  { rewrite Heq, strip_lower, strip_strip. reflexivity. }
  rewrite strip_lower in Hfix.
  destruct (strip_shrinks d) as [E|Hlt]; [contradiction|].
  apply (f_equal String.length) in Hfix. rewrite !lower_length in Hfix. lia.
Qed.

End StripLengths.

(** X20. [get_item_by_doi] returns the first item, in the order in
    which [_all_items] yields the library, whose DOI in lowercase equals
    the query stripped of surrounding whitespace and put in lowercase, and
    [None] when there is none; the requests it sends are a prefix of those
    of a full pass.  The case of the query and whitespace around it do not
    matter.  The stored DOI is not stripped: an item whose DOI begins or
    ends with whitespace is never returned, whatever the query. *)
Theorem get_item_by_doi_first_match {B : Type} (zot : Zotero B) (fuel : nat) (doi : string)
    (w w' : World B) (items : list Item) (found : option Item) :
  list_all_items zot fuel None w = (Ok items, w') ->
  find_response (doi_matches doi) items = Returns found ->
  (exists w'' rest,
     get_item_by_doi zot fuel doi w = (Ok found, w'') /\
     log w' = log w'' ++ rest /\
     (found = None -> w'' = w')) /\
  match found with
  | Some item => exists before after,
                   items = before ++ item :: after /\
                   Forall (fun other => doi_matches doi other = Returns false) before /\
                   doi_matches doi item = Returns true
  | None => Forall (fun other => doi_matches doi other = Returns false) items
  end /\
  (forall doi', Str.lower (strip doi') = Str.lower (strip doi) ->
                get_item_by_doi zot fuel doi' w = get_item_by_doi zot fuel doi w) /\
  (forall item stored,
     dict_get "DOI" (item_data item) = Some (VStr stored) ->
     strip stored <> stored ->
     found <> Some item).
Proof.
  intros Hlist Hfind.
  destruct (all_items_first_spec zot fuel 0 [] w items w' Hlist)
    as (items' & Heq & _ & Hspec).
  cbn [app] in Heq. subst items'.
  assert (Hfirst := find_response_first _ _ _ Hfind).
  split; [exact (Hspec _ _ Hfind)|]. split; [exact Hfirst|]. split.
  - intros doi' Hclean. unfold get_item_by_doi.
    apply all_items_first_ext. intros item.
    unfold doi_matches. cbv zeta. now rewrite Hclean.
  - intros item stored Hstored Hstrip Hfound. subst found.
    destruct Hfirst as (before & after & _ & _ & Hmatch).
    unfold doi_matches, dict_get_default in Hmatch. rewrite Hstored in Hmatch.
    cbv zeta in Hmatch.
    assert (Hlower : lower_of (or_empty (VStr stored)) = Returns (Str.lower stored)).
    { unfold or_empty. cbn [truthy]. destruct stored; reflexivity. }
    rewrite Hlower in Hmatch. rewrite (unstripped_never_matches stored doi Hstrip) in Hmatch.
    discriminate.
Qed.

Lemma get_item_by_doi_first_match_witness :
  let a := Sample.article "A" " 10.1000/ABC" [] in
  let b := Sample.article "B" "10.1000/Abc" [] in
  fst (get_item_by_doi Sample.client 2 "  10.1000/abc " (Sample.start [a; b] 200))
  = Ok (Some b).
Proof.
  intros a b.
  destruct (get_item_by_doi_first_match Sample.client 2 "  10.1000/abc "
              (Sample.start [a; b] 200)
              (mkWorld (Sample.mkStore [a; b] 200) [ReqItems 0 100 None] None)
              [a; b] (Some b))
    as [(w'' & rest & Hrun & _) _].
  - reflexivity.
  - reflexivity.
  - rewrite Hrun. reflexivity.
Defined.

(** ** Merging tags over a library *)

Section MergeLibrary.

Context {B : Type}.
Variable zot : Zotero B.

Lemma for_each_ext {A St : Type} (body1 body2 : A -> St -> M B St) :
  (forall x acc w, body1 x acc w = body2 x acc w) ->
  forall xs acc w, for_each body1 xs acc w = for_each body2 xs acc w.
Proof.
  intros H. induction xs as [|x xs IH]; intros acc w; [reflexivity|].
  cbn [for_each]. unfold bind. rewrite H.
  destruct (body2 x acc w) as [[acc'|e|] w1]; [apply IH | reflexivity | reflexivity].
Qed.

Lemma all_items_from_ext {St : Type} (itemType : option string)
    (body1 body2 : Item -> St -> M B St) :
  (forall x acc w, body1 x acc w = body2 x acc w) ->
  forall fuel start acc w,
    _all_items_from zot fuel itemType body1 start acc w
    = _all_items_from zot fuel itemType body2 start acc w.
Proof.
  intros H. induction fuel as [|fuel IH]; intros start acc w; [reflexivity|].
  cbn [_all_items_from]. unfold bind at 1 3, call.
  destruct (zot_items zot start limit itemType (backend w)) as [[page|e] b1]; [|reflexivity].
  destruct page as [|x xs]; [reflexivity|].
  unfold bind. rewrite (for_each_ext body1 body2 H).
  destruct (for_each body2 (x :: xs) acc _) as [[acc'|e|] w1]; try reflexivity.
  destruct (List.length (x :: xs) <? limit); [reflexivity | apply IH].
Qed.

Lemma merge_tags_item_plan (source_tags : list string) (target_tag : string)
    (item : Item) (updated_count : nat) (w : World B) :
  merge_tags_item zot source_tags target_tag item updated_count w
  = retag_item zot (merge_plan source_tags target_tag) item updated_count w.
Proof.
  unfold merge_tags_item, retag_item, merge_plan, bind.
  destruct (lift (item_tag_names item) w) as [[current_tags|e|] w1]; try reflexivity.
  now destruct (merged_tags source_tags target_tag current_tags) as [new_tags [|]].
Qed.

End MergeLibrary.

(** X21. [merge_tags] on a library that the backend returns as one page
    of fewer than 100 items with well-formed tags: it asks for that page
    once, then sends one update for each item that carries a source tag,
    in the order of the page, each with the item's tag names in which
    every source tag is replaced by the target and every name is kept at
    its first occurrence only.  Items without a source tag are not
    written.  It returns the success dict, whose count is at most the
    number of items that carry a source tag. *)
Theorem merge_tags_single_page {B : Type} (zot : Zotero B) (fuel : nat)
    (source_tags : list string) (target_tag : string)
    (w : World B) (page : list Item) (b1 : B) :
  zot_items zot 0 100 None (backend w) = (Returns page, b1) ->
  List.length page < 100 ->
  Forall tags_well_formed page ->
  let is_source := fun s => existsb (String.eqb s) source_tags in
  let carriers := filter (fun item => existsb is_source (item_tag_strings item)) page in
  let merged := fun item =>
    set_data "tags"
      (tag_dicts (map VStr (dedupe_from
                              (map (fun s => if is_source s then target_tag else s)
                                   (item_tag_strings item)) [])))
      item in
  exists n w',
    merge_tags zot (S fuel) source_tags target_tag w
    = (Ok (VDict [("success", VBool true);
                  ("updated_items", VInt (Z.of_nat n));
                  ("message", VStr "Tags merged successfully")]), w') /\
    log w' = log w ++ ReqItems 0 100 None :: map (fun item => ReqUpdateItem (merged item)) carriers /\
    n <= List.length carriers.
Proof.
  intros Hpage Hshort Hwf is_source carriers merged.
  destruct (retag_single_page zot (merge_plan source_tags target_tag) fuel w page b1
              Hpage Hshort (well_formed_readable page Hwf)) as (n & w' & E & L & R).
  assert (Hplan : planned_updates (merge_plan source_tags target_tag) page
                  = map merged carriers).
  { rewrite (planned_updates_well_formed _ page Hwf).
    unfold carriers. rewrite <- flat_map_filter. apply flat_map_ext. intros item.
    unfold merge_plan, merged_tags. change (@nil Value) with (map VStr []).
    rewrite merged_tags_fold. cbn [orb]. fold is_source.
    now destruct (existsb is_source (item_tag_strings item)). }
  exists n, w'. unfold merge_tags, try_except, bind, _all_items.
  rewrite (all_items_from_ext zot None _ _ (merge_tags_item_plan zot source_tags target_tag)).
  unfold _all_items in E. rewrite E.
  split; [reflexivity|]. rewrite L, Hplan, map_map, length_map in *. split; [reflexivity | exact R].
Qed.

Lemma merge_tags_single_page_witness :
  let a := Sample.article "A" "10.1/a" [Sample.tag "ml"; Sample.tag "ML"; Sample.tag "ai"] in
  let b := Sample.article "B" "10.1/b" [Sample.tag "ai"] in
  exists n w',
    merge_tags Sample.client 1 ["ml"; "ai"] "ML" (Sample.start [a; b] 200)
    = (Ok (VDict [("success", VBool true);
                  ("updated_items", VInt (Z.of_nat n));
                  ("message", VStr "Tags merged successfully")]), w') /\
    log w' = [ReqItems 0 100 None;
              ReqUpdateItem (set_data "tags" (tag_dicts [VStr "ML"]) a);
              ReqUpdateItem (set_data "tags" (tag_dicts [VStr "ML"]) b)] /\
    n <= 2.
Proof.
  intros a b.
  apply (merge_tags_single_page Sample.client 0 ["ml"; "ai"] "ML" (Sample.start [a; b] 200)
           [a; b] (Sample.mkStore [a; b] 200)).
  - reflexivity.
  - simpl. lia.
  - repeat constructor.
Defined.

(** ** Malformed URLs *)

Section UrlFacts.

Import Re ReFacts.

Lemma match_cat_alt (s : string) : forall r1 r2 k,
  re_match (Cat (Alt r1 r2) k) s = re_match (Cat r1 k) s || re_match (Cat r2 k) s.
Proof.
  induction s as [|c s IH]; intros r1 r2 k.
  - cbn. rewrite !orb_false_r. now destruct (nullable r1), (nullable r2), (nullable k).
  - cbn [re_match nullable deriv].
    destruct (nullable r1), (nullable r2); cbn [orb andb];
      rewrite ?match_alt, IH;
      destruct (nullable k), (re_match (Cat (deriv c r1) k) s),
        (re_match (Cat (deriv c r2) k) s), (re_match (deriv c k) s); reflexivity.
Qed.

Lemma match_opt_lit (a : ascii) (k : regex) (s : string) :
  re_match (Cat (opt (lit a)) k) s = re_match (Cat (lit a) k) s || re_match k s.
Proof. unfold opt. now rewrite match_cat_alt, match_cat_eps. Qed.

End UrlFacts.

Section UrlShape.

Open Scope string_scope.

Lemma url_pattern_spec (s : string) :
  Re.re_match url_pattern s = true <->
  (exists rest, s = "http://" ++ rest) \/ (exists rest, s = "https://" ++ rest).
Proof.
  unfold url_pattern. split.
  - intros H.
    apply ShapeFacts.match_lit in H. destruct H as (r1 & -> & H).
    apply ShapeFacts.match_lit in H. destruct H as (r2 & -> & H).
    apply ShapeFacts.match_lit in H. destruct H as (r3 & -> & H).
    apply ShapeFacts.match_lit in H. destruct H as (r4 & -> & H).
    rewrite match_opt_lit in H. apply orb_true_iff in H. destruct H as [H|H].
    + apply ShapeFacts.match_lit in H. destruct H as (r5 & -> & H).
      apply ShapeFacts.match_lit in H. destruct H as (r6 & -> & H).
      apply ShapeFacts.match_lit in H. destruct H as (r7 & -> & H).
      apply ReShape.match_cls in H. destruct H as (c & rest & -> & Hc).
      apply Ascii.eqb_eq in Hc. subst c. right. now exists rest.
    + apply ShapeFacts.match_lit in H. destruct H as (r6 & -> & H).
      apply ShapeFacts.match_lit in H. destruct H as (r7 & -> & H).
      apply ReShape.match_cls in H. destruct H as (c & rest & -> & Hc).
      apply Ascii.eqb_eq in Hc. subst c. left. now exists rest.
  - intros [[rest ->]|[rest ->]]; apply ReFacts.match_prefix_closed; reflexivity.
Qed.

End UrlShape.

Section UrlReader.

Context {B : Type}.
Variable zot : Zotero B.

Lemma broken_url_fold (items : list Item) :
  Forall (fun item => exists broken, broken_url item = Returns broken) items ->
  forall acc,
    fold_response
      (fun item results =>
         match broken_url item with
         | Raises e => Raises e
         | Returns broken => Returns (if broken then results ++ [item] else results)
         end)
      items acc
    = Returns (acc ++ filter (fun item => match broken_url item with
                                          | Returns broken => broken
                                          | Raises _ => false
                                          end) items).
Proof.
  induction 1 as [|item items [broken Hitem] _ IH]; intros acc.
  - cbn. now rewrite app_nil_r.
  - cbn [fold_response filter]. rewrite Hitem, IH.
    destruct broken; [now rewrite <- app_assoc | reflexivity].
Qed.

End UrlReader.

(** X22. [items_with_broken_urls], consumed to the end, yields in library
    order the items whose URL is a non-empty string that begins neither
    with [http://] nor with [https://], in lowercase as written: a URL
    with an uppercase scheme or with another scheme is reported, an item
    without URL is not. *)
Theorem items_with_broken_urls_filters {B : Type} (zot : Zotero B) (fuel : nat)
    (w w' : World B) (items : list Item) (urls : Item -> string) :
  list_all_items zot fuel None w = (Ok items, w') ->
  (forall item, In item items ->
     or_empty (dict_get_default "url" (VStr EmptyString) (item_data item))
     = VStr (urls item)) ->
  exists keep,
    items_with_broken_urls zot fuel w = (Ok (filter keep items), w') /\
    forall item, In item items ->
      (keep item = true <->
       urls item <> EmptyString /\
       (forall rest, urls item <> ("http://" ++ rest)%string) /\
       (forall rest, urls item <> ("https://" ++ rest)%string)).
Proof.
  intros Hlist Hurls.
  assert (Hbroken : forall item, In item items ->
            broken_url item
            = Returns (nonempty (urls item) && negb (Re.re_match url_pattern (urls item)))).
  { intros item Hin. specialize (Hurls item Hin). unfold broken_url, or_empty in *.
    cbv zeta. destruct (truthy _) eqn:Htruthy.
    - rewrite Hurls in *. cbn [truthy] in Htruthy. unfold nonempty. now rewrite Htruthy.
    - injection Hurls as <-. reflexivity. }
  exists (fun item => match broken_url item with
                      | Returns broken => broken
                      | Raises _ => false
                      end).
  split.
  - unfold items_with_broken_urls.
    apply (all_items_fold zot None fuel w w' items Hlist _
             (fun item results =>
                match broken_url item with
                | Raises e => Raises e
                | Returns broken => Returns (if broken then results ++ [item] else results)
                end)).
    + intros x a w0. unfold bind, lift. destruct (broken_url x); reflexivity.
    + apply (broken_url_fold items).
      apply Forall_forall. intros item Hin. eexists. now apply Hbroken.
  - intros item Hin. rewrite (Hbroken item Hin).
    rewrite andb_true_iff, negb_true_iff. unfold nonempty. rewrite negb_true_iff.
    rewrite String.eqb_neq, <- not_true_iff_false, url_pattern_spec.
    split.
    + intros [Hne Hnot]. split; [exact Hne|]. split; intros rest Heq; apply Hnot; eauto.
    + intros (Hne & Hhttp & Hhttps). split; [exact Hne|].
      intros [[rest Heq]|[rest Heq]]; [apply (Hhttp rest Heq) | apply (Hhttps rest Heq)].
Qed.

Lemma items_with_broken_urls_filters_witness :
  let item := fun key url => mkItem key [("itemType", VStr "webpage"); ("url", VStr url)] None in
  let a := item "A" "https://example.org/a" in
  let b := item "B" "HTTP://example.org/b" in
  let c := Sample.article "C" "10.1/c" [] in
  exists keep,
    fst (items_with_broken_urls Sample.client 2 (Sample.start [a; b; c] 200))
    = Ok (filter keep [a; b; c]) /\
    keep a = false /\ keep b = true /\ keep c = false.
Proof.
  intros item a b c.
  destruct (items_with_broken_urls_filters Sample.client 2 (Sample.start [a; b; c] 200)
              (mkWorld (Sample.mkStore [a; b; c] 200) [ReqItems 0 100 None] None)
              [a; b; c]
              (fun item =>
                 match or_empty (dict_get_default "url" (VStr EmptyString) (item_data item)) with
                 | VStr s => s
                 | _ => EmptyString
                 end))
    as (keep & Hrun & Hkeep).
  - reflexivity.
  - intros x [<-|[<-|[<-|[]]]]; reflexivity.
  - exists keep. rewrite Hrun. split; [reflexivity|]. split; [|split].
    + destruct (keep a) eqn:E; [|reflexivity].
      apply Hkeep in E; [|cbn; auto]. destruct E as (_ & _ & Hhttps).
      now destruct (Hhttps "example.org/a"%string).
    + apply Hkeep; [cbn; auto|]. cbn. repeat split; intros; discriminate.
    + destruct (keep c) eqn:E; [|reflexivity].
      apply Hkeep in E; [|cbn; auto]. destruct E as (Hne & _). now destruct Hne.
Defined.

(** ** The tag cloud *)

Section CloudFacts.

Lemma insert_by_count_perm (x : Value * nat) (l : list (Value * nat)) :
  Permutation (insert_by_count x l) (x :: l).
Proof.
  induction l as [|y l IH]; [reflexivity|].
  cbn [insert_by_count]. destruct (snd y <? snd x); [reflexivity|].
  rewrite IH. apply perm_swap.
Qed.

Lemma sorted_from_perm (l : list (Value * nat)) : forall acc,
  Permutation (fold_left (fun sorted x => insert_by_count x sorted) l acc) (acc ++ l).
Proof.
  induction l as [|x l IH]; intros acc.
  - cbn. now rewrite app_nil_r.
  - cbn [fold_left]. rewrite IH.
    transitivity ((x :: acc) ++ l).
    + apply Permutation_app_tail, insert_by_count_perm.
    + apply Permutation_middle.
Qed.

Lemma insert_by_count_descending (x : Value * nat) (l : list (Value * nat)) :
  descending (map snd l) -> descending (map snd (insert_by_count x l)).
Proof.
  induction l as [|y l IH]; intros Hd.
  - cbn. split; [constructor | exact I].
  - cbn [insert_by_count]. cbn [map descending] in Hd. destruct Hd as [Hy Hd].
    destruct (snd y <? snd x) eqn:E.
    + apply Nat.ltb_lt in E. cbn [map descending]. split; [|split; assumption].
      constructor; [lia|]. revert Hy. apply Forall_impl. intros m Hm. lia.
    + apply Nat.ltb_ge in E. cbn [map descending]. split; [|now apply IH].
      assert (Hperm := Permutation_map snd (insert_by_count_perm x l)).
      apply (Permutation_Forall (Permutation_sym Hperm)).
      cbn [map]. now constructor.
Qed.

Lemma sorted_from_descending (l : list (Value * nat)) : forall acc,
  descending (map snd acc) ->
  descending (map snd (fold_left (fun sorted x => insert_by_count x sorted) l acc)).
Proof.
  induction l as [|x l IH]; intros acc Hd; [exact Hd|].
  cbn [fold_left]. apply IH. now apply insert_by_count_descending.
Qed.

Lemma insert_by_count_filter (n : nat) (x : Value * nat) (l : list (Value * nat)) :
  descending (map snd l) ->
  filter (fun kv => snd kv =? n) (insert_by_count x l)
  = filter (fun kv => snd kv =? n) l ++ (if snd x =? n then [x] else []).
Proof.
  induction l as [|y l IH]; intros Hd.
  - cbn. now destruct (snd x =? n).
  - cbn [insert_by_count]. cbn [map descending] in Hd. destruct Hd as [Hy Hd].
    destruct (snd y <? snd x) eqn:E.
    + apply Nat.ltb_lt in E. cbn [filter].
      destruct (snd x =? n) eqn:Ex; [|now rewrite app_nil_r].
      apply Nat.eqb_eq in Ex.
      assert (Hy' : (snd y =? n) = false) by (apply Nat.eqb_neq; lia).
      rewrite Hy'.
      assert (Hnone : filter (fun kv => snd kv =? n) l = []).
      { clear IH Hd. induction l as [|z l IHl]; [reflexivity|].
        cbn [map] in Hy. inversion Hy as [|? ? Hz Hrest]; subst.
        cbn [filter]. assert (Hz' : (snd z =? snd x) = false) by (apply Nat.eqb_neq; lia).
        rewrite Hz'. now apply IHl. }
      now rewrite Hnone.
    + cbn [filter]. rewrite (IH Hd). now destruct (snd y =? n).
Qed.

Lemma sorted_from_filter (n : nat) (l : list (Value * nat)) : forall acc,
  descending (map snd acc) ->
  filter (fun kv => snd kv =? n) (fold_left (fun sorted x => insert_by_count x sorted) l acc)
  = filter (fun kv => snd kv =? n) acc ++ filter (fun kv => snd kv =? n) l.
Proof.
  induction l as [|x l IH]; intros acc Hd.
  - cbn. now rewrite app_nil_r.
  - cbn [fold_left filter]. rewrite IH by now apply insert_by_count_descending.
    rewrite (insert_by_count_filter n x acc Hd), <- app_assoc.
    now destruct (snd x =? n).
Qed.

Lemma dict_of_distinct {V : Type} (l : list (Value * V)) : forall (names : list string) acc,
  map fst (acc ++ l) = map VStr names ->
  NoDup names ->
  fold_left (fun d kv => vdict_set (fst kv) (snd kv) d) l acc = acc ++ l.
Proof.
  induction l as [|[k v] l IH]; intros names acc Hkeys Hnd.
  - cbn. now rewrite app_nil_r.
  - cbn [fold_left fst snd].
    assert (Hfresh : vdict_set k v acc = acc ++ [(k, v)]).
    { apply vdict_set_fresh. intros k' v' Hin.
      assert (Hnd' : NoDup (map fst (acc ++ (k, v) :: l))).
      { rewrite Hkeys. now apply NoDup_map_VStr. }
      rewrite map_app in Hnd'. cbn [map fst] in Hnd'.
      apply NoDup_remove_2 in Hnd'.
      assert (Hk : In k (map VStr names)).
      { rewrite <- Hkeys, map_app. apply in_or_app. right. now left. }
      assert (Hk' : In k' (map fst acc)) by (apply (in_map fst) in Hin; exact Hin).
      apply in_map_iff in Hk. destruct Hk as (s & <- & _).
      destruct (value_eqb (VStr s) k') eqn:E; [|reflexivity].
      rewrite value_eqb_str_comm in E. apply value_eqb_str_r in E. subst k'.
      exfalso. apply Hnd'. apply in_or_app. now left. }
    rewrite Hfresh. rewrite (IH names (acc ++ [(k, v)])).
    + now rewrite <- app_assoc.
    + now rewrite <- app_assoc.
    + exact Hnd.
Qed.

End CloudFacts.

(** X23. [tag_cloud] on a library with well-formed tags returns the
    entries of [all_tags], each tag with the same count, ordered by
    descending count; tags with the same count stay in the order in which
    [all_tags] has them, which is the order of their first occurrence in
    the library. *)
Theorem tag_cloud_sorted {B : Type} (zot : Zotero B) (fuel : nat) (w w' : World B)
    (items : list Item) :
  list_all_items zot fuel None w = (Ok items, w') ->
  Forall tags_well_formed items ->
  exists counts cloud,
    all_tags zot fuel w = (Ok counts, w') /\
    tag_cloud zot fuel w = (Ok cloud, w') /\
    Permutation cloud counts /\
    descending (map snd cloud) /\
    forall n, filter (fun kv => snd kv =? n) cloud = filter (fun kv => snd kv =? n) counts.
Proof.
  intros Hlist Hwf.
  destruct (all_tags_keys zot fuel w w' items Hlist Hwf) as (counts & Hrun & Hkeys).
  assert (Hperm : Permutation (sorted_by_count counts) counts)
    by apply (sorted_from_perm counts []).
  assert (Hdict : dict_of_pairs (sorted_by_count counts) = sorted_by_count counts).
  { assert (Hp := Permutation_map fst Hperm). rewrite Hkeys in Hp.
    apply Permutation_map_inv in Hp.
    destruct Hp as (names & Hnames & Hp).
    apply (dict_of_distinct (sorted_by_count counts) names []); [exact Hnames|].
    apply (Permutation_NoDup Hp).
    apply (dedupe_from_spec _ [] (NoDup_nil _)). }
  exists counts, (sorted_by_count counts).
  split; [exact Hrun|]. split; [|split; [exact Hperm|split]].
  - unfold tag_cloud, bind. rewrite Hrun, Hdict. reflexivity.
  - apply (sorted_from_descending counts []). exact I.
  - intros n. apply (sorted_from_filter n counts []). exact I.
Qed.

Lemma tag_cloud_sorted_witness :
  let library := [Sample.article "A" "10.1/a" [Sample.tag "rare"; Sample.tag "ml"];
                  Sample.article "B" "10.1/b" [Sample.tag "ml"; Sample.tag "late"]] in
  fst (tag_cloud Sample.client 2 (Sample.start library 200))
  = Ok [(VStr "ml", 2); (VStr "rare", 1); (VStr "late", 1)].
Proof.
  intros library.
  destruct (tag_cloud_sorted Sample.client 2 (Sample.start library 200)
              (mkWorld (Sample.mkStore library 200) [ReqItems 0 100 None] None) library)
    as (counts & cloud & Hall & Hcloud & _).
  - reflexivity.
  - repeat constructor.
  - rewrite Hcloud. vm_compute in Hall. injection Hall as <-.
    vm_compute in Hcloud. injection Hcloud as <-. reflexivity.
Defined.

(** ** The item cache of the agent *)

Section AgentFacts.

Context {B : Type}.
Variable zot : Zotero B.

Lemma assoc_pop_same {V : Type} (k : string) (d : list (string * V)) :
  assoc_get k (assoc_pop k d) = None.
Proof.
  induction d as [|[k' v] d IH]; simpl; [reflexivity|].
  destruct (String.eqb k k') eqn:E; simpl; [exact IH | now rewrite E].
Qed.

Lemma assoc_pop_other {V : Type} (k k0 : string) (d : list (string * V)) :
  k0 <> k -> assoc_get k0 (assoc_pop k d) = assoc_get k0 d.
Proof.
  intros Hneq. induction d as [|[k' v] d IH]; simpl; [reflexivity|].
  destruct (String.eqb k k') eqn:E; simpl.
  - apply String.eqb_eq in E. subst k'.
    apply String.eqb_neq in Hneq. now rewrite Hneq.
  - now rewrite IH.
Qed.

Lemma on_client_cache {A : Type} (m : M B A) (self : ZoteroAgent.Agent B) :
  ZoteroAgent._item_cache (snd (ZoteroAgent.on_client m self)) = ZoteroAgent._item_cache self.
Proof. unfold ZoteroAgent.on_client. now destruct (m (ZoteroAgent.client self)). Qed.

Lemma on_client_world {A : Type} (m : M B A) (self : ZoteroAgent.Agent B) :
  ZoteroAgent.client (snd (ZoteroAgent.on_client m self)) = snd (m (ZoteroAgent.client self)).
Proof. unfold ZoteroAgent.on_client. now destruct (m (ZoteroAgent.client self)). Qed.

(** A write method is its toolkit function run after the entry of the
    item has been popped. *)
Lemma run_on_client (op : ZoteroAgent.Write) :
  exists m : M B Value,
    keeps_cache m /\
    forall self,
      ZoteroAgent.run zot op self
      = ZoteroAgent.on_client m (ZoteroAgent.invalidate (ZoteroAgent.written_key op) self).
Proof.
  destruct op; eexists; (split; [|intros self; reflexivity]).
  - apply keeps_add_tags_to_item.
  - apply keeps_remove_tags_from_item.
  - apply keeps_move_item_to_collection.
  - apply keeps_add_item_to_collection.
  - unfold remove_item_from_collection, get_item. keeps_cache.
  - apply keeps_update_item_fields.
  - apply keeps_delete_item.
Qed.

Lemma agent_get_item_cached (k : string) (item : Item) (self : ZoteroAgent.Agent B) :
  assoc_get k (ZoteroAgent._item_cache self) = Some item ->
  ZoteroAgent.get_item zot k self = (Ok item, self).
Proof. intros H. unfold ZoteroAgent.get_item. now rewrite H. Qed.

Lemma agent_get_item_fetches (k : string) (self : ZoteroAgent.Agent B) :
  assoc_get k (ZoteroAgent._item_cache self) = None ->
  log (ZoteroAgent.client (snd (ZoteroAgent.get_item zot k self)))
  = log (ZoteroAgent.client self) ++ [ReqItem k].
Proof.
  intros H. unfold ZoteroAgent.get_item. rewrite H.
  unfold get_item, call.
  destruct (zot_item zot k (backend (ZoteroAgent.client self))) as [[item|e] b]; reflexivity.
Qed.

End AgentFacts.

(** X25. The clear-on-write of the agent's item cache.  Every write
    method of [ZoteroAgent] pops the entry of the item it writes from
    [_item_cache] before it calls the toolkit: afterwards the cache has
    no entry for that item (also when the toolkit call raised) and every
    other entry is as before, so the next [get_item] for the written item
    sends a request, while [get_item] for an item still in the cache
    returns the cached dict without one.  The library snapshot
    [_library_cache] of the client is not touched. *)
Theorem agent_writes_invalidate_item {B : Type} (zot : Zotero B) (op : ZoteroAgent.Write)
    (self : ZoteroAgent.Agent B) :
  let key := ZoteroAgent.written_key op in
  let self' := snd (ZoteroAgent.run zot op self) in
  assoc_get key (ZoteroAgent._item_cache self') = None /\
  (forall k, k <> key ->
     assoc_get k (ZoteroAgent._item_cache self') = assoc_get k (ZoteroAgent._item_cache self)) /\
  log (ZoteroAgent.client (snd (ZoteroAgent.get_item zot key self')))
  = log (ZoteroAgent.client self') ++ [ReqItem key] /\
  (forall k item, assoc_get k (ZoteroAgent._item_cache self') = Some item ->
     ZoteroAgent.get_item zot k self' = (Ok item, self')) /\
  library_cache (ZoteroAgent.client self') = library_cache (ZoteroAgent.client self).
Proof.
  intros key self'.
  destruct (run_on_client zot op) as (m & Hkeeps & Hrun).
  assert (Hcache : ZoteroAgent._item_cache self'
                   = assoc_pop key (ZoteroAgent._item_cache self)).
  { unfold self'. rewrite Hrun, on_client_cache. reflexivity. }
  assert (Hnone : assoc_get key (ZoteroAgent._item_cache self') = None)
    by (rewrite Hcache; apply assoc_pop_same).
  split; [exact Hnone|]. split; [|split; [|split]].
  - intros k Hk. rewrite Hcache. now apply assoc_pop_other.
  - now apply agent_get_item_fetches.
  - intros k item. apply agent_get_item_cached.
  - unfold self'. rewrite Hrun, on_client_world. apply Hkeeps.
Qed.

Example agent_cache_run :
  let a := Sample.article "A" "10.1/a" [] in
  let b := Sample.article "B" "10.1/b" [] in
  let self0 := ZoteroAgent.mkAgent [] (Sample.start [a; b] 200) in
  let self1 := snd (ZoteroAgent.get_item Sample.client "A" self0) in
  let self2 := snd (ZoteroAgent.get_item Sample.client "B" self1) in
  let self3 := snd (ZoteroAgent.update_fields Sample.client "A"
                      [("title", VStr "New title")] self2) in
  ZoteroAgent._item_cache self2 = [("A", a); ("B", b)] /\
  ZoteroAgent._item_cache self3 = [("B", b)] /\
  fst (ZoteroAgent.get_item Sample.client "A" self3)
  = Ok (set_data "title" (VStr "New title") a) /\
  log (ZoteroAgent.client (snd (ZoteroAgent.get_item Sample.client "B" self3)))
  = log (ZoteroAgent.client self3).
Proof. repeat split. Qed.
